(** * Otwarty-Szpon: task routing, budget steering and stream quality guard

    A shallow embedding of modules of the agent runtime,

    - [smart-routing.ts]  : [classifyTaskType], [matchAffinity], [applySmartRouting];
    - [token-budget.ts]   : [mapToUsageProviderId], [getProviderBudget], [filterByBudget],
                            [applyBudgetSteering];
    - [quality-guard.ts]  : [createQualityGuardState], [checkStreamingChunk],
                            [checkForStall], [checkFinalResponse], [checkForLooping],
                            [detectRepetitionRatio];
    - [model-discovery.ts] and its cron : [loadDiscoveryState],
                            [discoverFreeOpenRouterModels], [listOllamaModels],
                            [installRecommendedOllamaModels], [syncFreeModels],
                            [isDiscoveryScanDue], [runDiscoveryCycle];
    - [reply-audit.ts]    : [classifyReplyIntent], [createReplyAuditHandler];

    followed by the properties of the routing-and-supervision pipeline, of
    the discovery and of the audit.

    Conventions of the embedding.
    - A JavaScript string is the list of its UTF-16 code units ([jsstring]);
      [length] is the [.length] of the source.
    - Numbers that only hold integers (indices, lengths, epoch milliseconds,
      thresholds counted in chunks or characters) are [Z] or [nat]; numbers
      that may carry a fraction (usage percentages, seconds, the repetition
      ratio, sizes in GB) are exact rationals [Q].  The source only
      compares such numbers and forms one quotient of two integers, so no
      rounding is involved for texts shorter than 2^50 characters; a decimal
      fraction of the source, such as a size of 4.7 GB, stands for itself.
    - The interval of the discovery cron is a number of hours that the
      source multiplies three times; it is a binary64 number ([Binary64])
      and every product is rounded as the platform rounds it.
    - [Date.now()] is an explicit argument [now] of the operations reading it.
    - An operation that mutates its state argument and may throw returns the
      state it leaves behind together with its [outcome]. *)

From Stdlib Require Import String Ascii.
From Stdlib Require Import List Bool Arith ZArith NArith QArith Lia.
From Stdlib Require Import Permutation Sorted.
From Stdlib Require SpecFloat.
Import ListNotations.

Close Scope Q_scope.
Local Open Scope bool_scope.
Local Open Scope list_scope.

(* ================================================================== *)
(** * Part I.  The platform: strings, regular expressions, sorting     *)
(* ================================================================== *)

Module JS.

(** ** Strings *)

Definition codeunit := N.
Definition jsstring := list codeunit.

(** Code units of the text of a literal of this file (UTF-8 to UTF-16). *)
Fixpoint utf16 (bs : list N) : jsstring :=
  match bs with
  | [] => []
  | b0 :: r0 =>
    if (b0 <? 0x80)%N then b0 :: utf16 r0
    else if (b0 <? 0xE0)%N then
      match r0 with
      | b1 :: r1 =>
        N.lor (N.shiftl (N.land b0 0x1F) 6) (N.land b1 0x3F) :: utf16 r1
      | _ => []
      end
    else if (b0 <? 0xF0)%N then
      match r0 with
      | b1 :: b2 :: r2 =>
        N.lor (N.shiftl (N.land b0 0x0F) 12)
              (N.lor (N.shiftl (N.land b1 0x3F) 6) (N.land b2 0x3F)) :: utf16 r2
      | _ => []
      end
    else
      match r0 with
      | b1 :: b2 :: b3 :: r3 =>
        let cp := N.lor (N.shiftl (N.land b0 0x07) 18)
                  (N.lor (N.shiftl (N.land b1 0x3F) 12)
                  (N.lor (N.shiftl (N.land b2 0x3F) 6) (N.land b3 0x3F))) in
        let v := (cp - 0x10000)%N in
        (0xD800 + N.shiftr v 10)%N :: (0xDC00 + N.land v 0x3FF)%N :: utf16 r3
      | _ => []
      end
  end.

Definition js (s : string) : jsstring :=
  utf16 (map N_of_ascii (list_ascii_of_string s)).

Fixpoint eqb (a b : jsstring) : bool :=
  match a, b with
  | [], [] => true
  | x :: a', y :: b' => if (x =? y)%N then eqb a' b' else false
  | _, _ => false
  end.

(** [s.startsWith(p)] *)
Fixpoint startsWith (p s : jsstring) : bool :=
  match p, s with
  | [], _ => true
  | x :: p', y :: s' => if (x =? y)%N then startsWith p' s' else false
  | _ :: _, [] => false
  end.

(** [s.includes(p)] *)
Fixpoint includes (s p : jsstring) : bool :=
  if startsWith p s then true
  else
    match s with
    | [] => false
    | _ :: s' => includes s' p
    end.

(** The first index [>= i] at which [p] occurs, [s] being the text from
    index [i] on. *)
Fixpoint indexFrom (p s : jsstring) (i : nat) : option nat :=
  if startsWith p s then Some i
  else match s with
       | [] => None
       | _ :: s' => indexFrom p s' (S i)
       end.

(** [s.indexOf(p, pos)], [None] standing for [-1]. *)
Definition indexOf (s p : jsstring) (pos : nat) : option nat :=
  let start := Nat.min pos (length s) in
  indexFrom p (skipn start s) start.

(** [a.slice(start)] for arrays and strings: a negative [start] counts from
    the end. *)
Definition sliceFrom {A} (l : list A) (start : Z) : list A :=
  let len := Z.of_nat (length l) in
  let k := if (start <? 0)%Z then Z.max (len + start) 0 else Z.min start len in
  skipn (Z.to_nat k) l.

(** [s.slice(0, n)] *)
Definition sliceTo {A} (l : list A) (n : nat) : list A := firstn n l.

(** [chunks.join("")] *)
Definition join (l : list jsstring) : jsstring := concat l.

(** White space and line terminators: the class [\s] of regular expressions
    and the characters removed by [trim]. *)
Definition isWhiteSpace (c : codeunit) : bool :=
  ((0x09 <=? c) && (c <=? 0x0D) || (c =? 0x20) || (c =? 0xA0) || (c =? 0x1680)
   || (0x2000 <=? c) && (c <=? 0x200A) || (c =? 0x2028) || (c =? 0x2029)
   || (c =? 0x202F) || (c =? 0x205F) || (c =? 0x3000) || (c =? 0xFEFF))%N.

Fixpoint trimStart (s : jsstring) : jsstring :=
  match s with
  | c :: s' => if isWhiteSpace c then trimStart s' else s
  | [] => []
  end.

Definition trimEnd (s : jsstring) : jsstring := rev (trimStart (rev s)).

Definition trim (s : jsstring) : jsstring := trimEnd (trimStart s).

(** [String.prototype.toLowerCase] follows the Unicode case tables of the
    platform; the development is parametric in it. *)
Class StringCase := { toLowerCase : jsstring -> jsstring }.

(** The instance used to run the model on texts of Basic Latin letters. *)
Definition asciiLower (c : codeunit) : codeunit :=
  if ((0x41 <=? c) && (c <=? 0x5A))%N then (c + 0x20)%N else c.

Definition asciiCase : StringCase := {| toLowerCase := map asciiLower |}.

(** ** Numbers

    [a > b] and [a >= b] on numbers that may carry a fraction. *)
Definition gtb (a b : Q) : bool := negb (Qle_bool a b).
Definition geb (a b : Q) : bool := Qle_bool b a.

(** Numbers with infinities, as far as the sort comparator needs them. *)

Inductive number :=
| Fin (z : Z)
| PosInfinity
| NegInfinity
| NaN.

Definition number_eqb (a b : number) : bool :=
  match a, b with
  | Fin x, Fin y => (x =? y)%Z
  | PosInfinity, PosInfinity => true
  | NegInfinity, NegInfinity => true
  | _, _ => false
  end.

Definition sub (a b : number) : number :=
  match a, b with
  | NaN, _ | _, NaN => NaN
  | Fin x, Fin y => Fin (x - y)
  | Fin _, PosInfinity => NegInfinity
  | Fin _, NegInfinity => PosInfinity
  | PosInfinity, PosInfinity => NaN
  | PosInfinity, _ => PosInfinity
  | NegInfinity, NegInfinity => NaN
  | NegInfinity, _ => NegInfinity
  end.

Definition isPositive (v : number) : bool :=
  match v with
  | Fin z => (0 <? z)%Z
  | PosInfinity => true
  | _ => false
  end.

(** ** [Array.prototype.sort]

    The language specifies a stable sort: [b] is moved before [a] only when
    the comparator is positive on [(a, b)].  Insertion from the right is one
    such sort; [sort_unique] below shows that for the comparator of
    [applySmartRouting] every sorting procedure returns the same array. *)

Section Sort.
Context {A : Type} (cmp : A -> A -> number).

Fixpoint insert (x : A) (l : list A) : list A :=
  match l with
  | [] => [x]
  | y :: l' => if isPositive (cmp x y) then y :: insert x l' else x :: l
  end.

Definition sort (l : list A) : list A := fold_right insert [] l.

End Sort.

(** [array.map((x, i) => f(x, i))] *)
Fixpoint mapiFrom {A B} (f : A -> nat -> B) (i : nat) (l : list A) : list B :=
  match l with
  | [] => []
  | x :: l' => f x i :: mapiFrom f (S i) l'
  end.

Definition mapi {A B} (f : A -> nat -> B) (l : list A) : list B := mapiFrom f 0 l.

(** ** Regular expressions

    The fragment used by the classifier: characters and classes,
    concatenation, alternation, [*], and the assertion [\b].  [+] and [?]
    are derived.  None of the patterns carries the [g] or [y] flag, so
    [test] does not depend on [lastIndex]. *)

Inductive regex :=
| Eps
| Chr (f : codeunit -> bool)
| Cat (a b : regex)
| Alt (a b : regex)
| Star (a : regex)
| WordB.

(** [\w] *)
Definition isWordChar (c : codeunit) : bool :=
  ((0x30 <=? c) && (c <=? 0x39) || (0x41 <=? c) && (c <=? 0x5A)
   || (0x61 <=? c) && (c <=? 0x7A) || (c =? 0x5F))%N.

(** [\d] *)
Definition isDigit (c : codeunit) : bool := ((0x30 <=? c) && (c <=? 0x39))%N.

Definition isWordAt (c : option codeunit) : bool :=
  match c with
  | Some x => isWordChar x
  | None => false
  end.

Definition cont := option codeunit -> jsstring -> bool.

(** Zero or more rounds of [step]; a round that consumes nothing is not
    repeated, so [length s] rounds are all there can be. *)
Fixpoint starLoop (step : option codeunit -> jsstring -> cont -> bool)
         (n : nat) (prev : option codeunit) (s : jsstring) (k : cont) : bool :=
  if k prev s then true
  else
    match n with
    | O => false
    | S n' =>
      step prev s
           (fun p' s' =>
              if (length s' <? length s)%nat then starLoop step n' p' s' k
              else false)
    end.

(** [matchAt r prev s k]: some match of [r] at the head of [s] ([prev] being
    the code unit before it) leaves a rest that [k] accepts. *)
Fixpoint matchAt (r : regex) (prev : option codeunit) (s : jsstring) (k : cont)
  : bool :=
  match r with
  | Eps => k prev s
  | Chr f =>
    match s with
    | c :: s' => if f c then k (Some c) s' else false
    | [] => false
    end
  | Cat a b => matchAt a prev s (fun p' s' => matchAt b p' s' k)
  | Alt a b => if matchAt a prev s k then true else matchAt b prev s k
  | Star a => starLoop (matchAt a) (length s) prev s k
  | WordB =>
    if xorb (isWordAt prev) (isWordAt (hd_error s)) then k prev s else false
  end.

Fixpoint searchFrom (r : regex) (prev : option codeunit) (s : jsstring) : bool :=
  if matchAt r prev s (fun _ _ => true) then true
  else
    match s with
    | [] => false
    | c :: s' => searchFrom r (Some c) s'
    end.

(** [pattern.test(s)] *)
Definition test (r : regex) (s : jsstring) : bool := searchFrom r None s.

(** *** Pattern syntax *)

(** Canonicalisation of the [i] flag without the [u] flag, exact for the
    pattern characters of this development (Basic Latin, [ç], [ñ]): no
    code unit outside Basic Latin canonicalises to a Basic Latin one, and
    only [ç], [ñ] canonicalise to [Ç], [Ñ]. *)
Definition canonicalize (c : codeunit) : codeunit :=
  if ((0x61 <=? c) && (c <=? 0x7A))%N then (c - 0x20)%N
  else if ((0xE0 <=? c) && (c <=? 0xFE) && negb (c =? 0xF7))%N then (c - 0x20)%N
  else c.

Definition chr (c : codeunit) : regex := Chr (N.eqb c).
Definition chri (c : codeunit) : regex :=
  Chr (fun x => (canonicalize x =? canonicalize c)%N).

Definition never : regex := Chr (fun _ => false).

Definition cat (l : list regex) : regex := fold_right Cat Eps l.
Definition alt (l : list regex) : regex := fold_right Alt never l.
Definition plus (r : regex) : regex := Cat r (Star r).
Definition opt (r : regex) : regex := Alt r Eps.

(** A literal text, case-sensitive and under the [i] flag. *)
Definition lit (s : string) : regex := cat (map chr (js s)).
Definition liti (s : string) : regex := cat (map chri (js s)).

(** [(?:w1|w2|...)] under the [i] flag, and without it. *)
Definition words (l : list string) : regex := alt (map liti l).
Definition wordsCS (l : list string) : regex := alt (map lit l).

(** A class listing its characters, [[...]], with and without the [i] flag. *)
Definition oneOf (s : string) : regex :=
  Chr (fun x => existsb (N.eqb x) (js s)).
Definition oneOfi (s : string) : regex :=
  Chr (fun x => existsb (fun c => (canonicalize x =? canonicalize c)%N) (js s)).

Definition space : regex := Chr isWhiteSpace.                          (* \s *)
Definition nonSpace : regex := Chr (fun c => negb (isWhiteSpace c)).   (* \S *)
Definition digit : regex := Chr isDigit.                               (* \d *)
Definition anyChar : regex := Chr (fun _ => true).                     (* [\s\S] *)

End JS.

Import JS.

(** [ModelCandidate], declared with the same shape by [smart-routing.ts]
    and [token-budget.ts]. *)
Record ModelCandidate := {
  provider : jsstring;
  model : jsstring
}.

(* ================================================================== *)
(** * Part II.  smart-routing.ts                                       *)
(* ================================================================== *)

Module SmartRouting.

Inductive TaskType := code | reasoning | creative | translation | general.

Definition TaskType_eqb (a b : TaskType) : bool :=
  match a, b with
  | code, code | reasoning, reasoning | creative, creative
  | translation, translation | general, general => true
  | _, _ => false
  end.

(** [SmartRoutingConfig]: both fields may be absent, and [rules] may have
    an entry for some task types only. *)
Record SmartRoutingConfig := {
  enabled : option bool;
  rules : option (TaskType -> option (list jsstring))
}.

Definition DEFAULT_ROUTING_RULES (t : TaskType) : list jsstring :=
  match t with
  | code => map js ["codex"; "deepseek"; "qwen"; "coder"]
  | reasoning => map js ["deepseek"; "codex"; "claude"; "r1"]
  | creative => map js ["claude"; "gemini"; "llama"; "opus"]
  | translation => map js ["gemini"; "qwen"; "deepseek"; "glm"]
  | general => []
  end%string.

(** ** Task classifier *)

Local Open Scope string_scope.

Definition CODE_PATTERNS : list regex := [
  cat [WordB; words ["function"; "class"; "const"; "let"; "var"; "import";
                     "export"; "return"; "async"; "await"]; WordB];
  cat [WordB; words ["implement"; "refactor"; "debug"; "bugfix"; "compile";
                     "build"; "deploy"; "lint"]; WordB];
  cat [WordB; words ["api"; "endpoint"; "database"; "schema"; "migration";
                     "query"; "sql"]; WordB];
  cat [WordB; words ["component"; "hook"; "state"; "props"; "render"; "dom";
                     "css"; "html"]; WordB];
  cat [WordB; words ["test"; "spec"; "assert"; "mock"; "stub"; "fixture"]; WordB];
  cat [WordB; alt [liti "git"; liti "commit"; liti "merge"; liti "branch";
                   cat [liti "pull"; Star space; liti "request"]; liti "pr"];
       WordB];
  cat [WordB; words ["npm"; "pnpm"; "yarn"; "pip"; "cargo"; "docker";
                     "kubernetes"]; WordB];
  (* File extensions *)
  cat [lit "."; WordB;
       wordsCS ["ts"; "tsx"; "js"; "jsx"; "py"; "rs"; "go"; "java"; "cpp"; "c";
                "rb"; "swift"; "kt"]; WordB];
  (* Code blocks *)
  cat [lit "```"; Star anyChar; lit "```"];
  (* Stack traces / errors *)
  cat [alt [liti "error"; liti "exception"; liti "traceback";
            cat [liti "stack"; Star space; liti "trace"]];
       Star space; liti ":"];
  cat [WordB; lit "at"; plus space; plus nonSpace; Star space; lit "(";
       plus nonSpace; lit ":"; plus digit; lit ":"; plus digit; lit ")"]
].

Definition REASONING_PATTERNS : list regex := [
  cat [WordB; liti "explain"; plus space; words ["why"; "how"; "what"]; WordB];
  cat [WordB; words ["analyze"; "analyse"; "evaluate"; "compare"; "contrast";
                     "assess"]; WordB];
  cat [WordB; alt [cat [liti "think"; plus space; liti "through"];
                   cat [liti "step"; plus space; liti "by"; plus space; liti "step"];
                   liti "reasoning"; liti "logic"]; WordB];
  cat [WordB;
       alt [cat [liti "pro"; opt (liti "s"); plus space; words ["and"; "&"];
                 plus space; liti "con"; opt (liti "s")];
            cat [liti "trade"; opt (liti "-"); liti "off"; opt (liti "s")];
            cat [liti "advantage"; opt (liti "s"); plus space; words ["and"; "&"];
                 plus space; liti "disadvantage"; opt (liti "s")]];
       WordB];
  cat [WordB; words ["calculate"; "equation"; "formula"; "theorem"; "proof";
                     "derive"]; WordB];
  cat [WordB; words ["cause"; "effect"; "consequence"; "implication";
                     "hypothesis"]; WordB];
  (* Math symbols *)
  oneOf "∑∏∫√∂∇≈≠≤≥±×÷";
  cat [WordB; words ["sigma"; "integral"; "derivative"; "matrix"; "vector"]; WordB]
].

Definition CREATIVE_PATTERNS : list regex := [
  cat [WordB; liti "write"; plus space; opt (cat [liti "a"; plus space]);
       words ["story"; "poem"; "haiku"; "song"; "lyrics"; "script"; "essay";
              "letter"; "blog"]; WordB];
  cat [WordB; words ["creative"; "brainstorm"; "imagine"; "fiction"; "narrative";
                     "character"]; WordB];
  cat [WordB; words ["tone"; "voice"; "style"; "mood"; "metaphor"; "analogy"];
       WordB];
  cat [WordB; words ["rewrite"; "paraphrase"; "rephrase"]; plus space;
       words ["this"; "the"; "in"]; WordB];
  cat [WordB; words ["copywriting"; "tagline"; "slogan"; "headline"; "pitch"];
       WordB]
].

Definition TRANSLATION_PATTERNS : list regex := [
  cat [WordB; words ["translate"; "translation"; "translator"]; WordB];
  cat [WordB; words ["in"; "to"; "into"]; plus space;
       words ["polish"; "french"; "german"; "spanish"; "italian"; "portuguese";
              "chinese"; "japanese"; "korean"; "arabic"; "russian"; "hindi";
              "turkish"; "dutch"; "swedish"; "czech"; "slovak"; "hungarian";
              "romanian"; "greek"; "thai"; "vietnamese"; "indonesian"; "malay";
              "filipino"; "hebrew"; "farsi"; "persian"; "ukrainian"; "bengali";
              "tamil"; "telugu"; "marathi"; "gujarati"; "kannada"; "malayalam";
              "urdu"; "swahili"]; WordB];
  cat [WordB;
       alt [cat [liti "po"; plus space; liti "polsku"];
            cat [liti "na"; plus space; liti "polski"];
            cat [liti "en"; plus space; liti "fran"; oneOfi "cç"; liti "ais"];
            cat [liti "auf"; plus space; liti "deutsch"];
            cat [liti "en"; plus space; liti "espa"; oneOfi "nñ"; liti "ol"]];
       WordB];
  cat [WordB; words ["localize"; "localization"; "i18n"; "l10n"]; WordB]
].

Local Close Scope string_scope.

(** One [for (const pattern of PATTERNS) if (pattern.test(prompt)) score += 1]. *)
Definition countMatches (patterns : list regex) (prompt : jsstring) : nat :=
  fold_left (fun score pattern => if test pattern prompt then score + 1 else score)
            patterns 0.

(** The [scores] object after the four loops; [Object.entries] lists its
    keys in the order of the object literal. *)
Definition scoreEntries (prompt : jsstring) : list (TaskType * nat) :=
  [ (code, countMatches CODE_PATTERNS prompt);
    (reasoning, countMatches REASONING_PATTERNS prompt);
    (creative, countMatches CREATIVE_PATTERNS prompt);
    (translation, countMatches TRANSLATION_PATTERNS prompt);
    (general, 0) ].

(** The loop over the entries, with state [(best, bestScore)]. *)
Definition pickBest (entries : list (TaskType * nat)) : TaskType :=
  fst (fold_left
         (fun (acc : TaskType * nat) (entry : TaskType * nat) =>
            let (best, bestScore) := acc in
            let (type, score) := entry in
            if TaskType_eqb type general then acc
            else if bestScore <? score then (type, score)
            else acc)
         entries (general, 0)).

(** [prompt] is [None] when the argument is absent ([undefined] or [null]). *)
Definition classifyTaskType (prompt : option jsstring) : TaskType :=
  match prompt with
  | None => general
  | Some [] => general
  | Some p => pickBest (scoreEntries p)
  end.

(** ** Candidate reordering *)

Section Routing.
Context {SC : StringCase}.

Definition candidateKey (c : ModelCandidate) : jsstring :=
  toLowerCase (provider c ++ js "/" ++ model c).

(** The loop of [matchAffinity] from index [i] on. *)
Fixpoint matchAffinityFrom (key : jsstring) (fragments : list jsstring) (i : Z) : Z :=
  match fragments with
  | [] => (-1)%Z
  | f :: rest =>
    if includes key (toLowerCase f) then i
    else matchAffinityFrom key rest (i + 1)%Z
  end.

Definition matchAffinity (candidate : ModelCandidate) (fragments : list jsstring) : Z :=
  matchAffinityFrom (candidateKey candidate) fragments 0%Z.

(** [raw] is the [smartRouting] entry of the agent defaults, [None] when the
    configuration or any object on the path to it is absent. *)
Definition resolveSmartRoutingConfig (raw : option SmartRoutingConfig)
  : SmartRoutingConfig :=
  match raw with
  | None => {| enabled := Some true; rules := None |}
  | Some r => r
  end.

Record Scored := {
  candidate : ModelCandidate;
  affinityIndex : number;
  originalIndex : nat
}.

Definition score (fragments : list jsstring) (c : ModelCandidate) (i : nat) : Scored :=
  let a := matchAffinity c fragments in
  {| candidate := c;
     affinityIndex := if (0 <=? a)%Z then Fin a else PosInfinity;
     originalIndex := i |}.

Definition compareScored (a b : Scored) : number :=
  if negb (number_eqb (affinityIndex a) (affinityIndex b))
  then sub (affinityIndex a) (affinityIndex b)
  else Fin (Z.of_nat (originalIndex a) - Z.of_nat (originalIndex b)).

(** [rules[taskType] ?? DEFAULT_ROUTING_RULES[taskType] ?? []] with
    [rules = routingCfg.rules ?? DEFAULT_ROUTING_RULES]. *)
Definition resolveFragments (routingCfg : SmartRoutingConfig) (taskType : TaskType)
  : list jsstring :=
  match rules routingCfg with
  | None => DEFAULT_ROUTING_RULES taskType
  | Some r =>
    match r taskType with
    | Some fragments => fragments
    | None => DEFAULT_ROUTING_RULES taskType
    end
  end.

Definition isEmptyPrompt (prompt : option jsstring) : bool :=
  match prompt with
  | None | Some [] => true
  | Some _ => false
  end.

Definition applySmartRouting (candidates : list ModelCandidate)
           (prompt : option jsstring) (cfg : option SmartRoutingConfig)
  : list ModelCandidate :=
  if isEmptyPrompt prompt || (length candidates <=? 1) then candidates
  else
    let routingCfg := resolveSmartRoutingConfig cfg in
    match enabled routingCfg with
    | Some false => candidates
    | _ =>
      let taskType := classifyTaskType prompt in
      if TaskType_eqb taskType general then candidates
      else
        let fragments := resolveFragments routingCfg taskType in
        if (length fragments =? 0) then candidates
        else
          let scored := mapi (score fragments) candidates in
          map candidate (sort compareScored scored)
    end.

End Routing.

End SmartRouting.

(* ================================================================== *)
(** * Part III.  token-budget.ts                                       *)
(* ================================================================== *)

Module TokenBudget.

(** [UsageProviderId] is a union of string literals; at run time an id is a
    string and ids are compared with [===]. *)
Definition UsageProviderId := jsstring.

(** A usage window; its [label] is not read by this module. *)
Module UsageWindow.
Record t := {
  usedPercent : Q;
  resetAt : option Z
}.
End UsageWindow.

(** A provider entry of the summary; its [displayName] is not read. *)
Module ProviderUsage.
Record t := {
  provider : UsageProviderId;
  windows : list UsageWindow.t
}.
End ProviderUsage.

(** [UsageSummary]; its [updatedAt] is not read. *)
Record UsageSummary := {
  providers : list ProviderUsage.t
}.

Module BudgetStatus.
Record t := {
  provider : jsstring;
  usedPercent : Q;
  isExhausted : bool;
  resetAt : option Z
}.
End BudgetStatus.

(** Threshold at which a provider is considered "nearly exhausted" (90%). *)
Definition EXHAUSTION_THRESHOLD : Q := 90.

(** Threshold at which a provider is deprioritized but not removed (75%). *)
Definition DEPRIORITIZE_THRESHOLD : Q := 75.

Local Open Scope string_scope.

Definition mapping : list (jsstring * UsageProviderId) := [
  (js "anthropic", js "anthropic");
  (js "openai-codex", js "openai-codex");
  (js "openai", js "openai-codex");
  (js "google-antigravity", js "google-antigravity");
  (js "google-gemini-cli", js "google-gemini-cli");
  (js "google", js "google-antigravity");
  (js "github-copilot", js "github-copilot");
  (js "minimax", js "minimax");
  (js "xiaomi", js "xiaomi");
  (js "zai", js "zai")
].

Local Close Scope string_scope.

Fixpoint lookup (key : jsstring) (m : list (jsstring * UsageProviderId))
  : option UsageProviderId :=
  match m with
  | [] => None
  | (k, v) :: m' => if eqb k key then Some v else lookup key m'
  end.

Section Budget.
Context {SC : StringCase}.

(** [mapping[normalized] ?? null].  For a key that [mapping] inherits from
    [Object.prototype] the source obtains a non-string value, which equals
    no provider id of a summary; [getProviderBudget] then returns the
    default status, as it does here for [None]. *)
Definition mapToUsageProviderId (provider : jsstring) : option UsageProviderId :=
  let normalized := trim (toLowerCase provider) in
  lookup normalized mapping.

(** One round of the loop over the windows, on [(maxUsed, nearestReset)]. *)
Definition worstWindow (acc : Q * option Z) (window : UsageWindow.t)
  : Q * option Z :=
  let (maxUsed, nearestReset) := acc in
  if gtb (UsageWindow.usedPercent window) maxUsed
  then (UsageWindow.usedPercent window, UsageWindow.resetAt window)
  else (maxUsed, nearestReset).

Definition getProviderBudget (provider : jsstring)
           (usageSummary : option UsageSummary) : BudgetStatus.t :=
  let defaultStatus :=
    {| BudgetStatus.provider := provider;
       BudgetStatus.usedPercent := 0;
       BudgetStatus.isExhausted := false;
       BudgetStatus.resetAt := None |} in
  match usageSummary with
  | None => defaultStatus
  | Some summary =>
    match mapToUsageProviderId provider with
    | None => defaultStatus
    | Some usageId =>
      match find (fun p => eqb (ProviderUsage.provider p) usageId)
                 (providers summary) with
      | None => defaultStatus
      | Some snapshot =>
        if (length (ProviderUsage.windows snapshot) =? 0)%nat then defaultStatus
        else
          let (maxUsed, nearestReset) :=
            fold_left worstWindow (ProviderUsage.windows snapshot) (0%Q, None) in
          {| BudgetStatus.provider := provider;
             BudgetStatus.usedPercent := maxUsed;
             BudgetStatus.isExhausted := geb maxUsed EXHAUSTION_THRESHOLD;
             BudgetStatus.resetAt := nearestReset |}
      end
    end
  end.

(** The three arrays [fresh], [highUsage], [exhausted]. *)
Record Buckets := {
  fresh : list ModelCandidate;
  highUsage : list ModelCandidate;
  exhausted : list ModelCandidate
}.

(** One round of the loop over the candidates. *)
Definition place (usageSummary : option UsageSummary) (b : Buckets)
           (candidate : ModelCandidate) : Buckets :=
  let budget := getProviderBudget (provider candidate) usageSummary in
  if BudgetStatus.isExhausted budget then
    {| fresh := fresh b; highUsage := highUsage b;
       exhausted := exhausted b ++ [candidate] |}
  else if geb (BudgetStatus.usedPercent budget) DEPRIORITIZE_THRESHOLD then
    {| fresh := fresh b; highUsage := highUsage b ++ [candidate];
       exhausted := exhausted b |}
  else
    {| fresh := fresh b ++ [candidate]; highUsage := highUsage b;
       exhausted := exhausted b |}.

Definition filterByBudget (candidates : list ModelCandidate)
           (usageSummary : option UsageSummary) : list ModelCandidate :=
  match usageSummary with
  | None => candidates
  | Some _ =>
    if (length candidates <=? 1)%nat then candidates
    else
      let b := fold_left (place usageSummary) candidates
                         {| fresh := []; highUsage := []; exhausted := [] |} in
      fresh b ++ highUsage b ++ exhausted b
  end.

End Budget.

(** What awaiting [loadProviderUsageSummary()] settles to: a summary (or
    none), or a rejection. *)
Inductive Loaded :=
| Resolved (usageSummary : option UsageSummary)
| Rejected.

Section Steering.
Context {SC : StringCase}.

(** The [try] block returns the filtered candidates; the [catch] block
    returns the candidates given. *)
Definition applyBudgetSteering (candidates : list ModelCandidate) (loaded : Loaded)
  : list ModelCandidate :=
  match loaded with
  | Resolved usageSummary => filterByBudget candidates usageSummary
  | Rejected => candidates
  end.

End Steering.

End TokenBudget.

(* ================================================================== *)
(** * Part IV.  quality-guard.ts                                       *)
(* ================================================================== *)

(** Modelled from the spec: [failover-error.js] is not among the sources.
    A failover signal carries a reason code, one of [timeout],
    [context_overflow], [rate_limit], [auth], [unknown], and an optional
    provider and model.  Its message text is left out. *)
Module FailoverError.

Inductive FailoverReason := timeout | context_overflow | rate_limit | auth | unknown.

Record t := {
  reason : FailoverReason;
  provider : option jsstring;
  model : option jsstring
}.

End FailoverError.

Module QualityGuard.

(** [QualityGuardConfig]: a field is [None] when the property is absent. *)
Record QualityGuardConfig := {
  enabled : option bool;
  minResponseChars : option Z;
  stallTimeoutSeconds : option Q;
  loopThreshold : option Z;
  loopMinChunkLength : option Z
}.

(** [Required<QualityGuardConfig>] *)
Module Cfg.
Record t := {
  enabled : bool;
  minResponseChars : Z;
  stallTimeoutSeconds : Q;
  loopThreshold : Z;
  loopMinChunkLength : Z
}.
End Cfg.

Record QualityGuardState := {
  chunks : list jsstring;
  totalChars : Z;
  firstChunkAt : option Z;
  startedAt : Z
}.

(** The optional [context] argument. *)
Module Context.
Record t := {
  provider : option jsstring;
  model : option jsstring
}.
End Context.

(** How a call ends: it returns, or it throws a [FailoverError]. *)
Inductive outcome :=
| Returned
| Thrown (e : FailoverError.t).

Definition DEFAULT_CONFIG : Cfg.t :=
  {| Cfg.enabled := true;
     Cfg.minResponseChars := 10;
     Cfg.stallTimeoutSeconds := 30;
     Cfg.loopThreshold := 3;
     Cfg.loopMinChunkLength := 20 |}.

Definition orDefault {A} (o : option A) (d : A) : A :=
  match o with
  | Some v => v
  | None => d
  end.

(** [{ ...DEFAULT_CONFIG, ...config }] *)
Definition mergeConfig (config : option QualityGuardConfig) : Cfg.t :=
  match config with
  | None => DEFAULT_CONFIG
  | Some c =>
    {| Cfg.enabled := orDefault (enabled c) (Cfg.enabled DEFAULT_CONFIG);
       Cfg.minResponseChars :=
         orDefault (minResponseChars c) (Cfg.minResponseChars DEFAULT_CONFIG);
       Cfg.stallTimeoutSeconds :=
         orDefault (stallTimeoutSeconds c) (Cfg.stallTimeoutSeconds DEFAULT_CONFIG);
       Cfg.loopThreshold :=
         orDefault (loopThreshold c) (Cfg.loopThreshold DEFAULT_CONFIG);
       Cfg.loopMinChunkLength :=
         orDefault (loopMinChunkLength c) (Cfg.loopMinChunkLength DEFAULT_CONFIG) |}
  end.

(** [new FailoverError(message, { reason, provider: context?.provider,
    model: context?.model })] *)
Definition failover (reason : FailoverError.FailoverReason)
           (context : option Context.t) : FailoverError.t :=
  {| FailoverError.reason := reason;
     FailoverError.provider :=
       match context with Some c => Context.provider c | None => None end;
     FailoverError.model :=
       match context with Some c => Context.model c | None => None end |}.

Definition createQualityGuardState (now : Z) : QualityGuardState :=
  {| chunks := [];
     totalChars := 0;
     firstChunkAt := None;
     startedAt := now |}.

(** [!state.firstChunkAt]: [null] and [0] are falsy. *)
Definition noFirstChunk (firstChunkAt : option Z) : bool :=
  match firstChunkAt with
  | None => true
  | Some t => (t =? 0)%Z
  end.

(** [state.firstChunkAt === null] *)
Definition isNull (firstChunkAt : option Z) : bool :=
  match firstChunkAt with
  | None => true
  | Some _ => false
  end.

(** The [while] loop of [detectRepetitionRatio]; [None] when the rounds
    allowed by [fuel] do not reach its exit. *)
Fixpoint occurrencesLoop (fuel : nat) (text segment : jsstring)
         (windowSize pos occurrences : nat) : option nat :=
  match fuel with
  | O => None
  | S fuel' =>
    match indexOf text segment pos with
    | None => Some occurrences
    | Some found =>
      occurrencesLoop fuel' text segment windowSize (found + windowSize)
                      (occurrences + 1)
    end
  end.

(** Every round moves [pos] forward by [windowSize >= 25], so the loop is
    left within [length text + 1] rounds ([occurrencesLoop_total]); the last
    branch below is never taken. *)
Definition detectRepetitionRatio (text : jsstring) : Q :=
  if (length text <? 100)%nat then 0%Q
  else
    let windowSize := Nat.min 100 (length text / 4) in
    let segment := sliceTo text windowSize in
    match occurrencesLoop (S (length text)) text segment windowSize 0 0 with
    | Some occurrences =>
      if (occurrences <=? 1)%nat then 0%Q
      else (inject_Z (Z.of_nat (occurrences * windowSize))
            / inject_Z (Z.of_nat (length text)))%Q
    | None => 0%Q
    end.

Section Guard.
Context {SC : StringCase}.

(** The [for] loop of [checkForLooping], entered with [n = i + 1]. *)
Fixpoint countRepeats (recentChunks : list jsstring) (normalized : jsstring)
         (threshold : Z) (n : nat) (repeatCount : Z) : Z :=
  match n with
  | O => repeatCount
  | S i =>
    if (repeatCount <? threshold)%Z then
      if eqb (toLowerCase (trim (nth i recentChunks []))) normalized
      then countRepeats recentChunks normalized threshold i (repeatCount + 1)%Z
      else repeatCount
    else repeatCount
  end.

Definition checkForLooping (state : QualityGuardState) (currentChunk : jsstring)
           (cfg : Cfg.t) (context : option Context.t) : outcome :=
  let recentChunks := sliceFrom (chunks state) (- Cfg.loopThreshold cfg * 2)%Z in
  if (Z.of_nat (length recentChunks) <? Cfg.loopThreshold cfg)%Z then Returned
  else
    let normalized := toLowerCase (trim currentChunk) in
    let repeatCount :=
      countRepeats recentChunks normalized (Cfg.loopThreshold cfg)
                   (length recentChunks - 1) 0%Z in
    if (Cfg.loopThreshold cfg - 1 <=? repeatCount)%Z then
      Thrown (failover FailoverError.unknown context)
    else if (500 <? totalChars state)%Z then
      let fullText := join (chunks state) in
      let repetitionRatio := detectRepetitionRatio fullText in
      if gtb repetitionRatio (6 # 10)%Q then
        Thrown (failover FailoverError.unknown context)
      else Returned
    else Returned.

Definition checkStreamingChunk (state : QualityGuardState) (chunk : jsstring)
           (config : option QualityGuardConfig) (context : option Context.t)
           (now : Z) : QualityGuardState * outcome :=
  let cfg := mergeConfig config in
  if negb (Cfg.enabled cfg) then (state, Returned)
  else
    let state1 :=
      if noFirstChunk (firstChunkAt state) && (0 <? length chunk)%nat
      then {| chunks := chunks state; totalChars := totalChars state;
              firstChunkAt := Some now; startedAt := startedAt state |}
      else state in
    let state2 :=
      {| chunks := chunks state1 ++ [chunk]; totalChars := totalChars state1;
         firstChunkAt := firstChunkAt state1; startedAt := startedAt state1 |} in
    let state3 :=
      {| chunks := chunks state2;
         totalChars := (totalChars state2 + Z.of_nat (length chunk))%Z;
         firstChunkAt := firstChunkAt state2; startedAt := startedAt state2 |} in
    if (Cfg.loopMinChunkLength cfg <=? Z.of_nat (length chunk))%Z
    then (state3, checkForLooping state3 chunk cfg context)
    else (state3, Returned).

Definition checkForStall (state : QualityGuardState)
           (config : option QualityGuardConfig) (context : option Context.t)
           (now : Z) : QualityGuardState * outcome :=
  let cfg := mergeConfig config in
  if negb (Cfg.enabled cfg) then (state, Returned)
  else
    let elapsed := (inject_Z (now - startedAt state) / 1000)%Q in
    if gtb elapsed (Cfg.stallTimeoutSeconds cfg)
       && isNull (firstChunkAt state)
    then (state, Thrown (failover FailoverError.timeout context))
    else (state, Returned).

Definition checkFinalResponse (state : QualityGuardState)
           (config : option QualityGuardConfig) (context : option Context.t)
  : QualityGuardState * outcome :=
  let cfg := mergeConfig config in
  if negb (Cfg.enabled cfg) then (state, Returned)
  else if (totalChars state <? Cfg.minResponseChars cfg)%Z
  then (state, Thrown (failover FailoverError.unknown context))
  else (state, Returned).

End Guard.

End QualityGuard.

(* ================================================================== *)
(** * Part V.  model-discovery.ts and the discovery cron               *)
(* ================================================================== *)

(** The module reads and writes one file, scans the OpenRouter catalogue and
    talks to a local Ollama server.  In the embedding the file is an explicit
    value, what the awaited calls settle to is given with the call, and the
    readings of [Date.now()] are arguments.  The callbacks of the caller are
    recorded as the list of calls made to them, in order; they are taken to
    return normally. *)
Module ModelDiscovery.

Inductive Provider := openrouter | ollama.

Module DiscoveredModel.
Record t := {
  id : jsstring;
  name : jsstring;
  provider : Provider;
  modelRef : jsstring;
  contextLength : option Z;
  maxCompletionTokens : option Z;
  isFree : bool;
  supportsTools : bool;
  discoveredAt : Z;
  paramB : option Q
}.
End DiscoveredModel.

Module DiscoveryState.
Record t := {
  lastScanAt : Z;
  models : list DiscoveredModel.t
}.
End DiscoveryState.

(** The fields of a result of [scanOpenRouterModels] that are read here;
    [model-scan.js] is not among the sources. *)
Module ScanResult.
Record t := {
  id : jsstring;
  name : jsstring;
  contextLength : option Z;
  maxCompletionTokens : option Z;
  isFree : bool;
  supportsToolsMeta : bool;
  inferredParamB : option Q
}.
End ScanResult.

(** The argument of [scanOpenRouterModels]. *)
Module ScanRequest.
Record t := {
  probe : bool;
  minParamB : Q;
  maxAgeDays : Q
}.
End ScanRequest.

(** What an awaited promise settles to. *)
Inductive Settled (A : Type) :=
| Fulfilled (value : A)
| Rejected.
Arguments Fulfilled {A} value.
Arguments Rejected {A}.

(** The parts of [OpenClawConfig] that are read: [cfg.models.providers], an
    object whose values may hold a [models] array of entries with an optional
    [id].  A value that is no object, has no [models] or one that is no
    array has [models = None]. *)
Module ModelEntry.
Record t := { id : option jsstring }.
End ModelEntry.

Module ProviderConfig.
Record t := { models : option (list ModelEntry.t) }.
End ProviderConfig.

Module ModelsConfig.
Record t := { providers : option (list ProviderConfig.t) }.
End ModelsConfig.

Module OpenClawConfig.
Record t := { models : option ModelsConfig.t }.
End OpenClawConfig.

(** [DISCOVERY_FILE]: missing, or unreadable (reading or parsing it throws),
    or holding the JSON text of a discovery state.  A file whose JSON is no
    discovery state is outside the model. *)
Inductive File :=
| Missing
| Unreadable
| Stored (state : DiscoveryState.t).

Module Recommended.
Record t := {
  id : jsstring;
  category : jsstring;
  sizeGb : Q
}.
End Recommended.

Local Open Scope string_scope.

Definition RECOMMENDED_OLLAMA_MODELS : list Recommended.t := [
  {| Recommended.id := js "qwen2.5-coder:7b"; Recommended.category := js "code";
     Recommended.sizeGb := (47 # 10)%Q |};
  {| Recommended.id := js "qwen2.5-coder:14b"; Recommended.category := js "code";
     Recommended.sizeGb := (90 # 10)%Q |};
  {| Recommended.id := js "deepseek-r1:8b"; Recommended.category := js "reasoning";
     Recommended.sizeGb := (49 # 10)%Q |};
  {| Recommended.id := js "deepseek-r1:14b"; Recommended.category := js "reasoning";
     Recommended.sizeGb := (90 # 10)%Q |};
  {| Recommended.id := js "llama3.3:8b"; Recommended.category := js "general";
     Recommended.sizeGb := (47 # 10)%Q |};
  {| Recommended.id := js "gemma3:12b"; Recommended.category := js "general";
     Recommended.sizeGb := (81 # 10)%Q |};
  {| Recommended.id := js "mistral:7b"; Recommended.category := js "creative";
     Recommended.sizeGb := (41 # 10)%Q |}
].

Local Close Scope string_scope.

(** [a ?? d] *)
Definition orDefault {A} (o : option A) (d : A) : A :=
  match o with
  | Some v => v
  | None => d
  end.

(** [set.has(x)] and [array.includes(x)] for strings. *)
Definition has (s : list jsstring) (x : jsstring) : bool := existsb (eqb x) s.

Definition freshState : DiscoveryState.t :=
  {| DiscoveryState.lastScanAt := 0; DiscoveryState.models := [] |}.

Definition loadDiscoveryState (file : File) : DiscoveryState.t :=
  match file with
  | Stored state => state
  | Missing | Unreadable => freshState
  end.

(** Creating the directory and writing the file are taken to succeed. *)
Definition saveDiscoveryState (state : DiscoveryState.t) : File := Stored state.

(** The ids collected from the configured providers; [if (m.id)] passes a
    string that is not empty. *)
Definition addEntry (ids : list jsstring) (m : ModelEntry.t) : list jsstring :=
  match ModelEntry.id m with
  | Some i => if (0 <? length i)%nat then ids ++ [i] else ids
  | None => ids
  end.

Definition addProvider (ids : list jsstring) (providerConfig : ProviderConfig.t)
  : list jsstring :=
  match ProviderConfig.models providerConfig with
  | Some ms => fold_left addEntry ms ids
  | None => ids
  end.

Definition collectConfigIds (cfg : option OpenClawConfig.t) : list jsstring :=
  match cfg with
  | Some c =>
    match OpenClawConfig.models c with
    | Some m =>
      match ModelsConfig.providers m with
      | Some providers => fold_left addProvider providers []
      | None => []
      end
    | None => []
    end
  | None => []
  end.

Definition scanRequest (minParamB maxAgeDays : option Q) : ScanRequest.t :=
  {| ScanRequest.probe := false;
     ScanRequest.minParamB := orDefault minParamB 7%Q;
     ScanRequest.maxAgeDays := orDefault maxAgeDays 90%Q |}.

Definition discovered (now : Z) (result : ScanResult.t) : DiscoveredModel.t :=
  {| DiscoveredModel.id := ScanResult.id result;
     DiscoveredModel.name := ScanResult.name result;
     DiscoveredModel.provider := openrouter;
     DiscoveredModel.modelRef := js "openrouter/"%string ++ ScanResult.id result;
     DiscoveredModel.contextLength := ScanResult.contextLength result;
     DiscoveredModel.maxCompletionTokens := ScanResult.maxCompletionTokens result;
     DiscoveredModel.isFree := ScanResult.isFree result;
     DiscoveredModel.supportsTools := ScanResult.supportsToolsMeta result;
     DiscoveredModel.discoveredAt := now;
     DiscoveredModel.paramB := ScanResult.inferredParamB result |}.

(** One round of the loop over the scan results. *)
Definition keepNew (existingIds configIds : list jsstring) (now : Z)
           (newModels : list DiscoveredModel.t) (result : ScanResult.t)
  : list DiscoveredModel.t :=
  if has existingIds (ScanResult.id result) then newModels
  else if has configIds (ScanResult.id result) then newModels
  else if negb (ScanResult.supportsToolsMeta result) then newModels
  else newModels ++ [discovered now result].

Definition discoverFreeOpenRouterModels
           (file : File) (cfg : option OpenClawConfig.t)
           (minParamB maxAgeDays : option Q)
           (scanOpenRouterModels : ScanRequest.t -> Settled (list ScanResult.t))
           (now : Z)
  : Settled (list DiscoveredModel.t) :=
  let existingState := loadDiscoveryState file in
  let existingIds := map DiscoveredModel.id (DiscoveryState.models existingState) in
  let configIds := collectConfigIds cfg in
  match scanOpenRouterModels (scanRequest minParamB maxAgeDays) with
  | Rejected => Rejected
  | Fulfilled scanResults =>
    Fulfilled (fold_left (keepNew existingIds configIds now) scanResults [])
  end.

(** What [fetch] of [/api/tags] and reading its JSON come to: a failure, a
    response that is not [ok], or the names of [data.models] if present. *)
Inductive TagsResponse :=
| TagsFailed
| TagsNotOk
| TagsOk (models : option (list jsstring)).

Definition listOllamaModels (response : TagsResponse) : list jsstring :=
  match response with
  | TagsOk models => orDefault models []
  | TagsNotOk | TagsFailed => []
  end.

(** [buffer.split("\n")]: the pieces between the line feeds, at least one. *)
Fixpoint splitLines (s : jsstring) : list jsstring :=
  match s with
  | [] => [[]]
  | c :: s' =>
    if (c =? 0x0A)%N then [] :: splitLines s'
    else match splitLines s' with
         | line :: lines => (c :: line) :: lines
         | [] => [[c]]
         end
  end.

(** What a pull comes to: [fetch] fails, the response is not [ok], it has
    no body, or its body is read chunk by chunk, as text, until the stream
    is done or a read fails. *)
Inductive PullResponse :=
| PullFailed
| PullNotOk
| PullNoBody
| PullStream (chunks : list jsstring) (readFails : bool).

(** One round of the loop that reads the stream, on [buffer] and the lines
    handed to [JSON.parse] so far; a line that parses is passed on to
    [onProgress], one that does not is skipped. *)
Definition readChunk (acc : jsstring * list jsstring) (value : jsstring)
  : jsstring * list jsstring :=
  let (buffer, parsed) := acc in
  let lines := splitLines (buffer ++ value) in
  (last lines [],
   parsed ++ filter (fun line => negb (match trim line with
                                       | [] => true
                                       | _ :: _ => false
                                       end))
                    (removelast lines)).

(** Whether the model was pulled, and the lines handed to [JSON.parse]. *)
Definition pullOllamaModel (response : PullResponse) : bool * list jsstring :=
  match response with
  | PullFailed | PullNotOk | PullNoBody => (false, [])
  | PullStream chunks readFails =>
    (negb readFails, snd (fold_left readChunk chunks ([], [])))
  end.

(** A call of a caller's callback. *)
Inductive Call :=
| OnProgress (phase detail : jsstring)
| OnInstalled (model : jsstring).

Section Install.
Context {SC : StringCase}.

(** Here [pullOllamaModel] is represented by its result, [pulls id]: it
    catches what it throws, and every recommended model is pulled at most
    once in a call.  The calls of [onProgress] made while a model is pulled
    follow the stream of its download and are not recorded. *)
Variable pulls : jsstring -> bool.

(** One round of the loop over the recommended models, on [pulled] and the
    calls made so far. *)
Definition installOne (maxGb : Q) (categories : option (list jsstring))
           (installedSet : list jsstring)
           (acc : list jsstring * list Call) (rec : Recommended.t)
  : list jsstring * list Call :=
  let (pulled, calls) := acc in
  if has installedSet (toLowerCase (Recommended.id rec)) then acc
  else if gtb (Recommended.sizeGb rec) maxGb then acc
  else if match categories with
          | Some cs => negb (has cs (Recommended.category rec))
          | None => false
          end then acc
  else if pulls (Recommended.id rec)
       then (pulled ++ [Recommended.id rec],
             calls ++ [OnInstalled (Recommended.id rec)])
       else acc.

Definition installRecommendedOllamaModels
           (maxSizeGb : option Q) (categories : option (list jsstring))
           (tags : TagsResponse) : list jsstring * list Call :=
  let maxGb := orDefault maxSizeGb 8%Q in
  let installed := listOllamaModels tags in
  let installedSet := map toLowerCase installed in
  fold_left (installOne maxGb categories installedSet)
            RECOMMENDED_OLLAMA_MODELS ([], []).

Record SyncFreeModelsResult := {
  openRouterNew : list DiscoveredModel.t;
  ollamaPulled : list jsstring
}.

Definition installed (now : Z) (id : jsstring) : DiscoveredModel.t :=
  {| DiscoveredModel.id := id;
     DiscoveredModel.name := id;
     DiscoveredModel.provider := ollama;
     DiscoveredModel.modelRef := js "ollama/"%string ++ id;
     DiscoveredModel.contextLength := None;
     DiscoveredModel.maxCompletionTokens := None;
     DiscoveredModel.isFree := true;
     DiscoveredModel.supportsTools := false;
     DiscoveredModel.discoveredAt := now;
     DiscoveredModel.paramB := None |}.

(** The three readings of [Date.now()] during a sync. *)
Record Clock := {
  atDiscovery : Z;
  atInstall : Z;
  atSave : Z
}.

Definition installedCall (c : Call) : Call :=
  match c with
  | OnInstalled model => OnProgress (js "ollama"%string) (js "Installed "%string ++ model)
  | OnProgress _ _ => c
  end.

(** The file left behind, the calls made to [onProgress], and what the
    promise settles to. *)
Definition syncFreeModels
           (file : File) (cfg : option OpenClawConfig.t)
           (autoInstallOllama : option bool) (ollamaMaxSizeGb : option Q)
           (scanOpenRouterModels : ScanRequest.t -> Settled (list ScanResult.t))
           (tags : TagsResponse) (clock : Clock)
  : File * list Call * Settled SyncFreeModelsResult :=
  let state := loadDiscoveryState file in
  let calls1 := [OnProgress (js "openrouter"%string) (js "Scanning for free models..."%string)] in
  match discoverFreeOpenRouterModels file cfg None None scanOpenRouterModels
                                     (atDiscovery clock) with
  | Rejected => (file, calls1, Rejected)
  | Fulfilled openRouterNew =>
    let models1 := DiscoveryState.models state ++ openRouterNew in
    let '(ollamaPulled, calls2, models2) :=
      match autoInstallOllama with
      | Some false => ([], calls1, models1)
      | _ =>
        let (pulled, calls) :=
          installRecommendedOllamaModels (Some (orDefault ollamaMaxSizeGb 8%Q))
                                         None tags in
        (pulled,
         calls1 ++ [OnProgress (js "ollama"%string) (js "Checking recommended models..."%string)]
                ++ map installedCall calls,
         models1 ++ map (installed (atInstall clock)) pulled)
      end in
    let state' :=
      {| DiscoveryState.lastScanAt := atSave clock;
         DiscoveryState.models := models2 |} in
    (saveDiscoveryState state', calls2,
     Fulfilled {| openRouterNew := openRouterNew; ollamaPulled := ollamaPulled |})
  end.

End Install.

End ModelDiscovery.

(** Numbers of the platform as IEEE 754 binary64, by the specification of
    floating-point arithmetic of the Standard Library: every product is
    rounded to the nearest number, ties to even.  Used where the source
    multiplies numbers that may carry a fraction. *)
Module Binary64.

Definition t := SpecFloat.spec_float.

Definition prec : Z := 53.
Definition emax : Z := 1024.

(** The number of a whole number, itself when it is below 2^53 in
    magnitude, else the nearest number. *)
Definition ofZ (z : Z) : t := SpecFloat.binary_normalize prec emax z 0 false.

Definition mul (x y : t) : t := SpecFloat.SFmul prec emax x y.
Definition div (x y : t) : t := SpecFloat.SFdiv prec emax x y.

(** [x >= y]: false when either is [NaN]. *)
Definition geb (x y : t) : bool := SpecFloat.SFleb y x.

End Binary64.

Module DiscoveryCron.

Import ModelDiscovery.

(** The fields of [DiscoveryCronOptions] other than the callbacks. *)
Record DiscoveryCronOptions := {
  cfg : option OpenClawConfig.t;
  intervalHours : option Binary64.t;
  autoInstallOllama : option bool;
  ollamaMaxSizeGb : option Q
}.

(** What a cycle reports: the calls it passes on to [onProgress], the call
    of [onProgress("error", ...)] for a failed scan, whose text depends on
    the error, and the call of [onNewModels]. *)
Inductive Report :=
| Progress (call : Call)
| ScanFailed
| NewModels (openRouterCount ollamaCount : nat).

(** [intervalHours * 60 * 60 * 1000], three products of binary64. *)
Definition intervalMs (intervalHours : Binary64.t) : Binary64.t :=
  Binary64.mul
    (Binary64.mul (Binary64.mul intervalHours (Binary64.ofZ 60))
                  (Binary64.ofZ 60))
    (Binary64.ofZ 1000).

(** The two times are whole numbers of milliseconds; [elapsed] is their
    difference as the subtraction of the source rounds it. *)
Definition isDiscoveryScanDue (file : File) (intervalHours : Binary64.t)
           (now : Z) : bool :=
  let state := loadDiscoveryState file in
  if (DiscoveryState.lastScanAt state =? 0)%Z then true
  else
    let elapsed := Binary64.ofZ (now - DiscoveryState.lastScanAt state) in
    Binary64.geb elapsed (intervalMs intervalHours).

Section Cycle.
Context {SC : StringCase}.
Variable pulls : jsstring -> bool.

(** A cycle from its call to the settling of its promise, on the flag
    [isRunning] and the file.  [now] is read by the check of the interval. *)
Definition runDiscoveryCycle
           (isRunning : bool) (file : File) (options : DiscoveryCronOptions)
           (scanOpenRouterModels : ScanRequest.t -> Settled (list ScanResult.t))
           (tags : TagsResponse) (now : Z) (clock : Clock)
  : bool * File * list Report :=
  if isRunning then (isRunning, file, [])
  else
    let interval := orDefault (intervalHours options) (Binary64.ofZ 24) in
    if negb (isDiscoveryScanDue file interval now) then (isRunning, file, [])
    else
      match syncFreeModels pulls file (cfg options)
                           (Some (orDefault (autoInstallOllama options) false))
                           (Some (orDefault (ollamaMaxSizeGb options) 8%Q))
                           scanOpenRouterModels tags clock with
      | (file', calls, Fulfilled result) =>
        let orCount := length (openRouterNew result) in
        let olCount := length (ollamaPulled result) in
        (false, file',
         map Progress calls
         ++ (if (0 <? orCount)%nat || (0 <? olCount)%nat
             then [NewModels orCount olCount] else []))
      | (file', calls, Rejected) =>
        (false, file', map Progress calls ++ [ScanFailed])
      end.

End Cycle.

End DiscoveryCron.

(* ================================================================== *)
(** * Part VI.  reply-audit.ts                                         *)
(* ================================================================== *)

Module ReplyAudit.

Inductive ReplyIntent := expects_reply | informational | ambiguous.

(** The Unicode properties named by the fourth informational pattern, as
    sets of code points; they follow the Unicode tables of the platform and
    the development is parametric in them. *)
Class EmojiTables := {
  Emoji_Presentation : N -> bool;
  Extended_Pictographic : N -> bool
}.

(** ** Patterns

    The patterns of this module are anchored.  [^r$] asks for a match of [r]
    at the start of the text that leaves nothing, [^r] for one at the start,
    and the greeting pattern for one followed by a separator or the end. *)

Definition atEnd : cont :=
  fun _ rest => match rest with [] => true | _ :: _ => false end.

Definition anywhere : cont := fun _ _ => true.

Definition testWhole (r : regex) (s : jsstring) : bool := matchAt r None s atEnd.
Definition testStart (r : regex) (s : jsstring) : bool := matchAt r None s anywhere.

(** Canonicalisation of the [i] flag without the [u] flag, exact for the
    pattern characters of this module: Basic Latin, [U+015B] and [U+0107]
    of the Polish greeting, whose capitals are [U+015A] and [U+0106], and
    the surrogates of the two laughing faces, which have no other case. *)
Definition canonicalize (c : codeunit) : codeunit :=
  if (c =? 0x15B)%N then 0x15A%N
  else if (c =? 0x107)%N then 0x106%N
  else JS.canonicalize c.

Definition chri (c : codeunit) : regex :=
  Chr (fun x => (canonicalize x =? canonicalize c)%N).

Definition liti (s : string) : regex := cat (map chri (js s)).

(** [(w1|w2|...)] under the [i] flag. *)
Definition words (l : list string) : regex := alt (map liti l).

(** [[\s.!]] and [[\s,.!]] *)
Definition isTail (c : codeunit) : bool :=
  if isWhiteSpace c then true
  else if (c =? 0x2E)%N then true else (c =? 0x21)%N.

Definition isSeparator (c : codeunit) : bool :=
  if isTail c then true else (c =? 0x2C)%N.

Definition tail : regex := Star (Chr isTail).

(** [(?:[\s,.!]|$)] as what may follow a match. *)
Definition separatorOrEnd : cont :=
  fun _ rest => match rest with [] => true | c :: _ => isSeparator c end.

(** The code points of a text as a pattern with the [u] flag reads it: a
    high surrogate followed by a low one is one code point. *)
Definition isHighSurrogate (c : codeunit) : bool :=
  ((0xD800 <=? c) && (c <=? 0xDBFF))%N.
Definition isLowSurrogate (c : codeunit) : bool :=
  ((0xDC00 <=? c) && (c <=? 0xDFFF))%N.

Fixpoint codePoints (s : jsstring) : list N :=
  match s with
  | [] => []
  | hi :: tl =>
    match tl with
    | lo :: rest =>
      if isHighSurrogate hi then
        if isLowSurrogate lo
        then (0x10000 + (hi - 0xD800) * 0x400 + (lo - 0xDC00))%N :: codePoints rest
        else hi :: codePoints tl
      else hi :: codePoints tl
    | [] => [hi]
    end
  end.

(** [^[class]{min,max}$] under the [u] flag: the text is a run of [min] to
    [max] code points of the class. *)
Definition testRun (class : N -> bool) (min max : nat) (s : jsstring) : bool :=
  let points := codePoints s in
  if (min <=? length points)%nat then
    if (length points <=? max)%nat then forallb class points else false
  else false.

(** The code points listed by the fifth informational pattern; the red
    heart contributes [U+2764] and the variation selector [U+FE0F]. *)
Definition REACTIONS : list N :=
  [0x1F44D; 0x1F44E; 0x1F44C; 0x1F64F; 0x2764; 0xFE0F; 0x1F49C; 0x1F525;
   0x2705; 0x1F4AF; 0x1F389; 0x1F91D]%N.

Local Open Scope string_scope.

Definition ACKNOWLEDGEMENTS : regex :=
  alt [liti "ok"; liti "okay"; liti "k"; liti "kk"; liti "sure"; liti "alright";
       cat [liti "got"; Star space; liti "it"]; liti "noted"; liti "roger";
       liti "ack"; liti "bet"; liti "copy"; liti "yep"; liti "yup"; liti "yea";
       liti "yeah"].

Definition THANKS : regex :=
  alt [liti "thanks"; cat [liti "thank"; Star space; liti "you"]; liti "thx";
       liti "ty"; liti "tysm"; cat [liti "appreciate"; Star space; liti "it"];
       liti "cheers"; liti "ta"].

Definition ANSWERS : regex :=
  words ["yes"; "no"; "nah"; "nope"; "maybe"; "correct"; "right"; "exactly";
         "agreed"; "true"; "false"; "indeed"].

(** Without the [u] flag a face is its two surrogates, and [+] repeats the
    second. *)
Definition LAUGHTER : regex :=
  alt [cat [liti "ha"; plus (liti "ha")]; liti "lol"; liti "lmao"; liti "rofl";
       liti "xd";
       cat [chri 0xD83D%N; plus (chri 0xDE02%N)];
       cat [chri 0xD83E%N; plus (chri 0xDD23%N)]].

Section Patterns.
Context {ET : EmojiTables}.

Definition isEmojiOrSpace (p : N) : bool :=
  if Emoji_Presentation p then true
  else if Extended_Pictographic p then true
  else isWhiteSpace p.

Definition INFORMATIONAL_PATTERNS : list (jsstring -> bool) := [
  testWhole (Cat ACKNOWLEDGEMENTS tail);
  testWhole (Cat THANKS tail);
  testWhole (Cat ANSWERS tail);
  testRun isEmojiOrSpace 1 12;
  testRun (fun p => existsb (N.eqb p) REACTIONS) 1 5;
  testWhole (Cat LAUGHTER tail)
].

End Patterns.

Definition QUESTION_START_RE : jsstring -> bool :=
  testStart
    (Cat (alt [liti "what"; liti "who"; liti "where"; liti "when"; liti "why";
               liti "how"; liti "which"; liti "is"; liti "are"; liti "do";
               liti "does"; liti "can"; liti "could"; liti "would"; liti "will";
               liti "should"; liti "shall"; liti "did"; liti "has"; liti "have";
               cat [liti "tell"; plus space; liti "me"]])
         WordB).

Definition COMMAND_START_RE : jsstring -> bool :=
  testStart
    (Cat (words ["do"; "make"; "create"; "build"; "fix"; "write"; "implement";
                 "add"; "remove"; "delete"; "update"; "change"; "edit"; "show";
                 "list"; "find"; "search"; "check"; "test"; "run"; "explain";
                 "describe"; "summarize"; "translate"; "convert"; "help";
                 "generate"; "design"; "refactor"; "debug"; "deploy"])
         WordB).

Definition PLEASE_START_RE : jsstring -> bool :=
  testStart (Cat (words ["please"; "plz"; "pls"]) WordB).

Definition GREETING_RE : jsstring -> bool :=
  fun s =>
    matchAt
      (alt [liti "hi"; liti "hello"; liti "hey"; liti "yo"; liti "sup";
            cat [liti "good"; Star space;
                 words ["morning"; "afternoon"; "evening"; "night"]];
            liti "greetings"; liti "howdy"; liti "hola"; liti "czesc";
            liti "cześć"; liti "siema"; liti "witaj"])
      None s separatorOrEnd.

Definition CODE_HINT_RE : jsstring -> bool :=
  test (Alt (lit "```")
            (cat [WordB;
                  words ["function"; "class"; "const"; "let"; "var"; "import";
                         "export"];
                  WordB])).

(** [/[.!]\s+[A-Z]/] *)
Definition SENTENCE_BREAK_RE : jsstring -> bool :=
  test (cat [oneOf ".!"; plus space;
             Chr (fun c => ((0x41 <=? c) && (c <=? 0x5A))%N)]).

Local Close Scope string_scope.

(** [!text] for a string: it is empty. *)
Definition isEmpty (s : jsstring) : bool :=
  match s with [] => true | _ :: _ => false end.

(** ** The audit handler *)

Record ReplyAuditResult := {
  inboundReceived : bool;
  intent : ReplyIntent;
  replyAttempted : bool;
  replyDelivered : bool;
  skipReason : option jsstring;
  skippedIntentionally : bool;
  elapsedMs : Z
}.

(** The variables that the methods of a handler close over. *)
Module Handler.
Record t := {
  startedAt : Z;
  received : bool;
  intent : ReplyIntent;
  attempted : bool;
  delivered : bool;
  skipReason : option jsstring;
  skippedIntentionally : bool
}.
End Handler.

(** The optional [context] of [finalize]. *)
Module Context.
Record t := {
  sessionKey : option jsstring;
  channel : option jsstring
}.
End Context.

(** The message passed to [logVerbose], by the values that its text
    interpolates after [reply_audit:no_reply]. *)
Record NoReply := {
  detail : option (jsstring * jsstring);
  logIntent : ReplyIntent;
  logAttempted : bool;
  logSkip : jsstring;
  logElapsedMs : Z
}.

Section Classifier.
Context {ET : EmojiTables}.

Definition classifyReplyIntent (text : option jsstring) : ReplyIntent :=
  match text with
  | None => ambiguous
  | Some text =>
    if isEmpty text then ambiguous
    else
      let trimmed := trim text in
      if isEmpty trimmed then ambiguous
      else if existsb (fun pattern => pattern trimmed) INFORMATIONAL_PATTERNS
      then informational
      else if includes trimmed (js "?") then expects_reply
      else if QUESTION_START_RE trimmed then expects_reply
      else if PLEASE_START_RE trimmed then expects_reply
      else if COMMAND_START_RE trimmed then expects_reply
      else if GREETING_RE trimmed then expects_reply
      else if CODE_HINT_RE trimmed then expects_reply
      else if (80 <? length trimmed)%nat then expects_reply
      else if SENTENCE_BREAK_RE trimmed then expects_reply
      else ambiguous
  end.

(** ** The audit handler: its methods *)

Definition createReplyAuditHandler (now : Z) : Handler.t :=
  {| Handler.startedAt := now;
     Handler.received := false;
     Handler.intent := ambiguous;
     Handler.attempted := false;
     Handler.delivered := false;
     Handler.skipReason := None;
     Handler.skippedIntentionally := false |}.

Definition markReceived (h : Handler.t) (text : option jsstring) : Handler.t :=
  {| Handler.startedAt := Handler.startedAt h;
     Handler.received := true;
     Handler.intent := classifyReplyIntent text;
     Handler.attempted := Handler.attempted h;
     Handler.delivered := Handler.delivered h;
     Handler.skipReason := Handler.skipReason h;
     Handler.skippedIntentionally := Handler.skippedIntentionally h |}.

Definition markReplyAttempted (h : Handler.t) : Handler.t :=
  {| Handler.startedAt := Handler.startedAt h;
     Handler.received := Handler.received h;
     Handler.intent := Handler.intent h;
     Handler.attempted := true;
     Handler.delivered := Handler.delivered h;
     Handler.skipReason := Handler.skipReason h;
     Handler.skippedIntentionally := Handler.skippedIntentionally h |}.

Definition markReplyDelivered (h : Handler.t) : Handler.t :=
  {| Handler.startedAt := Handler.startedAt h;
     Handler.received := Handler.received h;
     Handler.intent := Handler.intent h;
     Handler.attempted := Handler.attempted h;
     Handler.delivered := true;
     Handler.skipReason := Handler.skipReason h;
     Handler.skippedIntentionally := Handler.skippedIntentionally h |}.

(** [intentional] is [opts?.intentional]: absent, or a boolean. *)
Definition markSkipped (h : Handler.t) (reason : jsstring)
           (intentional : option bool) : Handler.t :=
  {| Handler.startedAt := Handler.startedAt h;
     Handler.received := Handler.received h;
     Handler.intent := Handler.intent h;
     Handler.attempted := Handler.attempted h;
     Handler.delivered := Handler.delivered h;
     Handler.skipReason := Some reason;
     Handler.skippedIntentionally :=
       match intentional with Some true => true | _ => false end |}.

Definition orElse (o : option jsstring) (d : jsstring) : jsstring :=
  match o with Some v => v | None => d end.

(** The result, and the message logged if there is one. *)
Definition finalize (h : Handler.t) (context : option Context.t) (now : Z)
  : ReplyAuditResult * option NoReply :=
  let result :=
    {| inboundReceived := Handler.received h;
       intent := Handler.intent h;
       replyAttempted := Handler.attempted h;
       replyDelivered := Handler.delivered h;
       skipReason := Handler.skipReason h;
       skippedIntentionally := Handler.skippedIntentionally h;
       elapsedMs := (now - Handler.startedAt h)%Z |} in
  let expectsReply :=
    match Handler.intent h with
    | expects_reply | ambiguous => true
    | informational => false
    end in
  if Handler.received h then
    if expectsReply then
      if negb (Handler.delivered h) then
        if negb (Handler.skippedIntentionally h) then
          (result,
           Some {| detail :=
                     match context with
                     | Some c => Some (orElse (Context.sessionKey c) (js "?"),
                                       orElse (Context.channel c) (js "?"))
                     | None => None
                     end;
                   logIntent := Handler.intent h;
                   logAttempted := Handler.attempted h;
                   logSkip := orElse (Handler.skipReason h) (js "none");
                   logElapsedMs := elapsedMs result |})
        else (result, None)
      else (result, None)
    else (result, None)
  else (result, None).

End Classifier.

End ReplyAudit.

(* ================================================================== *)
(** * Part VII.  Notions used to state the properties                  *)
(* ================================================================== *)

Module Spec.

Import SmartRouting.

(** ** Classification *)

(** The detectors of a category. *)
Definition detectors (t : TaskType) : list regex :=
  match t with
  | code => CODE_PATTERNS
  | reasoning => REASONING_PATTERNS
  | creative => CREATIVE_PATTERNS
  | translation => TRANSLATION_PATTERNS
  | general => []
  end.

(** The score of a category: how many of its detectors match. *)
Definition matchCount (prompt : jsstring) (t : TaskType) : nat :=
  length (filter (fun r => test r prompt) (detectors t)).

(** Position in the declaration order [code, reasoning, creative,
    translation]. *)
Definition declared (t : TaskType) : nat :=
  match t with
  | code => 0
  | reasoning => 1
  | creative => 2
  | translation => 3
  | general => 4
  end.

(** [t] wins under the scores [sc]: either every category scores 0 and [t]
    is [general], or [t] is a category with a positive score that no
    category exceeds and no earlier-declared category reaches. *)
Definition winner (sc : TaskType -> nat) (t : TaskType) : Prop :=
  (t = general /\ forall c, c <> general -> sc c = 0)
  \/ (t <> general /\ 0 < sc t
      /\ (forall c, c <> general -> sc c <= sc t)
      /\ (forall c, c <> general -> declared c < declared t -> sc c < sc t)).

Definition whiteSpaceOnly (s : jsstring) : bool := forallb isWhiteSpace s.

(** The code units of white space. *)
Definition whiteSpaceUnits : list codeunit :=
  [0x09; 0x0A; 0x0B; 0x0C; 0x0D; 0x20; 0xA0; 0x1680;
   0x2000; 0x2001; 0x2002; 0x2003; 0x2004; 0x2005; 0x2006; 0x2007; 0x2008;
   0x2009; 0x200A; 0x2028; 0x2029; 0x202F; 0x205F; 0x3000; 0xFEFF]%N.

(** A sufficient condition for "every match of [r] reads a character that
    is not white space". *)
Fixpoint requiresNonSpace (r : regex) : bool :=
  match r with
  | Eps => false
  | Chr f => forallb (fun c => negb (f c)) whiteSpaceUnits
  | Cat a b => requiresNonSpace a || requiresNonSpace b
  | Alt a b => requiresNonSpace a && requiresNonSpace b
  | Star _ => false
  | WordB => false
  end.

(** [s'] is what is left of [s] after reading some of it. *)
Definition Rest (s' s : jsstring) : Prop := exists pre, s = pre ++ s'.

(** ** Affinity routing *)

(** The elements of rank [j], for [j] running over [ranks]. *)
Definition buckets {A} (rk : A -> nat) (ranks : list nat) (l : list A) : list A :=
  flat_map (fun j => filter (fun x => rk x =? j) l) ranks.

(** The rank of a scored candidate among [n] fragments: its affinity index,
    [n] for [Infinity]. *)
Definition srank (n : nat) (s : Scored) : nat :=
  match affinityIndex s with
  | Fin z => Z.to_nat z
  | _ => n
  end.

(** The scored candidates that [applySmartRouting] builds. *)
Definition ranked (n : nat) (s : Scored) : Prop :=
  affinityIndex s = PosInfinity
  \/ exists k, k < n /\ affinityIndex s = Fin (Z.of_nat k).

(** [a] may stay before [b]: the comparator is not positive on [(a, b)]. *)
Definition inOrder (a b : Scored) : Prop :=
  isPositive (compareScored a b) = false.

Section Affinity.
Context {SC : StringCase}.

(** The index of the first fragment contained in [key], fragments being
    compared in lower case. *)
Fixpoint firstContained (key : jsstring) (fragments : list jsstring) : option nat :=
  match fragments with
  | [] => None
  | f :: rest =>
    if includes key (toLowerCase f) then Some 0
    else option_map S (firstContained key rest)
  end.

(** The same for fragments taken as they are written. *)
Fixpoint firstContainedVerbatim (key : jsstring) (fragments : list jsstring)
  : option nat :=
  match fragments with
  | [] => None
  | f :: rest =>
    if includes key f then Some 0
    else option_map S (firstContainedVerbatim key rest)
  end.

(** The match index of a candidate: [None] is "no match". *)
Definition matchIndex (fragments : list jsstring) (c : ModelCandidate) : option nat :=
  firstContained (candidateKey c) fragments.

Definition hasIndex (fragments : list jsstring) (i : nat) (c : ModelCandidate) : bool :=
  match matchIndex fragments c with
  | Some k => k =? i
  | None => false
  end.

Definition unmatched (fragments : list jsstring) (c : ModelCandidate) : bool :=
  match matchIndex fragments c with
  | Some _ => false
  | None => true
  end.

(** Candidates by ascending match index, those of one index in their
    original order, the unmatched ones last in their original order. *)
Definition byAffinity (fragments : list jsstring) (cs : list ModelCandidate)
  : list ModelCandidate :=
  flat_map (fun i => filter (hasIndex fragments i) cs) (seq 0 (length fragments))
  ++ filter (unmatched fragments) cs.

(** [routingCfg.enabled === false] *)
Definition disabled (cfg : option SmartRoutingConfig) : bool :=
  match enabled (resolveSmartRoutingConfig cfg) with
  | Some false => true
  | _ => false
  end.

(** *** The ordering in the words of its description

    The key of a candidate is its provider, a slash and its model, in lower
    case. *)
Definition key (c : ModelCandidate) : jsstring :=
  toLowerCase (provider c ++ js "/" ++ model c).

(** The index of the first fragment that the key of the candidate contains. *)
Definition keyIndex (fragments : list jsstring) (c : ModelCandidate) : option nat :=
  firstContained (key c) fragments.

(** Candidates by ascending index of their key, those of one index in their
    original order, those whose key contains no fragment last, in their
    original order. *)
Definition orderedByKey (fragments : list jsstring) (cs : list ModelCandidate)
  : list ModelCandidate :=
  flat_map (fun i =>
              filter (fun c => match keyIndex fragments c with
                               | Some k => k =? i
                               | None => false
                               end) cs)
           (seq 0 (length fragments))
  ++ filter (fun c => match keyIndex fragments c with
                      | Some _ => false
                      | None => true
                      end) cs.

(** Routing is switched off by the configuration: it has a [smartRouting]
    entry whose [enabled] is [false]. *)
Definition switchedOff (cfg : option SmartRoutingConfig) : bool :=
  match cfg with
  | Some raw =>
    match enabled raw with
    | Some false => true
    | Some true | None => false
    end
  | None => false
  end.

(** The fragments for a task: those that the rules of the configuration
    list for it, and the default ones when there is no configuration, it has
    no rules, or its rules do not list the task. *)
Definition fragmentsOf (cfg : option SmartRoutingConfig) (taskType : TaskType)
  : list jsstring :=
  match cfg with
  | Some raw =>
    match rules raw with
    | Some listed =>
      match listed taskType with
      | Some fragments => fragments
      | None => DEFAULT_ROUTING_RULES taskType
      end
    | None => DEFAULT_ROUTING_RULES taskType
    end
  | None => DEFAULT_ROUTING_RULES taskType
  end.

End Affinity.

(** ** Budget *)

Import TokenBudget.

(** [a < b] on numbers. *)
Definition ltb (a b : Q) : bool := negb (Qle_bool b a).

(** The three budget tiers. *)
Inductive Tier := Fresh | HighUsage | Exhausted.

Definition Tier_eqb (a b : Tier) : bool :=
  match a, b with
  | Fresh, Fresh | HighUsage, HighUsage | Exhausted, Exhausted => true
  | _, _ => false
  end.

(** fresh: below 75; high usage: from 75 and below 90; exhausted: from 90. *)
Definition tier (usedPercent : Q) : Tier :=
  if ltb usedPercent 75 then Fresh
  else if ltb usedPercent 90 then HighUsage
  else Exhausted.

(** The status of a provider without usage. *)
Definition freshStatus (provider : jsstring) : BudgetStatus.t :=
  {| BudgetStatus.provider := provider;
     BudgetStatus.usedPercent := 0;
     BudgetStatus.isExhausted := false;
     BudgetStatus.resetAt := None |}.

Section BudgetNotions.
Context {SC : StringCase}.

(** The usage windows recorded for a provider: those of the first entry of
    the summary under the provider's canonical id; none when the summary is
    absent, the name maps to no id, or the summary has no such entry. *)
Definition recordedWindows (provider : jsstring) (usageSummary : option UsageSummary)
  : list UsageWindow.t :=
  match usageSummary with
  | None => []
  | Some summary =>
    match mapToUsageProviderId provider with
    | None => []
    | Some usageId =>
      match find (fun p => eqb (ProviderUsage.provider p) usageId)
                 (providers summary) with
      | None => []
      | Some snapshot => ProviderUsage.windows snapshot
      end
    end
  end.

(** The tier of a candidate under a usage summary. *)
Definition tierOf (usageSummary : option UsageSummary) (c : ModelCandidate) : Tier :=
  tier (BudgetStatus.usedPercent (getProviderBudget (provider c) usageSummary)).

Definition inTier (t : Tier) (usageSummary : option UsageSummary)
           (c : ModelCandidate) : bool :=
  Tier_eqb (tierOf usageSummary c) t.

End BudgetNotions.

(** ** Stream supervision *)

Import QualityGuard.

Definition sumLengths (l : list jsstring) : Z :=
  fold_right (fun c n => (Z.of_nat (length c) + n)%Z) 0%Z l.

(** Occurrences of [segment] in [text] met from left to right, the search
    resuming [windowSize] characters after the start of each; [skip] is the
    number of characters still to pass over. *)
Fixpoint countOccurrences (segment : jsstring) (windowSize : nat)
         (text : jsstring) (skip : nat) : nat :=
  match text with
  | [] => 0
  | _ :: rest =>
    match skip with
    | S k => countOccurrences segment windowSize rest k
    | O =>
      if startsWith segment text
      then S (countOccurrences segment windowSize rest (windowSize - 1))
      else countOccurrences segment windowSize rest 0
    end
  end.

(** The share of [text] covered by the occurrences of its first 100
    characters, 0 when these occur only once. *)
Definition leadingSegmentRatio (text : jsstring) : Q :=
  let occurrences := countOccurrences (firstn 100 text) 100 text 0 in
  if occurrences <=? 1 then 0%Q
  else (inject_Z (Z.of_nat (occurrences * 100)) / inject_Z (Z.of_nat (length text)))%Q.

Section Supervision.
Context {SC : StringCase}.

(** What the caller may do with the state of an attempt. *)
Inductive Op :=
| Ingest (chunk : jsstring) (config : option QualityGuardConfig)
         (context : option Context.t) (now : Z)
| StallCheck (config : option QualityGuardConfig) (context : option Context.t)
             (now : Z)
| Finalize (config : option QualityGuardConfig) (context : option Context.t).

Definition step (state : QualityGuardState) (op : Op) : QualityGuardState * outcome :=
  match op with
  | Ingest chunk config context now =>
    checkStreamingChunk state chunk config context now
  | StallCheck config context now => checkForStall state config context now
  | Finalize config context => checkFinalResponse state config context
  end.

(** The state after a sequence of operations, whether they return or throw. *)
Definition run (state : QualityGuardState) (ops : list Op) : QualityGuardState :=
  fold_left (fun s op => fst (step s op)) ops state.

(** The chunks ingested by a sequence of operations: an ingest with the
    guard disabled records nothing. *)
Definition ingested (ops : list Op) : list jsstring :=
  flat_map (fun op =>
              match op with
              | Ingest chunk config _ _ =>
                if Cfg.enabled (mergeConfig config) then [chunk] else []
              | _ => []
              end) ops.

(** The first operation of a sequence that throws, counted from [n], and
    what it throws; the operations after it are not carried out. *)
Fixpoint firstThrow (state : QualityGuardState) (ops : list Op) (n : nat)
  : option (nat * FailoverError.t) :=
  match ops with
  | [] => None
  | op :: rest =>
    match step state op with
    | (_, Thrown e) => Some (n, e)
    | (state', Returned) => firstThrow state' rest (S n)
    end
  end.

(** A chunk as compared by the loop check: trimmed, in lower case. *)
Definition normalize (chunk : jsstring) : jsstring := toLowerCase (trim chunk).

(** The number of chunks at the head of [recent], most recent first, that
    equal [normalized] once normalised. *)
Fixpoint runLength (normalized : jsstring) (recent : list jsstring) : nat :=
  match recent with
  | c :: rest =>
    if eqb (normalize c) normalized then S (runLength normalized rest) else 0
  | [] => 0
  end.

(** The number of consecutive chunks immediately before [chunk] that equal
    it once normalised. *)
Definition precedingRun (previous : list jsstring) (chunk : jsstring) : nat :=
  runLength (normalize chunk) (rev previous).

(** The time of the first ingest that records a non-empty chunk. *)
Fixpoint firstOutputAt (ops : list Op) : option Z :=
  match ops with
  | [] => None
  | Ingest chunk config _ now :: rest =>
    if Cfg.enabled (mergeConfig config) then
      if 0 <? length chunk then Some now else firstOutputAt rest
    else firstOutputAt rest
  | _ :: rest => firstOutputAt rest
  end.

(** The clock of an ingest does not read 0, the one time stamp that
    [!state.firstChunkAt] takes for "no chunk yet". *)
Definition clockStarted (op : Op) : Prop :=
  match op with
  | Ingest _ _ _ now => now <> 0%Z
  | _ => True
  end.

(** Ingests of the chunks [items], all with the same configuration. *)
Definition ingests (config : option QualityGuardConfig)
           (items : list (jsstring * option Context.t * Z)) : list Op :=
  map (fun item => Ingest (fst (fst item)) config (snd (fst item)) (snd item))
      items.

End Supervision.

(** ** Orders of candidates *)

Definition tierRank (t : Tier) : nat :=
  match t with
  | Fresh => 0
  | HighUsage => 1
  | Exhausted => 2
  end.

Section Orders.
Context {SC : StringCase}.

(** The match index of a candidate, the number of fragments for "no match". *)
Definition affinityRank (fragments : list jsstring) (c : ModelCandidate) : nat :=
  match matchIndex fragments c with
  | Some k => k
  | None => length fragments
  end.

(** Match indices never decrease along the list, unmatched candidates last. *)
Definition inAffinityOrder (fragments : list jsstring) (cs : list ModelCandidate)
  : Prop :=
  StronglySorted
    (fun a b => affinityRank fragments a <= affinityRank fragments b) cs.

(** Fresh candidates first, then high-usage ones, then exhausted ones. *)
Definition inTierOrder (usageSummary : option UsageSummary)
           (cs : list ModelCandidate) : Prop :=
  StronglySorted
    (fun a b => tierRank (tierOf usageSummary a) <= tierRank (tierOf usageSummary b))
    cs.

(** The fragments that [applySmartRouting] resolves for a prompt. *)
Definition fragmentsFor (cfg : option SmartRoutingConfig) (prompt : option jsstring)
  : list jsstring :=
  resolveFragments (resolveSmartRoutingConfig cfg) (classifyTaskType prompt).

End Orders.

(** ** Model discovery *)

Section Discovery.
Context {SC : StringCase}.

(** The ids that a discovery takes for known: those of the models in the
    discovery file and those of the configured providers. *)
Definition knownIds (file : ModelDiscovery.File)
           (cfg : option ModelDiscovery.OpenClawConfig.t) : list jsstring :=
  map ModelDiscovery.DiscoveredModel.id
      (ModelDiscovery.DiscoveryState.models (ModelDiscovery.loadDiscoveryState file))
  ++ ModelDiscovery.collectConfigIds cfg.

(** A scan result that reports tool support and whose id is not known. *)
Definition isNewToolModel (file : ModelDiscovery.File)
           (cfg : option ModelDiscovery.OpenClawConfig.t)
           (result : ModelDiscovery.ScanResult.t) : bool :=
  if ModelDiscovery.ScanResult.supportsToolsMeta result
  then negb (ModelDiscovery.has (knownIds file cfg)
                                (ModelDiscovery.ScanResult.id result))
  else false.

(** A recommended model that an install goes on to pull: not installed
    under any spelling of its letters, within the size limit, and of one of
    the categories asked for. *)
Definition wanted (maxGb : Q) (categories : option (list jsstring))
           (installedNames : list jsstring) (rec : ModelDiscovery.Recommended.t)
  : bool :=
  if ModelDiscovery.has (map toLowerCase installedNames)
                        (toLowerCase (ModelDiscovery.Recommended.id rec))
  then false
  else if Qle_bool (ModelDiscovery.Recommended.sizeGb rec) maxGb
  then match categories with
       | Some cs => ModelDiscovery.has cs (ModelDiscovery.Recommended.category rec)
       | None => true
       end
  else false.

(** The models that a discovery file records: those of its state, none
    when the file is missing or unreadable. *)
Definition recordedModels (file : ModelDiscovery.File)
  : list ModelDiscovery.DiscoveredModel.t :=
  match file with
  | ModelDiscovery.Stored state => ModelDiscovery.DiscoveryState.models state
  | ModelDiscovery.Missing | ModelDiscovery.Unreadable => []
  end.

(** The entry recorded for a model found on OpenRouter at time [now]: its
    reference is [openrouter/] followed by its id, and its fields are those
    of the scan result. *)
Definition openRouterEntry (now : Z) (result : ModelDiscovery.ScanResult.t)
  : ModelDiscovery.DiscoveredModel.t :=
  {| ModelDiscovery.DiscoveredModel.id := ModelDiscovery.ScanResult.id result;
     ModelDiscovery.DiscoveredModel.name := ModelDiscovery.ScanResult.name result;
     ModelDiscovery.DiscoveredModel.provider := ModelDiscovery.openrouter;
     ModelDiscovery.DiscoveredModel.modelRef :=
       js "openrouter/" ++ ModelDiscovery.ScanResult.id result;
     ModelDiscovery.DiscoveredModel.contextLength :=
       ModelDiscovery.ScanResult.contextLength result;
     ModelDiscovery.DiscoveredModel.maxCompletionTokens :=
       ModelDiscovery.ScanResult.maxCompletionTokens result;
     ModelDiscovery.DiscoveredModel.isFree := ModelDiscovery.ScanResult.isFree result;
     ModelDiscovery.DiscoveredModel.supportsTools :=
       ModelDiscovery.ScanResult.supportsToolsMeta result;
     ModelDiscovery.DiscoveredModel.discoveredAt := now;
     ModelDiscovery.DiscoveredModel.paramB :=
       ModelDiscovery.ScanResult.inferredParamB result |}.

(** The entry recorded for an Ollama model pulled: free, without tool
    support, named by its id, its reference [ollama/] followed by the id,
    the other fields [null]. *)
Definition ollamaEntry (now : Z) (i : jsstring)
  : ModelDiscovery.DiscoveredModel.t :=
  {| ModelDiscovery.DiscoveredModel.id := i;
     ModelDiscovery.DiscoveredModel.name := i;
     ModelDiscovery.DiscoveredModel.provider := ModelDiscovery.ollama;
     ModelDiscovery.DiscoveredModel.modelRef := js "ollama/" ++ i;
     ModelDiscovery.DiscoveredModel.contextLength := None;
     ModelDiscovery.DiscoveredModel.maxCompletionTokens := None;
     ModelDiscovery.DiscoveredModel.isFree := true;
     ModelDiscovery.DiscoveredModel.supportsTools := false;
     ModelDiscovery.DiscoveredModel.discoveredAt := now;
     ModelDiscovery.DiscoveredModel.paramB := None |}.

(** The request of a sync to the scan of the catalogue: no probing, models
    of at least 7 billion parameters, at most 90 days old. *)
Definition catalogueRequest : ModelDiscovery.ScanRequest.t :=
  {| ModelDiscovery.ScanRequest.probe := false;
     ModelDiscovery.ScanRequest.minParamB := 7%Q;
     ModelDiscovery.ScanRequest.maxAgeDays := 90%Q |}.

(** The progress that a sync announces first, before its scan, and before
    it installs. *)
Definition scanning : ModelDiscovery.Call :=
  ModelDiscovery.OnProgress (js "openrouter") (js "Scanning for free models...").

Definition checking : ModelDiscovery.Call :=
  ModelDiscovery.OnProgress (js "ollama") (js "Checking recommended models...").

Definition installedNotice (i : jsstring) : ModelDiscovery.Call :=
  ModelDiscovery.OnProgress (js "ollama") (js "Installed " ++ i).

(** A line that holds more than white space. *)
Definition notBlank (line : jsstring) : bool :=
  match trim line with
  | [] => false
  | _ :: _ => true
  end.

End Discovery.

(** ** Reply audit *)

(** Some character class of the pattern admits the code unit. *)
Fixpoint admits (r : regex) (c : codeunit) : bool :=
  match r with
  | Eps => false
  | Chr f => f c
  | Cat a b => if admits a c then true else admits b c
  | Alt a b => if admits a c then true else admits b c
  | Star a => admits a c
  | WordB => false
  end.

(** A text that does not start with white space. *)
Definition headKept (s : jsstring) : bool :=
  match s with
  | [] => true
  | c :: _ => negb (isWhiteSpace c)
  end.

(** What a caller tells the handler before it finalizes. *)
Inductive Mark :=
| Received (text : option jsstring)
| Attempted
| Delivered
| Skipped (reason : jsstring) (intentional : option bool).

(** The text of the last message received, and the last skip. *)
Fixpoint lastReceived (ms : list Mark) : option (option jsstring) :=
  match ms with
  | [] => None
  | m :: rest =>
    match lastReceived rest with
    | Some text => Some text
    | None => match m with Received text => Some text | _ => None end
    end
  end.

Fixpoint lastSkipped (ms : list Mark) : option (jsstring * option bool) :=
  match ms with
  | [] => None
  | m :: rest =>
    match lastSkipped rest with
    | Some skip => Some skip
    | None =>
      match m with Skipped reason intentional => Some (reason, intentional)
              | _ => None end
    end
  end.

Section Audit.
Context {ET : ReplyAudit.EmojiTables}.

Definition mark (h : ReplyAudit.Handler.t) (m : Mark) : ReplyAudit.Handler.t :=
  match m with
  | Received text => ReplyAudit.markReceived h text
  | Attempted => ReplyAudit.markReplyAttempted h
  | Delivered => ReplyAudit.markReplyDelivered h
  | Skipped reason intentional => ReplyAudit.markSkipped h reason intentional
  end.

Definition marks (h : ReplyAudit.Handler.t) (ms : list Mark)
  : ReplyAudit.Handler.t :=
  fold_left mark ms h.

(** The question mark is no emoji. *)
Definition questionMarkIsNoEmoji : Prop :=
  ReplyAudit.Emoji_Presentation 0x3F%N = false
  /\ ReplyAudit.Extended_Pictographic 0x3F%N = false.

End Audit.

End Spec.

(** ** Concrete inputs *)

Module Examples.

Import TokenBudget.

Local Open Scope string_scope.

(** One window at 0% that carries a reset time. *)
Definition zeroWindow : UsageWindow.t :=
  {| UsageWindow.usedPercent := 0; UsageWindow.resetAt := Some 1767225600000%Z |}.

Definition zeroUsage : option UsageSummary :=
  Some {| providers :=
            [ {| ProviderUsage.provider := js "anthropic";
                 ProviderUsage.windows := [zeroWindow] |} ] |}.

(** A daily window at 30% and a monthly window at 95%. *)
Definition dailyWindow : UsageWindow.t :=
  {| UsageWindow.usedPercent := 30; UsageWindow.resetAt := Some 1767225600000%Z |}.

Definition monthlyWindow : UsageWindow.t :=
  {| UsageWindow.usedPercent := 95; UsageWindow.resetAt := Some 1769904000000%Z |}.

Definition twoWindowUsage : option UsageSummary :=
  Some {| providers :=
            [ {| ProviderUsage.provider := js "openai-codex";
                 ProviderUsage.windows := [dailyWindow; monthlyWindow] |} ] |}.

(** The candidates of the routing tests, and a coding prompt. *)
Definition candidate (p m : string) : ModelCandidate :=
  {| provider := js p; model := js m |}.

Definition codex := candidate "openai-codex" "gpt-5.3-codex".
Definition gemini := candidate "google-antigravity" "gemini-3-flash".
Definition deepseek := candidate "deepseek" "deepseek-chat".
Definition llama := candidate "openrouter" "meta-llama/llama-3.3-70b-instruct:free".
Definition qwen := candidate "openrouter" "qwen/qwen3-coder:free".
Definition claude := candidate "google-antigravity" "claude-opus-4-5".

Definition routingCandidates : list ModelCandidate :=
  [codex; gemini; deepseek; llama; qwen; claude].

(** A candidate that only its provider ties to a fragment. *)
Definition deepseekChat := candidate "deepseek" "chat".

(** A configuration that switches routing off, and one that lists its own
    fragments for coding tasks only. *)
Definition routingOff : option SmartRouting.SmartRoutingConfig :=
  Some {| SmartRouting.enabled := Some false; SmartRouting.rules := None |}.

Definition geminiForCode : option SmartRouting.SmartRoutingConfig :=
  Some {| SmartRouting.enabled := None;
          SmartRouting.rules :=
            Some (fun t => match t with
                           | SmartRouting.code => Some [js "GEMINI"]
                           | _ => None
                           end) |}.

Definition codingPrompt : option jsstring :=
  Some (js "implement a TypeScript function that parses JSON").

(** Two candidates, the first one's provider at 95%, the second one's at 10%. *)
Definition anthropicOpus := candidate "anthropic" "claude-opus-4-5".

Definition budgetCandidates : list ModelCandidate := [anthropicOpus; gemini].

Definition window (p : Q) : UsageWindow.t :=
  {| UsageWindow.usedPercent := p; UsageWindow.resetAt := None |}.

Definition budgetUsage : option UsageSummary :=
  Some {| providers :=
            [ {| ProviderUsage.provider := js "anthropic";
                 ProviderUsage.windows := [window 95] |};
              {| ProviderUsage.provider := js "google-antigravity";
                 ProviderUsage.windows := [window 10] |} ] |}.

Local Close Scope string_scope.

Import QualityGuard.

Definition disabledConfig : QualityGuardConfig :=
  {| enabled := Some false; minResponseChars := None;
     stallTimeoutSeconds := None; loopThreshold := None;
     loopMinChunkLength := None |}.

(** [n] times the letter A, and B. *)
Definition lettersA (n : nat) : jsstring := repeat 0x41%N n.
Definition lettersB (n : nat) : jsstring := repeat 0x42%N n.

(** A state that has ingested 300 and then 195 letters A. *)
Definition afterTwoChunks : QualityGuardState :=
  Spec.run (SC := asciiCase) (createQualityGuardState 0)
           [Spec.Ingest (lettersA 300) None None 1;
            Spec.Ingest (lettersA 195) None None 2].

(** A state that has ingested 200 letters A and then 30 letters B. *)
Definition afterMixedChunks : QualityGuardState :=
  Spec.run (SC := asciiCase) (createQualityGuardState 0)
           [Spec.Ingest (lettersA 200) None None 1;
            Spec.Ingest (lettersB 30) None None 2].

(** A state that has ingested 60 letters A and then 60 letters B, and one
    that has ingested 60 letters B twice. *)
Definition afterLettersAB : QualityGuardState :=
  Spec.run (SC := asciiCase) (createQualityGuardState 0)
           [Spec.Ingest (lettersA 60) None None 1;
            Spec.Ingest (lettersB 60) None None 2].

Definition afterLettersBB : QualityGuardState :=
  Spec.run (SC := asciiCase) (createQualityGuardState 0)
           [Spec.Ingest (lettersB 60) None None 1;
            Spec.Ingest (lettersB 60) None None 2].

(** A fresh state that has ingested one empty chunk at time 1000. *)
Definition afterEmptyChunk : QualityGuardState :=
  fst (checkStreamingChunk (SC := asciiCase) (createQualityGuardState 0)
                           [] None None 1000).

(** A discovery file that knows one model, a configuration that lists
    another, and a catalogue of four. *)
Definition scanResult (i : string) (tools : bool) : ModelDiscovery.ScanResult.t :=
  {| ModelDiscovery.ScanResult.id := js i;
     ModelDiscovery.ScanResult.name := js i;
     ModelDiscovery.ScanResult.contextLength := Some 32768%Z;
     ModelDiscovery.ScanResult.maxCompletionTokens := None;
     ModelDiscovery.ScanResult.isFree := true;
     ModelDiscovery.ScanResult.supportsToolsMeta := tools;
     ModelDiscovery.ScanResult.inferredParamB := Some 70%Q |}.

Definition catalogue : list ModelDiscovery.ScanResult.t :=
  [scanResult "meta/llama:free" true; scanResult "qwen/qwen3:free" true;
   scanResult "tiny/noTools:free" false; scanResult "mistral/small:free" true;
   scanResult "google/gemma:free" true].

Definition scanCatalogue (request : ModelDiscovery.ScanRequest.t)
  : ModelDiscovery.Settled (list ModelDiscovery.ScanResult.t) :=
  ModelDiscovery.Fulfilled catalogue.

Definition scanFails (request : ModelDiscovery.ScanRequest.t)
  : ModelDiscovery.Settled (list ModelDiscovery.ScanResult.t) :=
  ModelDiscovery.Rejected.

Definition knownFile : ModelDiscovery.File :=
  ModelDiscovery.Stored
    {| ModelDiscovery.DiscoveryState.lastScanAt := 1000;
       ModelDiscovery.DiscoveryState.models :=
         [ModelDiscovery.discovered 1000 (scanResult "meta/llama:free" true)] |}.

Definition configured : option ModelDiscovery.OpenClawConfig.t :=
  Some {| ModelDiscovery.OpenClawConfig.models :=
            Some {| ModelDiscovery.ModelsConfig.providers :=
                      Some [ {| ModelDiscovery.ProviderConfig.models := None |};
                             {| ModelDiscovery.ProviderConfig.models :=
                                  Some [ {| ModelDiscovery.ModelEntry.id := None |};
                                         {| ModelDiscovery.ModelEntry.id :=
                                              Some (js "qwen/qwen3:free") |} ] |} ] |} |}.

(** An Ollama server that has one of the recommended models, spelt in
    capitals, and a download that fails for one model. *)
Definition tags : ModelDiscovery.TagsResponse :=
  ModelDiscovery.TagsOk (Some [js "MISTRAL:7B"; js "phi3:mini"]).

Definition pullsAllButLlama (i : jsstring) : bool :=
  negb (eqb i (js "llama3.3:8b")).

Definition clock : ModelDiscovery.Clock :=
  {| ModelDiscovery.atDiscovery := 5000;
     ModelDiscovery.atInstall := 6000;
     ModelDiscovery.atSave := 7000 |}.

Definition cronOptions : DiscoveryCron.DiscoveryCronOptions :=
  {| DiscoveryCron.cfg := configured;
     DiscoveryCron.intervalHours := None;
     DiscoveryCron.autoInstallOllama := Some true;
     DiscoveryCron.ollamaMaxSizeGb := None |}.


(** The tables restricted to the block of emoticons, [U+1F600] to
    [U+1F64F], all of whose code points have both properties: the instance
    used to run the model on texts of Basic Latin, Polish letters and
    emoticons. *)
Definition isEmoticon (p : N) : bool :=
  if (0x1F600 <=? p)%N then (p <=? 0x1F64F)%N else false.

Definition emoticonTables : ReplyAudit.EmojiTables :=
  {| ReplyAudit.Emoji_Presentation := isEmoticon;
     ReplyAudit.Extended_Pictographic := isEmoticon |}.

End Examples.

(* ================================================================== *)
(** * Part VIII.  Properties                                           *)
(* ================================================================== *)

(** ** The classifier *)

Section RegexFacts.

Import Spec.

Lemma Rest_refl (s : jsstring) : Rest s s.
Proof. exists []. reflexivity. Qed.

Lemma Rest_cons (c : codeunit) (s' s : jsstring) : Rest s' s -> Rest s' (c :: s).
Proof. intros [pre ->]. exists (c :: pre). reflexivity. Qed.

Lemma Rest_trans (a b c : jsstring) : Rest a b -> Rest b c -> Rest a c.
Proof.
  intros [p ->] [q ->]. exists (q ++ p). now rewrite app_assoc.
Qed.

Lemma Rest_whiteSpaceOnly (s' s : jsstring) :
  Rest s' s -> whiteSpaceOnly s = true -> whiteSpaceOnly s' = true.
Proof.
  intros [pre ->]. unfold whiteSpaceOnly. rewrite forallb_app.
  intros H. now apply andb_prop in H.
Qed.

(** A continuation reached by [starLoop] sees a rest of the input. *)
Lemma starLoop_rest (step : option codeunit -> jsstring -> cont -> bool) :
  (forall prev s k, step prev s k = true ->
     exists p' s', Rest s' s /\ k p' s' = true) ->
  forall n prev s k, starLoop step n prev s k = true ->
     exists p' s', Rest s' s /\ k p' s' = true.
Proof.
  intros Hstep. induction n as [|n IH]; intros prev s k; simpl.
  - destruct (k prev s) eqn:E; [|discriminate].
    intros _. exists prev, s. split; [apply Rest_refl | exact E].
  - destruct (k prev s) eqn:E.
    + intros _. exists prev, s. split; [apply Rest_refl | exact E].
    + intros H. apply Hstep in H. destruct H as (p1 & s1 & R1 & H).
      destruct (length s1 <? length s)%nat; [|discriminate].
      apply IH in H. destruct H as (p2 & s2 & R2 & H).
      exists p2, s2. split; [eapply Rest_trans; eassumption | exact H].
Qed.

(** A continuation reached by [matchAt] sees a rest of the input. *)
Lemma matchAt_rest (r : regex) :
  forall prev s k, matchAt r prev s k = true ->
    exists p' s', Rest s' s /\ k p' s' = true.
Proof.
  induction r as [|f|a IHa b IHb|a IHa b IHb|a IHa|]; intros prev s k; simpl.
  - intros H. exists prev, s. split; [apply Rest_refl | exact H].
  - destruct s as [|c s']; [discriminate|].
    destruct (f c); [|discriminate].
    intros H. exists (Some c), s'. split; [|exact H].
    apply Rest_cons, Rest_refl.
  - intros H. apply IHa in H. destruct H as (p1 & s1 & R1 & H).
    apply IHb in H. destruct H as (p2 & s2 & R2 & H).
    exists p2, s2. split; [eapply Rest_trans; eassumption | exact H].
  - destruct (matchAt a prev s k) eqn:E.
    + intros _. apply (IHa _ _ _ E).
    + apply IHb.
  - apply starLoop_rest. exact IHa.
  - destruct (xorb _ _); [|discriminate].
    intros H. exists prev, s. split; [apply Rest_refl | exact H].
Qed.

Lemma isWhiteSpace_units (c : codeunit) :
  isWhiteSpace c = true -> In c whiteSpaceUnits.
Proof.
  unfold isWhiteSpace, whiteSpaceUnits.
  rewrite !orb_true_iff, !andb_true_iff, !N.leb_le, !N.eqb_eq.
  intros H. simpl.
  assert (Hr : forall lo n, (lo <= c)%N -> (c <= lo + N.of_nat n)%N ->
                 exists i, (i <= n)%nat /\ c = (lo + N.of_nat i)%N).
  { intros lo n H1 H2. exists (N.to_nat (c - lo)). split; lia. }
  repeat match goal with
         | H : _ \/ _ |- _ => destruct H as [H|H]
         end; try (subst c; tauto).
  - destruct H as [H1 H2]. destruct (Hr 0x09%N 4%nat H1) as (i & Hi & ->); [lia|].
    do 5 (destruct i as [|i]; [simpl; tauto|]). lia.
  - destruct H as [H1 H2]. destruct (Hr 0x2000%N 10%nat H1) as (i & Hi & ->); [lia|].
    do 11 (destruct i as [|i]; [simpl; tauto|]). lia.
Qed.

(** No match on white space alone for a pattern that requires something
    else. *)
Lemma requiresNonSpace_sound (r : regex) :
  requiresNonSpace r = true ->
  forall prev s k, whiteSpaceOnly s = true -> matchAt r prev s k = false.
Proof.
  induction r as [|f|a IHa b IHb|a IHa b IHb|a IHa|];
    cbn [requiresNonSpace matchAt]; try discriminate.
  - intros Hf prev [|c s'] k Hs; [reflexivity|].
    cbn [whiteSpaceOnly forallb] in Hs. apply andb_prop in Hs.
    destruct Hs as [Hc _]. apply isWhiteSpace_units in Hc.
    rewrite forallb_forall in Hf. apply Hf in Hc.
    destruct (f c); [discriminate | reflexivity].
  - intros H prev s k Hs. apply orb_true_iff in H. destruct H as [H|H].
    + now apply IHa.
    + destruct (matchAt a prev s _) eqn:E; [|reflexivity].
      apply matchAt_rest in E. destruct E as (p1 & s1 & R1 & E).
      rewrite (IHb H) in E; [discriminate|].
      eapply Rest_whiteSpaceOnly; eassumption.
  - intros H prev s k Hs. apply andb_prop in H. destruct H as [Ha Hb].
    now rewrite (IHa Ha), (IHb Hb).
Qed.

Lemma whiteSpaceOnly_no_match (r : regex) (s : jsstring) :
  requiresNonSpace r = true -> whiteSpaceOnly s = true -> test r s = false.
Proof.
  intros Hr. unfold test. generalize (@None codeunit).
  induction s as [|c s IH]; intros prev Hs; simpl.
  - now rewrite (requiresNonSpace_sound r Hr).
  - rewrite (requiresNonSpace_sound r Hr) by exact Hs.
    apply IH. simpl in Hs. now apply andb_prop in Hs.
Qed.

End RegexFacts.

Section ClassifierFacts.

Import Spec SmartRouting.

Lemma countMatches_from (prompt : jsstring) (patterns : list regex) (n : nat) :
  fold_left (fun score pattern => if test pattern prompt then score + 1 else score)
            patterns n
  = n + length (filter (fun r => test r prompt) patterns).
Proof.
  revert n. induction patterns as [|r rs IH]; intros n; simpl.
  - lia.
  - rewrite IH. destruct (test r prompt); simpl; lia.
Qed.

Lemma countMatches_filter (patterns : list regex) (prompt : jsstring) :
  countMatches patterns prompt
  = length (filter (fun r => test r prompt) patterns).
Proof. unfold countMatches. now rewrite countMatches_from. Qed.

Lemma scoreEntries_matchCount (prompt : jsstring) :
  scoreEntries prompt
  = map (fun t => (t, matchCount prompt t))
        [code; reasoning; creative; translation; general].
Proof.
  unfold scoreEntries, matchCount. now rewrite !countMatches_filter.
Qed.

Lemma pickBest_winner (sc : TaskType -> nat) :
  winner sc (pickBest [(code, sc code); (reasoning, sc reasoning);
                       (creative, sc creative); (translation, sc translation);
                       (general, 0)]).
Proof.
  unfold pickBest, winner. cbn [fold_left TaskType_eqb fst].
  destruct (Nat.ltb_spec 0 (sc code)) as [Hc|Hc];
    [ destruct (Nat.ltb_spec (sc code) (sc reasoning)) as [Hr|Hr];
      [ destruct (Nat.ltb_spec (sc reasoning) (sc creative)) as [Hv|Hv];
        [ destruct (Nat.ltb_spec (sc creative) (sc translation)) as [Ht|Ht]
        | destruct (Nat.ltb_spec (sc reasoning) (sc translation)) as [Ht|Ht] ]
      | destruct (Nat.ltb_spec (sc code) (sc creative)) as [Hv|Hv];
        [ destruct (Nat.ltb_spec (sc creative) (sc translation)) as [Ht|Ht]
        | destruct (Nat.ltb_spec (sc code) (sc translation)) as [Ht|Ht] ] ]
    | destruct (Nat.ltb_spec 0 (sc reasoning)) as [Hr|Hr];
      [ destruct (Nat.ltb_spec (sc reasoning) (sc creative)) as [Hv|Hv];
        [ destruct (Nat.ltb_spec (sc creative) (sc translation)) as [Ht|Ht]
        | destruct (Nat.ltb_spec (sc reasoning) (sc translation)) as [Ht|Ht] ]
      | destruct (Nat.ltb_spec 0 (sc creative)) as [Hv|Hv];
        [ destruct (Nat.ltb_spec (sc creative) (sc translation)) as [Ht|Ht]
        | destruct (Nat.ltb_spec 0 (sc translation)) as [Ht|Ht] ] ] ];
    cbn [fst];
    first
      [ left; split; [reflexivity|];
        intros [] Hne; solve [lia | contradiction]
      | right; split; [discriminate|]; split; [lia|]; split;
        intros [] Hne; cbn [declared]; solve [lia | contradiction] ].
Qed.

Lemma winner_unique (sc : TaskType -> nat) (t t' : TaskType) :
  winner sc t -> winner sc t' -> t = t'.
Proof.
  intros [[-> Hz]|(Hn & Hp & Hmax & Hbefore)]
         [[-> Hz']|(Hn' & Hp' & Hmax' & Hbefore')].
  - reflexivity.
  - specialize (Hz t' Hn'). lia.
  - specialize (Hz' t Hn). lia.
  - destruct (Nat.lt_trichotomy (declared t) (declared t')) as [H|[H|H]].
    + specialize (Hbefore' t Hn H). specialize (Hmax t' Hn'). lia.
    + destruct t, t'; simpl in H; congruence.
    + specialize (Hbefore t' Hn' H). specialize (Hmax' t Hn). lia.
Qed.

Lemma detectors_requireNonSpace (t : TaskType) :
  forallb requiresNonSpace (detectors t) = true.
Proof. destruct t; vm_compute; reflexivity. Qed.

Lemma matchCount_whiteSpaceOnly (prompt : jsstring) (t : TaskType) :
  whiteSpaceOnly prompt = true -> matchCount prompt t = 0.
Proof.
  intros Hs. unfold matchCount.
  pose proof (detectors_requireNonSpace t) as Hd.
  rewrite forallb_forall in Hd.
  induction (detectors t) as [|r rs IH]; [reflexivity|].
  simpl. rewrite (whiteSpaceOnly_no_match r prompt).
  - apply IH. intros x Hx. apply Hd. now right.
  - apply Hd. now left.
  - exact Hs.
Qed.

(** C2.  [classifyTaskType] returns a task type for every input.  An absent
    prompt, the empty prompt and a prompt of white space only are classified
    [general].  For any other prompt each category is scored with the number
    of its detectors that match, and the result is the winner of these scores:
    a category of positive score that no category exceeds and that no
    category declared earlier (in the order code, reasoning, creative,
    translation) reaches, or [general] when the four scores are 0.  The
    winner is unique, so ties go to the category declared first. *)
Theorem classifyTaskType_default_and_winner :
  classifyTaskType None = general
  /\ classifyTaskType (Some []) = general
  /\ (forall prompt, whiteSpaceOnly prompt = true ->
        classifyTaskType (Some prompt) = general)
  /\ (forall prompt, prompt <> [] ->
        scoreEntries prompt
        = map (fun t => (t, matchCount prompt t))
              [code; reasoning; creative; translation; general]
        /\ winner (matchCount prompt) (classifyTaskType (Some prompt)))
  /\ (forall sc t t', winner sc t -> winner sc t' -> t = t').
Proof.
  assert (Hw : forall prompt, prompt <> [] ->
                 winner (matchCount prompt) (classifyTaskType (Some prompt))).
  { intros [|c s] Hne; [congruence|].
    unfold classifyTaskType. rewrite scoreEntries_matchCount.
    cbn [map]. change (matchCount (c :: s) general) with 0.
    apply pickBest_winner. }
  split; [reflexivity|]. split; [reflexivity|]. split; [|split].
  - intros [|c s] Hs; [reflexivity|].
    assert (Hne : c :: s <> []) by discriminate.
    destruct (Hw _ Hne) as [[H _]|(Hn & Hp & _)]; [exact H|].
    rewrite (matchCount_whiteSpaceOnly _ _ Hs) in Hp. lia.
  - intros prompt Hne. split; [apply scoreEntries_matchCount | now apply Hw].
  - apply winner_unique.
Qed.

End ClassifierFacts.

(** ** Sorting and affinity routing *)

Section SortFacts.
Context {A : Type} (cmp : A -> A -> number).

Lemma insert_perm (x : A) (l : list A) : Permutation (insert cmp x l) (x :: l).
Proof.
  induction l as [|y l IH]; simpl.
  - apply Permutation_refl.
  - destruct (isPositive (cmp x y)).
    + eapply Permutation_trans; [apply perm_skip, IH | apply perm_swap].
    + apply Permutation_refl.
Qed.

Lemma sort_perm (l : list A) : Permutation (sort cmp l) l.
Proof.
  induction l as [|x l IH]; simpl.
  - apply perm_nil.
  - eapply Permutation_trans; [apply insert_perm | now apply perm_skip].
Qed.

(** [x] goes after the elements it is above and before the others. *)
Lemma insert_app (x : A) (lo hi : list A) :
  (forall y, In y lo -> isPositive (cmp x y) = true) ->
  (forall y, In y hi -> isPositive (cmp x y) = false) ->
  insert cmp x (lo ++ hi) = lo ++ x :: hi.
Proof.
  intros Hlo Hhi. induction lo as [|y lo IH]; simpl.
  - destruct hi as [|y hi]; [reflexivity|].
    simpl. now rewrite (Hhi y (or_introl eq_refl)).
  - rewrite (Hlo y (or_introl eq_refl)). f_equal.
    apply IH. intros z Hz. apply Hlo. now right.
Qed.

End SortFacts.

Section BucketFacts.
Context {A : Type} (rk : A -> nat).

Import Spec.

Lemma buckets_cons_other (x : A) (l : list A) (ranks : list nat) :
  ~ In (rk x) ranks -> buckets rk ranks (x :: l) = buckets rk ranks l.
Proof.
  unfold buckets. induction ranks as [|j ranks IH]; intros Hn; simpl.
  - reflexivity.
  - destruct (Nat.eqb_spec (rk x) j) as [E|E].
    + exfalso. apply Hn. now left.
    + f_equal. apply IH. intros H. apply Hn. now right.
Qed.

Lemma buckets_app (r1 r2 : list nat) (l : list A) :
  buckets rk (r1 ++ r2) l = buckets rk r1 l ++ buckets rk r2 l.
Proof. unfold buckets. apply flat_map_app. Qed.

Lemma in_buckets (ranks : list nat) (l : list A) (y : A) :
  In y (buckets rk ranks l) -> In y l /\ In (rk y) ranks.
Proof.
  unfold buckets. rewrite in_flat_map. intros (j & Hj & Hy).
  apply filter_In in Hy. destruct Hy as [Hy E].
  apply Nat.eqb_eq in E. subst j. now split.
Qed.

(** Where a new head of rank below [m] lands among the buckets [0 .. m-1]. *)
Lemma buckets_cons (x : A) (l : list A) (m : nat) :
  rk x < m ->
  buckets rk (seq 0 m) (x :: l)
  = buckets rk (seq 0 (rk x)) l ++ x :: buckets rk (seq (rk x) (m - rk x)) l.
Proof.
  intros Hlt.
  replace (seq 0 m) with (seq 0 (rk x) ++ seq (rk x) (m - rk x)).
  2:{ rewrite <- seq_app. f_equal. lia. }
  rewrite buckets_app. f_equal.
  - apply buckets_cons_other. rewrite in_seq. lia.
  - destruct (m - rk x) as [|d] eqn:E; [lia|].
    cbn [seq]. unfold buckets at 1 2. cbn [flat_map filter].
    rewrite Nat.eqb_refl. cbn [app]. f_equal. f_equal.
    apply buckets_cons_other. rewrite in_seq. lia.
Qed.

End BucketFacts.

Section RoutingFacts.
Context {SC : StringCase}.

Import Spec SmartRouting.

Lemma matchAffinityFrom_firstContained (key : jsstring) (fragments : list jsstring)
      (i : Z) :
  matchAffinityFrom key fragments i
  = match firstContained key fragments with
    | Some k => (i + Z.of_nat k)%Z
    | None => (-1)%Z
    end.
Proof.
  revert i. induction fragments as [|f rest IH]; intros i; simpl.
  - reflexivity.
  - destruct (includes key (toLowerCase f)).
    + lia.
    + rewrite IH. destruct (firstContained key rest); simpl; lia.
Qed.

Lemma firstContained_lt (key : jsstring) (fragments : list jsstring) (k : nat) :
  firstContained key fragments = Some k -> k < length fragments.
Proof.
  revert k. induction fragments as [|f rest IH]; intros k; simpl.
  - discriminate.
  - destruct (includes key (toLowerCase f)).
    + intros [= <-]. lia.
    + destruct (firstContained key rest) as [j|]; simpl; [|discriminate].
      intros [= <-]. specialize (IH j eq_refl). lia.
Qed.

(** For fragments that are in lower case already, containment of the
    fragment as written decides the match index. *)
Lemma firstContained_verbatim (key : jsstring) (fragments : list jsstring) :
  Forall (fun f => toLowerCase f = f) fragments ->
  firstContained key fragments = firstContainedVerbatim key fragments.
Proof.
  induction 1 as [|f rest Hf _ IH]; simpl.
  - reflexivity.
  - now rewrite Hf, IH.
Qed.

Lemma matchAffinity_matchIndex (fragments : list jsstring) (c : ModelCandidate) :
  matchAffinity c fragments
  = match matchIndex fragments c with
    | Some k => Z.of_nat k
    | None => (-1)%Z
    end.
Proof.
  unfold matchAffinity, matchIndex. rewrite matchAffinityFrom_firstContained.
  now destruct (firstContained _ _).
Qed.

Lemma affinityIndex_score (fragments : list jsstring) (c : ModelCandidate) (i : nat) :
  affinityIndex (score fragments c i)
  = match matchIndex fragments c with
    | Some k => Fin (Z.of_nat k)
    | None => PosInfinity
    end.
Proof.
  unfold score. cbn [affinityIndex]. rewrite matchAffinity_matchIndex.
  destruct (matchIndex fragments c) as [k|].
  - destruct (Z.leb_spec 0 (Z.of_nat k)); [reflexivity | lia].
  - reflexivity.
Qed.

Lemma ranked_score (fragments : list jsstring) (c : ModelCandidate) (i : nat) :
  ranked (length fragments) (score fragments c i).
Proof.
  unfold ranked. rewrite affinityIndex_score. unfold matchIndex.
  destruct (firstContained _ _) as [k|] eqn:E.
  - right. exists k. split; [eapply firstContained_lt; eassumption | reflexivity].
  - now left.
Qed.

Lemma srank_score (fragments : list jsstring) (c : ModelCandidate) (i : nat) :
  srank (length fragments) (score fragments c i)
  = match matchIndex fragments c with
    | Some k => k
    | None => length fragments
    end.
Proof.
  unfold srank. rewrite affinityIndex_score.
  destruct (matchIndex fragments c); [apply Nat2Z.id | reflexivity].
Qed.

Lemma srank_le (n : nat) (s : Scored) : ranked n s -> srank n s < S n.
Proof.
  unfold srank. intros [->|(k & Hk & ->)]; [lia|]. rewrite Nat2Z.id. lia.
Qed.

(** The comparator orders by rank, then by original index. *)
Lemma compareScored_positive (n : nat) (x y : Scored) :
  ranked n x -> ranked n y ->
  isPositive (compareScored x y)
  = (srank n y <? srank n x)
    || ((srank n x =? srank n y) && (originalIndex y <? originalIndex x)).
Proof.
  unfold compareScored, srank.
  intros [->|(a & Ha & ->)] [->|(b & Hb & ->)];
    cbn [number_eqb sub negb isPositive]; rewrite ?Nat2Z.id.
  - rewrite Nat.ltb_irrefl, Nat.eqb_refl. cbn [orb andb].
    destruct (Z.ltb_spec 0 (Z.of_nat (originalIndex x) - Z.of_nat (originalIndex y)));
      destruct (Nat.ltb_spec (originalIndex y) (originalIndex x)); lia.
  - destruct (Nat.ltb_spec b n); [reflexivity | lia].
  - destruct (Nat.ltb_spec n a); [lia|].
    destruct (Nat.eqb_spec a n); [lia | reflexivity].
  - destruct (Z.eqb_spec (Z.of_nat a) (Z.of_nat b)) as [E|E];
      cbn [negb isPositive].
    + apply Nat2Z.inj in E. subst b.
      rewrite Nat.ltb_irrefl, Nat.eqb_refl. cbn [orb andb].
      destruct (Z.ltb_spec 0 (Z.of_nat (originalIndex x) - Z.of_nat (originalIndex y)));
        destruct (Nat.ltb_spec (originalIndex y) (originalIndex x)); lia.
    + destruct (Z.ltb_spec 0 (Z.of_nat a - Z.of_nat b));
        destruct (Nat.ltb_spec b a); destruct (Nat.eqb_spec a b);
          cbn [orb andb]; try lia; try reflexivity.
Qed.

Lemma in_mapiFrom (fragments : list jsstring) (cs : list ModelCandidate)
      (i : nat) (s : Scored) :
  In s (mapiFrom (score fragments) i cs) ->
  ranked (length fragments) s /\ i <= originalIndex s.
Proof.
  revert i. induction cs as [|c cs IH]; intros i; simpl.
  - contradiction.
  - intros [<-|H].
    + split; [apply ranked_score | simpl; lia].
    + apply IH in H. destruct H as [H1 H2]. split; [exact H1 | lia].
Qed.

(** Sorting the scored candidates lists them bucket by bucket. *)
Lemma sort_scored (fragments : list jsstring) (cs : list ModelCandidate) (i : nat) :
  sort compareScored (mapiFrom (score fragments) i cs)
  = buckets (srank (length fragments)) (seq 0 (S (length fragments)))
            (mapiFrom (score fragments) i cs).
Proof.
  set (n := length fragments).
  revert i. induction cs as [|c cs IH]; intros i.
  - cbn [mapiFrom sort fold_right]. unfold buckets.
    induction (seq 0 (S n)) as [|j ranks IHr]; [reflexivity | exact IHr].
  - cbn [mapiFrom sort fold_right].
    change (fold_right (insert compareScored) [] (mapiFrom (score fragments) (S i) cs))
      with (sort compareScored (mapiFrom (score fragments) (S i) cs)).
    rewrite IH. set (x := score fragments c i).
    set (l := mapiFrom (score fragments) (S i) cs).
    assert (Hx : ranked n x) by apply ranked_score.
    pose proof (srank_le n x Hx) as Hlt.
    rewrite (buckets_cons (srank n) x l (S n) Hlt).
    replace (seq 0 (S n))
      with (seq 0 (srank n x) ++ seq (srank n x) (S n - srank n x)).
    2:{ rewrite <- seq_app. f_equal. lia. }
    rewrite buckets_app. apply insert_app.
    + intros y Hy. apply in_buckets in Hy. destruct Hy as [Hy Hr].
      apply in_mapiFrom in Hy. destruct Hy as [Hy _].
      rewrite (compareScored_positive n x y Hx Hy).
      apply in_seq in Hr.
      destruct (Nat.ltb_spec (srank n y) (srank n x)); [reflexivity | lia].
    + intros y Hy. apply in_buckets in Hy. destruct Hy as [Hy Hr].
      apply in_mapiFrom in Hy. destruct Hy as [Hy Hi].
      rewrite (compareScored_positive n x y Hx Hy).
      apply in_seq in Hr.
      destruct (Nat.ltb_spec (srank n y) (srank n x)); [lia|].
      destruct (Nat.ltb_spec (originalIndex y) (originalIndex x)) as [Hix|Hix].
      * subst x. simpl in Hix. lia.
      * now rewrite andb_false_r.
Qed.

Lemma map_candidate_filter (fragments : list jsstring) (p : nat -> bool)
      (cs : list ModelCandidate) (i : nat) :
  map candidate
      (filter (fun s => p (srank (length fragments) s))
              (mapiFrom (score fragments) i cs))
  = filter (fun c => p (match matchIndex fragments c with
                        | Some k => k
                        | None => length fragments
                        end)) cs.
Proof.
  revert i. induction cs as [|c cs IH]; intros i; simpl.
  - reflexivity.
  - rewrite srank_score. destruct (p _); simpl; now rewrite IH.
Qed.

Lemma map_candidate_mapiFrom (fragments : list jsstring) (cs : list ModelCandidate)
      (i : nat) :
  map candidate (mapiFrom (score fragments) i cs) = cs.
Proof.
  revert i. induction cs as [|c cs IH]; intros i; simpl.
  - reflexivity.
  - now rewrite IH.
Qed.

Lemma filter_hasIndex (fragments : list jsstring) (j : nat) (cs : list ModelCandidate) :
  j < length fragments ->
  filter (fun c => match matchIndex fragments c with
                   | Some k => k
                   | None => length fragments
                   end =? j) cs
  = filter (hasIndex fragments j) cs.
Proof.
  intros Hj. apply filter_ext. intros c. unfold hasIndex.
  destruct (matchIndex fragments c); [reflexivity|].
  destruct (Nat.eqb_spec (length fragments) j); [lia | reflexivity].
Qed.

Lemma filter_unmatched (fragments : list jsstring) (cs : list ModelCandidate) :
  filter (fun c => match matchIndex fragments c with
                   | Some k => k
                   | None => length fragments
                   end =? length fragments) cs
  = filter (unmatched fragments) cs.
Proof.
  apply filter_ext. intros c. unfold unmatched, matchIndex.
  destruct (firstContained _ _) as [k|] eqn:E.
  - apply firstContained_lt in E.
    destruct (Nat.eqb_spec k (length fragments)); [lia | reflexivity].
  - apply Nat.eqb_refl.
Qed.

(** What the sort of [applySmartRouting] returns. *)
Lemma sorted_byAffinity (fragments : list jsstring) (cs : list ModelCandidate) :
  map candidate (sort compareScored (mapi (score fragments) cs))
  = byAffinity fragments cs.
Proof.
  unfold mapi. rewrite sort_scored. unfold byAffinity.
  rewrite seq_S, buckets_app, map_app. cbn [Nat.add].
  f_equal.
  - unfold buckets.
    assert (H : forall ranks, (forall j, In j ranks -> j < length fragments) ->
              map candidate
                (flat_map (fun j => filter (fun x => srank (length fragments) x =? j)
                                           (mapiFrom (score fragments) 0 cs)) ranks)
              = flat_map (fun i => filter (hasIndex fragments i) cs) ranks).
    { induction ranks as [|j ranks IH]; intros Hr; simpl.
      - reflexivity.
      - rewrite map_app, IH by (intros; apply Hr; now right).
        f_equal.
        rewrite (map_candidate_filter fragments (fun r => r =? j)).
        apply filter_hasIndex, Hr. now left. }
    apply H. intros j Hj. apply in_seq in Hj. lia.
  - unfold buckets. cbn [flat_map]. rewrite app_nil_r.
    rewrite (map_candidate_filter fragments (fun r => r =? length fragments)).
    apply filter_unmatched.
Qed.

(** *** Any sorting procedure returns the same array *)

Lemma inOrder_lex (n : nat) (x y : Scored) :
  ranked n x -> ranked n y ->
  (inOrder x y
   <-> srank n x < srank n y
       \/ (srank n x = srank n y /\ originalIndex x <= originalIndex y)).
Proof.
  intros Hx Hy. unfold inOrder. rewrite (compareScored_positive n x y Hx Hy).
  destruct (Nat.ltb_spec (srank n y) (srank n x));
    destruct (Nat.eqb_spec (srank n x) (srank n y));
    destruct (Nat.ltb_spec (originalIndex y) (originalIndex x));
    cbn [orb andb]; split; intros H'; try discriminate; try reflexivity; lia.
Qed.

Lemma insert_sorted (n : nat) (x : Scored) (l : list Scored) :
  ranked n x -> Forall (ranked n) l ->
  StronglySorted inOrder l ->
  StronglySorted inOrder (insert compareScored x l).
Proof.
  intros Hx Hl Hs. induction Hs as [|y l Hs IH Hy]; cbn [insert].
  - constructor; constructor.
  - inversion Hl as [|? ? Hry Hrl]; subst.
    destruct (isPositive (compareScored x y)) eqn:E.
    + constructor; [now apply IH|].
      assert (Hyx : inOrder y x).
      { apply (inOrder_lex n y x Hry Hx).
        rewrite (compareScored_positive n x y Hx Hry) in E.
        destruct (Nat.ltb_spec (srank n y) (srank n x));
          destruct (Nat.eqb_spec (srank n x) (srank n y));
          destruct (Nat.ltb_spec (originalIndex y) (originalIndex x));
          cbn [orb andb] in E; try discriminate; lia. }
      eapply Permutation_Forall;
        [apply Permutation_sym, insert_perm|].
      constructor; assumption.
    + constructor; [constructor; assumption|].
      constructor; [exact E|].
      rewrite Forall_forall in Hy, Hrl |- *. intros z Hz.
      specialize (Hy z Hz). specialize (Hrl z Hz).
      apply (inOrder_lex n x z Hx Hrl).
      apply (inOrder_lex n y z Hry Hrl) in Hy.
      assert (Hxy : inOrder x y) by exact E.
      apply (inOrder_lex n x y Hx Hry) in Hxy. lia.
Qed.

Lemma sort_sorted (n : nat) (l : list Scored) :
  Forall (ranked n) l -> StronglySorted inOrder (sort compareScored l).
Proof.
  induction 1 as [|x l Hx Hl IH]; cbn [sort fold_right].
  - constructor.
  - apply (insert_sorted n); [exact Hx | | exact IH].
    eapply Permutation_Forall; [apply Permutation_sym, sort_perm | exact Hl].
Qed.

Lemma scored_index_inj (fragments : list jsstring) (cs : list ModelCandidate)
      (i : nat) (x y : Scored) :
  In x (mapiFrom (score fragments) i cs) ->
  In y (mapiFrom (score fragments) i cs) ->
  originalIndex x = originalIndex y -> x = y.
Proof.
  revert i. induction cs as [|c cs IH]; intros i; cbn [mapiFrom].
  - intros [].
  - intros [<-|Hx] [<-|Hy] E.
    + reflexivity.
    + apply in_mapiFrom in Hy. cbn in E. lia.
    + apply in_mapiFrom in Hx. cbn in E. lia.
    + now apply (IH (S i)).
Qed.

Lemma sorted_perm_unique (l1 l2 : list Scored) :
  StronglySorted inOrder l1 -> StronglySorted inOrder l2 ->
  Permutation l1 l2 ->
  (forall x y, In x l1 -> In y l1 -> inOrder x y -> inOrder y x -> x = y) ->
  l1 = l2.
Proof.
  intros H1. revert l2. induction H1 as [|a l1 H1 IH Ha]; intros l2 H2 Hp Hanti.
  - apply Permutation_nil in Hp. now subst.
  - destruct H2 as [|b l2 H2 Hb].
    + apply Permutation_sym, Permutation_nil in Hp. discriminate.
    + assert (Hab : a = b).
      { assert (Hina : In a (b :: l2))
          by (eapply Permutation_in; [exact Hp | now left]).
        assert (Hinb : In b (a :: l1))
          by (eapply Permutation_in; [apply Permutation_sym, Hp | now left]).
        destruct Hina as [->|Hina]; [reflexivity|].
        destruct Hinb as [->|Hinb]; [reflexivity|].
        rewrite Forall_forall in Ha, Hb.
        apply Hanti; [now left | now right | now apply Ha | now apply Hb]. }
      subst b. f_equal. apply IH.
      * exact H2.
      * eapply Permutation_cons_inv. exact Hp.
      * intros x y Hx Hy. apply Hanti; now right.
Qed.

(** An array that holds the scored candidates in an order the comparator
    accepts is the array that [sort] returns. *)
Lemma sort_unique (fragments : list jsstring) (cs : list ModelCandidate)
      (out : list Scored) :
  Permutation out (mapi (score fragments) cs) ->
  StronglySorted inOrder out ->
  out = sort compareScored (mapi (score fragments) cs).
Proof.
  intros Hp Hs. unfold mapi in *.
  set (L := mapiFrom (score fragments) 0 cs) in *.
  assert (HL : Forall (ranked (length fragments)) L).
  { apply Forall_forall. intros x Hx. now apply in_mapiFrom in Hx. }
  apply sorted_perm_unique.
  - exact Hs.
  - now apply (sort_sorted (length fragments)).
  - eapply Permutation_trans; [exact Hp | apply Permutation_sym, sort_perm].
  - intros x y Hx Hy Hxy Hyx.
    assert (Hx' : In x L) by (eapply Permutation_in; eassumption).
    assert (Hy' : In y L) by (eapply Permutation_in; eassumption).
    rewrite Forall_forall in HL.
    apply (inOrder_lex _ x y (HL x Hx') (HL y Hy')) in Hxy.
    apply (inOrder_lex _ y x (HL y Hy') (HL x Hx')) in Hyx.
    apply (scored_index_inj fragments cs 0 x y Hx' Hy'). lia.
Qed.

End RoutingFacts.

(** C3.  [applySmartRouting] returns its input as it is when there are fewer
    than two candidates, when the task is classified [general], when routing
    is disabled by the configuration, or when the fragments resolved for the
    task are none.  Otherwise it returns the candidates by ascending match
    index, candidates of one index in their original order and the unmatched
    ones last in their original order.  The match index of a candidate is
    the index of the first fragment contained in its lower-case
    ["provider/model"] key ([matchAffinity] returns it, and -1 for no match);
    fragments are compared in lower case, which for the lower-case fragments
    of an affinity table is containment of the fragment as written. *)
Theorem applySmartRouting_order {SC : StringCase} :
  (forall candidates prompt cfg,
     SmartRouting.applySmartRouting candidates prompt cfg
     = let taskType := SmartRouting.classifyTaskType prompt in
       let fragments := Spec.fragmentsOf cfg taskType in
       if (length candidates <? 2)
          || SmartRouting.TaskType_eqb taskType SmartRouting.general
          || Spec.switchedOff cfg
          || (length fragments =? 0)
       then candidates
       else Spec.orderedByKey fragments candidates)
  /\ (forall fragments c,
        SmartRouting.matchAffinity c fragments
        = match Spec.firstContained
                  (toLowerCase (provider c ++ js "/" ++ model c)) fragments with
          | Some i => Z.of_nat i
          | None => (-1)%Z
          end)
  /\ (forall key fragments,
        Forall (fun f => toLowerCase f = f) fragments ->
        Spec.firstContained key fragments
        = Spec.firstContainedVerbatim key fragments).
Proof.
  assert (Hfragments : forall cfg taskType,
             Spec.fragmentsOf cfg taskType
             = SmartRouting.resolveFragments
                 (SmartRouting.resolveSmartRoutingConfig cfg) taskType).
  { intros [raw|] taskType; reflexivity. }
  assert (Hoff : forall cfg, Spec.switchedOff cfg = Spec.disabled cfg).
  { intros [raw|]; [|reflexivity].
    unfold Spec.switchedOff, Spec.disabled.
    cbn [SmartRouting.resolveSmartRoutingConfig].
    now destruct (SmartRouting.enabled raw) as [[|]|]. }
  assert (Hordered : forall fragments cs,
             Spec.orderedByKey fragments cs = Spec.byAffinity fragments cs)
    by reflexivity.
  split; [|split].
  - intros candidates prompt cfg. cbv zeta.
    rewrite Hfragments, Hoff, Hordered.
    unfold SmartRouting.applySmartRouting, Spec.disabled.
    replace (length candidates <=? 1) with (length candidates <? 2).
    2:{ destruct (Nat.ltb_spec (length candidates) 2);
        destruct (Nat.leb_spec (length candidates) 1); lia || reflexivity. }
    destruct (length candidates <? 2) eqn:El;
      [now rewrite orb_true_r|]. rewrite orb_false_r.
    destruct (SmartRouting.isEmptyPrompt prompt) eqn:Ep.
    + assert (Hg : SmartRouting.classifyTaskType prompt = SmartRouting.general).
      { destruct prompt as [[|c p]|]; try reflexivity. discriminate. }
      rewrite Hg. reflexivity.
    + cbn [orb].
      destruct (SmartRouting.enabled (SmartRouting.resolveSmartRoutingConfig cfg))
        as [[|]|]; cbn [orb];
        try (now rewrite orb_true_r);
        rewrite ?orb_false_r;
        (destruct (SmartRouting.TaskType_eqb _ _); [reflexivity|]);
        cbn [orb];
        (destruct (length _ =? 0); [reflexivity|]);
        apply sorted_byAffinity.
  - intros fragments c.
    change (toLowerCase (provider c ++ js "/" ++ model c))
      with (SmartRouting.candidateKey c).
    apply matchAffinity_matchIndex.
  - intros key fragments. apply firstContained_verbatim.
Qed.

(** ** Budget status and budget filter *)

Section BudgetFacts.
Context {SC : StringCase}.

Import Spec TokenBudget.

Lemma gtb_lt (a b : Q) : gtb a b = true <-> (b < a)%Q.
Proof.
  unfold gtb. rewrite negb_true_iff. split.
  - intros H. apply Qnot_le_lt. intros Hle.
    apply Qle_bool_iff in Hle. congruence.
  - intros H. destruct (Qle_bool a b) eqn:E; [|reflexivity].
    apply Qle_bool_iff in E. exfalso. now apply (Qlt_not_le b a).
Qed.

Lemma gtb_le (a b : Q) : gtb a b = false <-> (a <= b)%Q.
Proof.
  unfold gtb. rewrite negb_false_iff. apply Qle_bool_iff.
Qed.

Lemma geb_le (a b : Q) : geb a b = true <-> (b <= a)%Q.
Proof. unfold geb. apply Qle_bool_iff. Qed.

(** The loop over the windows keeps the first window above everything
    before it, or its initial state when no window is above that. *)
Lemma worstWindow_fold (ws : list UsageWindow.t) (m0 : Q) (r0 : option Z) :
  let (m, r) := fold_left worstWindow ws (m0, r0) in
  ((m, r) = (m0, r0)
   /\ forall w, In w ws -> (UsageWindow.usedPercent w <= m0)%Q)
  \/ (exists pre w post,
        ws = pre ++ w :: post
        /\ m = UsageWindow.usedPercent w
        /\ r = UsageWindow.resetAt w
        /\ (m0 < UsageWindow.usedPercent w)%Q
        /\ (forall x, In x pre ->
              (UsageWindow.usedPercent x < UsageWindow.usedPercent w)%Q)
        /\ (forall x, In x post ->
              (UsageWindow.usedPercent x <= UsageWindow.usedPercent w)%Q)).
Proof.
  revert m0 r0. induction ws as [|w rest IH]; intros m0 r0.
  - simpl. left. split; [reflexivity | intros w []].
  - cbn [fold_left]. unfold worstWindow at 2.
    destruct (gtb (UsageWindow.usedPercent w) m0) eqn:E.
    + apply gtb_lt in E.
      specialize (IH (UsageWindow.usedPercent w) (UsageWindow.resetAt w)).
      destruct (fold_left worstWindow rest _) as [m r].
      right. destruct IH as [[Heq Hall]|(pre & w' & post & -> & Hm & Hr & Hlt & Hpre & Hpost)].
      * injection Heq as -> ->.
        exists [], w, rest. repeat split; auto. intros x [].
      * exists (w :: pre), w', post. repeat split; auto.
        -- eapply Qlt_trans; eassumption.
        -- intros x [<-|Hx]; [exact Hlt | now apply Hpre].
    + apply gtb_le in E. specialize (IH m0 r0).
      destruct (fold_left worstWindow rest _) as [m r].
      destruct IH as [[Heq Hall]|(pre & w' & post & -> & Hm & Hr & Hlt & Hpre & Hpost)].
      * left. split; [exact Heq|]. intros x [<-|Hx]; [exact E | now apply Hall].
      * right. exists (w :: pre), w', post. repeat split; auto.
        intros x [<-|Hx]; [|now apply Hpre].
        eapply Qle_lt_trans; eassumption.
Qed.

(** [getProviderBudget] in terms of the recorded windows. *)
Lemma getProviderBudget_windows (provider : jsstring) (usage : option UsageSummary) :
  getProviderBudget provider usage
  = match recordedWindows provider usage with
    | [] => freshStatus provider
    | ws =>
      let (maxUsed, nearestReset) := fold_left worstWindow ws (0%Q, None) in
      {| BudgetStatus.provider := provider;
         BudgetStatus.usedPercent := maxUsed;
         BudgetStatus.isExhausted := geb maxUsed EXHAUSTION_THRESHOLD;
         BudgetStatus.resetAt := nearestReset |}
    end.
Proof.
  unfold getProviderBudget, recordedWindows, freshStatus.
  destruct usage as [summary|]; [|reflexivity].
  destruct (mapToUsageProviderId provider) as [usageId|]; [|reflexivity].
  destruct (find _ _) as [snapshot|]; [|reflexivity].
  destruct (ProviderUsage.windows snapshot); reflexivity.
Qed.

Lemma isExhausted_usedPercent (provider : jsstring) (usage : option UsageSummary) :
  BudgetStatus.isExhausted (getProviderBudget provider usage)
  = geb (BudgetStatus.usedPercent (getProviderBudget provider usage))
        EXHAUSTION_THRESHOLD.
Proof.
  rewrite getProviderBudget_windows.
  destruct (recordedWindows provider usage) as [|w ws]; [reflexivity|].
  destruct (fold_left worstWindow (w :: ws) _). reflexivity.
Qed.

(** The branch that [place] takes is the tier of the candidate. *)
Lemma place_tier (usage : option UsageSummary) (b : Buckets) (c : ModelCandidate) :
  place usage b c
  = match tierOf usage c with
    | Fresh =>
      {| fresh := fresh b ++ [c]; highUsage := highUsage b;
         exhausted := exhausted b |}
    | HighUsage =>
      {| fresh := fresh b; highUsage := highUsage b ++ [c];
         exhausted := exhausted b |}
    | Exhausted =>
      {| fresh := fresh b; highUsage := highUsage b;
         exhausted := exhausted b ++ [c] |}
    end.
Proof.
  unfold place, tierOf, tier, ltb. rewrite isExhausted_usedPercent.
  set (p := BudgetStatus.usedPercent _).
  unfold geb, EXHAUSTION_THRESHOLD, DEPRIORITIZE_THRESHOLD.
  destruct (Qle_bool 90 p) eqn:E90.
  - assert (E75 : Qle_bool 75 p = true).
    { apply Qle_bool_iff. apply Qle_bool_iff in E90.
      eapply Qle_trans; [|exact E90]. discriminate. }
    now rewrite E75.
  - destruct (Qle_bool 75 p); reflexivity.
Qed.

Lemma place_fold (usage : option UsageSummary) (cs : list ModelCandidate) (b : Buckets) :
  fold_left (place usage) cs b
  = {| fresh := fresh b ++ filter (inTier Fresh usage) cs;
       highUsage := highUsage b ++ filter (inTier HighUsage usage) cs;
       exhausted := exhausted b ++ filter (inTier Exhausted usage) cs |}.
Proof.
  revert b. induction cs as [|c cs IH]; intros b.
  - simpl. rewrite !app_nil_r. now destruct b.
  - cbn [fold_left filter]. rewrite IH, place_tier.
    assert (Ht : forall t, inTier t usage c = Tier_eqb (tierOf usage c) t)
      by reflexivity.
    rewrite !Ht.
    destruct (tierOf usage c); cbn [Tier_eqb fresh highUsage exhausted];
      rewrite <- ?app_assoc; reflexivity.
Qed.

Lemma tiers_perm (usage : option UsageSummary) (cs : list ModelCandidate) :
  Permutation (filter (inTier Fresh usage) cs
               ++ filter (inTier HighUsage usage) cs
               ++ filter (inTier Exhausted usage) cs) cs.
Proof.
  induction cs as [|c cs IH]; [apply perm_nil|].
  cbn [filter].
  assert (Ht : forall t, inTier t usage c = Tier_eqb (tierOf usage c) t)
    by reflexivity.
  rewrite !Ht. destruct (tierOf usage c); cbn [Tier_eqb].
  - cbn [app]. now apply perm_skip.
  - eapply Permutation_trans;
      [apply Permutation_sym, Permutation_middle | now apply perm_skip].
  - rewrite app_assoc.
    eapply Permutation_trans; [apply Permutation_sym, Permutation_middle|].
    rewrite <- app_assoc. now apply perm_skip.
Qed.

Lemma filterByBudget_tiers (cs : list ModelCandidate) (usage : option UsageSummary) :
  filterByBudget cs usage
  = match usage with
    | None => cs
    | Some _ =>
      if length cs <? 2 then cs
      else filter (inTier Fresh usage) cs
           ++ filter (inTier HighUsage usage) cs
           ++ filter (inTier Exhausted usage) cs
    end.
Proof.
  unfold filterByBudget. destruct usage as [summary|]; [|reflexivity].
  replace (length cs <=? 1) with (length cs <? 2).
  2:{ destruct (Nat.ltb_spec (length cs) 2);
      destruct (Nat.leb_spec (length cs) 1); lia || reflexivity. }
  destruct (length cs <? 2); [reflexivity|].
  rewrite place_fold. reflexivity.
Qed.

End BudgetFacts.

(** C5.  [filterByBudget] returns its input as it is when the usage summary
    is absent or there are fewer than two candidates.  Otherwise it returns
    the fresh candidates (usage below 75), then the high-usage ones (from 75
    and below 90), then the exhausted ones (from 90), each tier in the
    original order of its candidates; no candidate is removed.  A usage of
    75 is high usage, 89.9 is high usage, 90 is exhausted. *)
Theorem filterByBudget_tiers_in_order {SC : StringCase} :
  (forall candidates usageSummary,
     TokenBudget.filterByBudget candidates usageSummary
     = match usageSummary with
       | None => candidates
       | Some _ =>
         if length candidates <? 2 then candidates
         else filter (Spec.inTier Spec.Fresh usageSummary) candidates
              ++ filter (Spec.inTier Spec.HighUsage usageSummary) candidates
              ++ filter (Spec.inTier Spec.Exhausted usageSummary) candidates
       end)
  /\ (forall p, (p == 75)%Q -> Spec.tier p = Spec.HighUsage)
  /\ (forall p, (p == 899 # 10)%Q -> Spec.tier p = Spec.HighUsage)
  /\ (forall p, (p == 90)%Q -> Spec.tier p = Spec.Exhausted).
Proof.
  split; [apply filterByBudget_tiers|].
  assert (H : forall p q, (p == q)%Q -> Spec.tier p = Spec.tier q).
  { intros p q E. unfold Spec.tier, Spec.ltb.
    assert (E1 : forall k, Qle_bool k p = Qle_bool k q).
    { intros k. apply eq_true_iff_eq. rewrite !Qle_bool_iff. now rewrite E. }
    now rewrite !E1. }
  repeat split; intros p E; rewrite (H _ _ E); reflexivity.
Qed.

(** C4 (as amended).  [getProviderBudget] returns the fresh status (0% used,
    not exhausted, no reset time) when the usage summary is absent, when the
    provider name maps to no canonical usage id, and when no usage window is
    recorded for the provider.  Otherwise the status carries a percentage
    that no window of the provider exceeds (0 when no window is above 0), it
    is exhausted exactly when that percentage is at least 90, and when some
    window has a positive percentage the status carries the percentage and
    the reset time of the first window with the highest percentage.  Windows
    at 30 and 95 give an exhausted status at 95. *)
Theorem getProviderBudget_worst_window {SC : StringCase} :
  forall provider usageSummary,
    (usageSummary = None ->
       TokenBudget.getProviderBudget provider usageSummary
       = Spec.freshStatus provider)
    /\ (TokenBudget.mapToUsageProviderId provider = None ->
          TokenBudget.getProviderBudget provider usageSummary
          = Spec.freshStatus provider)
    /\ (Spec.recordedWindows provider usageSummary = [] ->
          TokenBudget.getProviderBudget provider usageSummary
          = Spec.freshStatus provider)
    /\ (Spec.recordedWindows provider usageSummary <> [] ->
          let status := TokenBudget.getProviderBudget provider usageSummary in
          let ws := Spec.recordedWindows provider usageSummary in
          TokenBudget.BudgetStatus.provider status = provider
          /\ (forall w, In w ws ->
                (TokenBudget.UsageWindow.usedPercent w
                 <= TokenBudget.BudgetStatus.usedPercent status)%Q)
          /\ (TokenBudget.BudgetStatus.isExhausted status = true
              <-> (90 <= TokenBudget.BudgetStatus.usedPercent status)%Q)
          /\ ((forall w, In w ws ->
                 (TokenBudget.UsageWindow.usedPercent w <= 0)%Q) ->
              TokenBudget.BudgetStatus.usedPercent status = 0%Q)
          /\ ((exists w, In w ws /\ (0 < TokenBudget.UsageWindow.usedPercent w)%Q) ->
              exists pre w post,
                ws = pre ++ w :: post
                /\ TokenBudget.BudgetStatus.usedPercent status
                   = TokenBudget.UsageWindow.usedPercent w
                /\ TokenBudget.BudgetStatus.resetAt status
                   = TokenBudget.UsageWindow.resetAt w
                /\ (forall x, In x pre ->
                      (TokenBudget.UsageWindow.usedPercent x
                       < TokenBudget.UsageWindow.usedPercent w)%Q)
                /\ (forall x, In x post ->
                      (TokenBudget.UsageWindow.usedPercent x
                       <= TokenBudget.UsageWindow.usedPercent w)%Q)))
    /\ (forall w1 w2,
          Spec.recordedWindows provider usageSummary = [w1; w2] ->
          (TokenBudget.UsageWindow.usedPercent w1 == 30)%Q ->
          (TokenBudget.UsageWindow.usedPercent w2 == 95)%Q ->
          let status := TokenBudget.getProviderBudget provider usageSummary in
          TokenBudget.BudgetStatus.isExhausted status = true
          /\ TokenBudget.BudgetStatus.usedPercent status
             = TokenBudget.UsageWindow.usedPercent w2
          /\ TokenBudget.BudgetStatus.resetAt status
             = TokenBudget.UsageWindow.resetAt w2).
Proof.
  intros provider usage.
  assert (Hfresh : Spec.recordedWindows provider usage = [] ->
            TokenBudget.getProviderBudget provider usage = Spec.freshStatus provider).
  { intros H. now rewrite getProviderBudget_windows, H. }
  split; [intros ->; reflexivity|].
  split; [intros H; apply Hfresh; unfold Spec.recordedWindows;
          destruct usage; [now rewrite H | reflexivity]|].
  split; [exact Hfresh|].
  match goal with
  | |- ?A /\ _ => assert (Hmain : A); [|split; [exact Hmain|]]
  end.
  - intros Hne. cbv zeta.
    rewrite isExhausted_usedPercent, geb_le.
    rewrite getProviderBudget_windows.
    destruct (Spec.recordedWindows provider usage) as [|w0 ws0] eqn:Ews;
      [congruence|].
    pose proof (worstWindow_fold (w0 :: ws0) 0%Q None) as Hw.
    destruct (fold_left TokenBudget.worstWindow (w0 :: ws0) (0%Q, None)) as [m r].
    cbn [TokenBudget.BudgetStatus.provider TokenBudget.BudgetStatus.usedPercent
         TokenBudget.BudgetStatus.resetAt].
    split; [reflexivity|].
    destruct Hw as [[Heq Hall]|(pre & w & post & Hsplit & Hm & Hr & Hlt & Hpre & Hpost)].
    + injection Heq as -> ->. split; [exact Hall|]. split; [reflexivity|].
      split; [reflexivity|].
      intros (w & Hin & Hpos). exfalso.
      apply (Qlt_not_le _ _ Hpos). now apply Hall.
    + split; [|split; [reflexivity|split]].
      * intros x Hx. rewrite Hsplit in Hx. subst m.
        apply in_app_or in Hx. destruct Hx as [Hx|[<-|Hx]].
        -- apply Qlt_le_weak. now apply Hpre.
        -- apply Qle_refl.
        -- now apply Hpost.
      * intros Hall. exfalso. apply (Qlt_not_le _ _ Hlt). apply Hall.
        rewrite Hsplit. apply in_or_app. right. now left.
      * intros _. exists pre, w, post. repeat split; assumption.
  - intros w1 w2 Hws H1 H2. cbv zeta.
    assert (Hne : Spec.recordedWindows provider usage <> [])
      by (rewrite Hws; discriminate).
    destruct (Hmain Hne) as (_ & Hmax & Hex & _ & Hfirst).
    destruct Hfirst as (pre & w & post & Hsplit & Hm & Hr & Hpre & Hpost).
    { exists w2. split; [rewrite Hws; simpl; auto|]. rewrite H2. reflexivity. }
    rewrite Hws in Hsplit.
    assert (Hw : w = w2).
    { destruct pre as [|a pre]; cbn [app] in Hsplit.
      - injection Hsplit as <- <-.
        specialize (Hpost w2 (or_introl eq_refl)).
        rewrite H1, H2 in Hpost. exfalso.
        apply (Qlt_not_le 30 95); [reflexivity | exact Hpost].
      - destruct pre as [|b pre]; cbn [app] in Hsplit.
        + now injection Hsplit as _ <- _.
        + exfalso. injection Hsplit as _ _ Hnil.
          destruct pre; discriminate. }
    subst w. split; [|split; assumption].
    apply Hex. rewrite Hm, H2. discriminate.
Qed.

(** C1.  The list returned by [applySmartRouting] and the list returned by
    [filterByBudget] are permutations of the candidates given: the same
    candidates with the same multiplicities, hence of the same length. *)
Theorem reordering_is_permutation {SC : StringCase} :
  forall candidates prompt cfg usageSummary,
    (Permutation candidates
                 (SmartRouting.applySmartRouting candidates prompt cfg)
     /\ length (SmartRouting.applySmartRouting candidates prompt cfg)
        = length candidates)
    /\ (Permutation candidates
                    (TokenBudget.filterByBudget candidates usageSummary)
        /\ length (TokenBudget.filterByBudget candidates usageSummary)
           = length candidates).
Proof.
  intros candidates prompt cfg usage.
  assert (H1 : Permutation candidates
                 (SmartRouting.applySmartRouting candidates prompt cfg)).
  { unfold SmartRouting.applySmartRouting.
    destruct (_ || _); [apply Permutation_refl|].
    destruct (SmartRouting.enabled _) as [[|]|]; try apply Permutation_refl;
      (destruct (SmartRouting.TaskType_eqb _ _); [apply Permutation_refl|]);
      (destruct (length _ =? 0); [apply Permutation_refl|]);
      set (fragments := SmartRouting.resolveFragments _ _);
      rewrite <- (map_candidate_mapiFrom fragments candidates 0) at 1;
      apply Permutation_map, Permutation_sym, sort_perm. }
  assert (H2 : Permutation candidates
                 (TokenBudget.filterByBudget candidates usage)).
  { rewrite filterByBudget_tiers. destruct usage; [|apply Permutation_refl].
    destruct (length candidates <? 2); [apply Permutation_refl|].
    apply Permutation_sym, tiers_perm. }
  split; (split; [assumption|]); symmetry; now apply Permutation_length.
Qed.

(** ** The quality guard *)

Section GuardFacts.
Context {SC : StringCase}.

Import Spec QualityGuard.

Lemma mergeConfig_disabled (c : QualityGuardConfig) :
  enabled c = Some false -> Cfg.enabled (mergeConfig (Some c)) = false.
Proof. intros H. cbn [mergeConfig Cfg.enabled]. now rewrite H. Qed.

Lemma checkStreamingChunk_chunks state chunk config context now :
  let state' := fst (checkStreamingChunk state chunk config context now) in
  chunks state'
  = (if Cfg.enabled (mergeConfig config) then chunks state ++ [chunk]
     else chunks state)
  /\ totalChars state'
     = (if Cfg.enabled (mergeConfig config)
        then (totalChars state + Z.of_nat (length chunk))%Z
        else totalChars state)
  /\ startedAt state' = startedAt state.
Proof.
  unfold checkStreamingChunk.
  destruct (Cfg.enabled (mergeConfig config)); cbn [negb]; [|auto].
  destruct (_ <=? _)%Z; cbn [fst chunks totalChars startedAt];
    destruct (noFirstChunk _ && _); auto.
Qed.

Lemma checkStreamingChunk_firstChunkAt state chunk config context now :
  let state' := fst (checkStreamingChunk state chunk config context now) in
  (firstChunkAt state <> None -> firstChunkAt state' <> None)
  /\ (Cfg.enabled (mergeConfig config) = true -> chunk <> [] ->
      firstChunkAt state' <> None).
Proof.
  unfold checkStreamingChunk.
  destruct (Cfg.enabled (mergeConfig config)); cbn [negb].
  - assert (H : firstChunkAt
                  (if noFirstChunk (firstChunkAt state) && (0 <? length chunk)
                   then {| chunks := chunks state; totalChars := totalChars state;
                           firstChunkAt := Some now; startedAt := startedAt state |}
                   else state) <> None
                \/ (firstChunkAt state = None /\ chunk = [])).
    { destruct (firstChunkAt state) as [t|] eqn:E.
      - left. destruct (_ && _); cbn [firstChunkAt]; [discriminate|].
        rewrite E. discriminate.
      - destruct chunk as [|c chunk]; [now right|]. left.
        cbn [noFirstChunk length Nat.ltb Nat.leb andb firstChunkAt].
        discriminate. }
    destruct (_ <=? _)%Z; cbn [fst firstChunkAt]; split;
      intros; destruct H as [H|[Hnone Hempty]]; congruence.
  - cbn [fst]. split; [auto | discriminate].
Qed.

Lemma step_firstChunkAt (state : QualityGuardState) (op : Op) :
  firstChunkAt state <> None -> firstChunkAt (fst (step state op)) <> None.
Proof.
  destruct op as [chunk config context now|config context now|config context];
    cbn [step].
  - apply checkStreamingChunk_firstChunkAt.
  - unfold checkForStall. destruct (negb _); [auto|]. destruct (_ && _); auto.
  - unfold checkFinalResponse. destruct (negb _); [auto|].
    destruct (_ <? _)%Z; auto.
Qed.

Lemma run_firstChunkAt (ops : list Op) (state : QualityGuardState) :
  firstChunkAt state <> None -> firstChunkAt (run state ops) <> None.
Proof.
  revert state. induction ops as [|op ops IH]; intros state H; [exact H|].
  cbn [run fold_left]. apply IH. now apply step_firstChunkAt.
Qed.

Lemma checkForStall_outcome state config context now :
  checkForStall state config context now
  = (state,
     if Cfg.enabled (mergeConfig config)
        && gtb (inject_Z (now - startedAt state) / 1000)%Q
               (Cfg.stallTimeoutSeconds (mergeConfig config))
        && isNull (firstChunkAt state)
     then Thrown (failover FailoverError.timeout context)
     else Returned).
Proof.
  unfold checkForStall. destruct (Cfg.enabled _); cbn [negb andb]; [|reflexivity].
  destruct (_ && _); reflexivity.
Qed.

Lemma sumLengths_app (a b : list jsstring) :
  sumLengths (a ++ b) = (sumLengths a + sumLengths b)%Z.
Proof.
  induction a as [|c a IH]; cbn [app sumLengths fold_right].
  - reflexivity.
  - fold (sumLengths (a ++ b)). fold (sumLengths a). rewrite IH. lia.
Qed.

Lemma step_invariant (state : QualityGuardState) (op : Op) :
  totalChars state = sumLengths (chunks state) ->
  totalChars (fst (step state op)) = sumLengths (chunks (fst (step state op))).
Proof.
  intros H.
  destruct op as [chunk config context now|config context now|config context];
    cbn [step].
  - destruct (checkStreamingChunk_chunks state chunk config context now)
      as (-> & -> & _).
    destruct (Cfg.enabled _); [|exact H].
    rewrite sumLengths_app, H. cbn [sumLengths fold_right]. lia.
  - now rewrite checkForStall_outcome.
  - unfold checkFinalResponse. destruct (negb _); [exact H|].
    destruct (_ <? _)%Z; exact H.
Qed.

Lemma step_chunks (state : QualityGuardState) (op : Op) :
  chunks (fst (step state op)) = chunks state ++ ingested [op].
Proof.
  destruct op as [chunk config context now|config context now|config context];
    cbn [step ingested flat_map]; rewrite ?app_nil_r.
  - destruct (checkStreamingChunk_chunks state chunk config context now)
      as (-> & _).
    destruct (Cfg.enabled _); [reflexivity | now rewrite app_nil_r].
  - now rewrite checkForStall_outcome.
  - unfold checkFinalResponse. destruct (negb _); [reflexivity|].
    destruct (_ <? _)%Z; reflexivity.
Qed.

Lemma run_chunks (ops : list Op) (state : QualityGuardState) :
  chunks (run state ops) = chunks state ++ ingested ops.
Proof.
  revert state. induction ops as [|op ops IH]; intros state.
  - cbn. now rewrite app_nil_r.
  - cbn [run fold_left]. fold (run (fst (step state op)) ops).
    rewrite IH, step_chunks, <- app_assoc. f_equal.
    unfold ingested. cbn [flat_map]. now rewrite app_nil_r.
Qed.

Lemma run_invariant (ops : list Op) (state : QualityGuardState) :
  totalChars state = sumLengths (chunks state) ->
  totalChars (run state ops) = sumLengths (chunks (run state ops)).
Proof.
  revert state. induction ops as [|op ops IH]; intros state H; [exact H|].
  cbn [run fold_left]. apply IH. now apply step_invariant.
Qed.

End GuardFacts.

(** C10.  Whatever sequence of operations is applied to a state made by
    [createQualityGuardState], returning or throwing, the chunks of the state
    are the chunks ingested so far and [totalChars] is the sum of their
    lengths. *)
Theorem totalChars_is_sum_of_ingested {SC : StringCase} :
  forall (now : Z) (ops : list Spec.Op),
    let state := Spec.run (QualityGuard.createQualityGuardState now) ops in
    QualityGuard.chunks state = Spec.ingested ops
    /\ QualityGuard.totalChars state = Spec.sumLengths (Spec.ingested ops).
Proof.
  intros now ops. cbv zeta.
  pose proof (run_chunks ops (QualityGuard.createQualityGuardState now)) as Hc.
  cbn [QualityGuard.createQualityGuardState QualityGuard.chunks app] in Hc.
  split; [exact Hc|]. rewrite <- Hc. now apply run_invariant.
Qed.

(** C9.  With the enable flag set to false, [checkStreamingChunk],
    [checkForStall] and [checkFinalResponse] return without throwing and
    leave the state as it was, for every state and every input: the chunk is
    not appended, [totalChars] is not increased, [firstChunkAt] is not set. *)
Theorem disabled_guard_is_noop {SC : StringCase} :
  forall state chunk config context now,
    QualityGuard.enabled config = Some false ->
    QualityGuard.checkStreamingChunk state chunk (Some config) context now
    = (state, QualityGuard.Returned)
    /\ QualityGuard.checkForStall state (Some config) context now
       = (state, QualityGuard.Returned)
    /\ QualityGuard.checkFinalResponse state (Some config) context
       = (state, QualityGuard.Returned).
Proof.
  intros state chunk config context now H.
  apply mergeConfig_disabled in H.
  unfold QualityGuard.checkStreamingChunk, QualityGuard.checkForStall,
    QualityGuard.checkFinalResponse.
  rewrite H. auto.
Qed.

(** C6 (as amended).  With the guard enabled, [checkForStall] throws a
    failover of reason [timeout] exactly when [firstChunkAt] is [null] and
    the time elapsed since the start of the attempt exceeds the stall
    timeout; it throws nothing else and leaves the state as it was.  Once a
    chunk that is not empty has been ingested with the guard enabled,
    [firstChunkAt] stays set whatever operations follow, and [checkForStall]
    returns from then on, however late it is called. *)
Theorem stall_guards_first_nonempty_chunk {SC : StringCase} :
  (forall state config context now,
     QualityGuard.Cfg.enabled (QualityGuard.mergeConfig config) = true ->
     let result := QualityGuard.checkForStall state config context now in
     fst result = state
     /\ (snd result
         = QualityGuard.Thrown
             (QualityGuard.failover FailoverError.timeout context)
         <-> QualityGuard.firstChunkAt state = None
             /\ (QualityGuard.Cfg.stallTimeoutSeconds
                   (QualityGuard.mergeConfig config)
                 < inject_Z (now - QualityGuard.startedAt state) / 1000)%Q)
     /\ (snd result <> QualityGuard.Returned ->
         snd result
         = QualityGuard.Thrown
             (QualityGuard.failover FailoverError.timeout context)))
  /\ (forall state chunk config context now ops config' context' now',
        QualityGuard.Cfg.enabled (QualityGuard.mergeConfig config) = true ->
        chunk <> [] ->
        let state' :=
          Spec.run
            (fst (QualityGuard.checkStreamingChunk state chunk config context now))
            ops in
        QualityGuard.firstChunkAt state' <> None
        /\ snd (QualityGuard.checkForStall state' config' context' now')
           = QualityGuard.Returned).
Proof.
  split.
  - intros state config context now He. cbv zeta.
    rewrite checkForStall_outcome, He. cbn [fst snd andb].
    split; [reflexivity|].
    destruct (gtb _ _) eqn:Eg; cbn [andb].
    + apply gtb_lt in Eg.
      destruct (QualityGuard.firstChunkAt state) as [t|];
        cbn [QualityGuard.isNull].
      * split; [|congruence]. split; [discriminate|]. intros [H _]. discriminate.
      * split; [|reflexivity]. split; [now split | reflexivity].
    + apply gtb_le in Eg. split; [|congruence].
      split; [discriminate|]. intros [_ H]. exfalso.
      now apply (Qlt_not_le _ _ H).
  - intros state chunk config context now ops config' context' now' He Hne.
    cbv zeta.
    assert (H : QualityGuard.firstChunkAt
                  (Spec.run
                     (fst (QualityGuard.checkStreamingChunk state chunk config
                                                            context now)) ops)
                <> None).
    { apply run_firstChunkAt.
      now apply checkStreamingChunk_firstChunkAt. }
    split; [exact H|].
    rewrite checkForStall_outcome. cbn [snd].
    destruct (QualityGuard.firstChunkAt _); [|congruence].
    cbn [QualityGuard.isNull]. now rewrite andb_false_r.
Qed.

(** ** Loop detection *)

Section LoopFacts.
Context {SC : StringCase}.

Import Spec QualityGuard.

Lemma firstn_succ_nth {A} (l : list A) (i : nat) (d : A) :
  i < length l -> firstn (S i) l = firstn i l ++ [nth i l d].
Proof.
  revert i. induction l as [|x l IH]; intros i Hi; simpl in Hi; [lia|].
  destruct i as [|i]; [reflexivity|].
  cbn [firstn nth app]. f_equal. apply IH. lia.
Qed.

(** The [for] loop counts the run of equal chunks below index [n], up to
    the threshold. *)
Lemma countRepeats_runLength (recent : list jsstring) (normalized : jsstring)
      (threshold : Z) (n : nat) (k : Z) :
  n <= length recent -> (k <= threshold)%Z ->
  countRepeats recent normalized threshold n k
  = Z.min threshold
          (k + Z.of_nat (runLength normalized (rev (firstn n recent)))).
Proof.
  revert k. induction n as [|i IH]; intros k Hn Hk.
  - cbn. lia.
  - cbn [countRepeats].
    rewrite (firstn_succ_nth recent i []) by lia.
    rewrite rev_app_distr. cbn [rev app runLength].
    fold (normalize (nth i recent [])).
    destruct (Z.ltb_spec k threshold) as [Hlt|Hge].
    + destruct (eqb (normalize (nth i recent [])) normalized).
      * rewrite IH by lia. lia.
      * lia.
    + lia.
Qed.

Lemma countRepeats_nonpositive (recent : list jsstring) (normalized : jsstring)
      (threshold : Z) (n : nat) :
  (threshold <= 0)%Z -> countRepeats recent normalized threshold n 0 = 0%Z.
Proof.
  intros H. destruct n as [|i]; [reflexivity|]. cbn [countRepeats].
  destruct (Z.ltb_spec 0 threshold); [lia | reflexivity].
Qed.

Lemma runLength_firstn (normalized : jsstring) (l : list jsstring) (m : nat) :
  runLength normalized (firstn m l) = Nat.min m (runLength normalized l).
Proof.
  revert m. induction l as [|c l IH]; intros m.
  - rewrite firstn_nil. cbn. lia.
  - destruct m as [|m]; [reflexivity|]. cbn [firstn runLength].
    destruct (eqb (normalize c) normalized); [|lia].
    rewrite IH. lia.
Qed.

Lemma runLength_le (normalized : jsstring) (l : list jsstring) :
  runLength normalized l <= length l.
Proof.
  induction l as [|c l IH]; cbn [runLength length]; [lia|].
  destruct (eqb _ _); lia.
Qed.

(** The window of recent chunks, for a threshold of at least 1. *)
Lemma recentChunks_split (previous : list jsstring) (chunk : jsstring) (threshold : Z) :
  (1 <= threshold)%Z ->
  let m := Nat.min (length previous) (Z.to_nat (2 * threshold - 1)) in
  sliceFrom (previous ++ [chunk]) (- threshold * 2)
  = skipn (length previous - m) previous ++ [chunk].
Proof.
  intros Ht m. unfold sliceFrom.
  destruct (Z.ltb_spec (- threshold * 2) 0) as [_|H]; [|lia].
  rewrite length_app. cbn [length].
  set (k := Z.to_nat _).
  assert (Hk : k = length previous - m) by (unfold k, m; lia).
  rewrite Hk, skipn_app.
  replace (length previous - m - length previous) with 0 by lia.
  reflexivity.
Qed.

(** [checkForLooping] on the state left by an ingest, threshold at least 1. *)
Lemma checkForLooping_outcome (state : QualityGuardState)
      (previous : list jsstring) (chunk : jsstring) (cfg : Cfg.t)
      (context : option Context.t) :
  (1 <= Cfg.loopThreshold cfg)%Z ->
  chunks state = previous ++ [chunk] ->
  checkForLooping state chunk cfg context
  = if (Z.of_nat (length previous) + 1 <? Cfg.loopThreshold cfg)%Z then Returned
    else if (Cfg.loopThreshold cfg - 1
             <=? Z.of_nat (precedingRun previous chunk))%Z
    then Thrown (failover FailoverError.unknown context)
    else if (500 <? totalChars state)%Z then
      if gtb (detectRepetitionRatio (join (chunks state))) (6 # 10)%Q
      then Thrown (failover FailoverError.unknown context)
      else Returned
    else Returned.
Proof.
  intros Ht Hc. unfold checkForLooping. rewrite Hc.
  rewrite (recentChunks_split previous chunk _ Ht). cbv zeta.
  set (T := Cfg.loopThreshold cfg) in *.
  set (m := Nat.min (length previous) (Z.to_nat (2 * T - 1))).
  set (kept := skipn (length previous - m) previous).
  assert (Hlen : length kept = m).
  { unfold kept. rewrite length_skipn. unfold m. lia. }
  rewrite length_app, Hlen. cbn [length].
  replace (m + 1 - 1) with m by lia.
  rewrite countRepeats_runLength by (rewrite ?length_app, ?Hlen; cbn [length]; lia).
  replace (firstn m (kept ++ [chunk])) with kept.
  2:{ rewrite firstn_app, Hlen, Nat.sub_diag. cbn [firstn].
      rewrite app_nil_r. symmetry. rewrite <- Hlen. apply firstn_all. }
  assert (Hrev : rev kept = firstn m (rev previous)).
  { unfold kept. now rewrite firstn_rev. }
  rewrite Hrev, runLength_firstn.
  fold (normalize chunk). fold (precedingRun previous chunk).
  pose proof (runLength_le (normalize chunk) (rev previous)) as Hle.
  rewrite length_rev in Hle. fold (precedingRun previous chunk) in Hle.
  destruct (Z.ltb_spec (Z.of_nat (m + 1)) T) as [H1|H1];
    destruct (Z.ltb_spec (Z.of_nat (length previous) + 1) T) as [H2|H2];
    try reflexivity; try (unfold m in H1; lia).
  destruct (Z.leb_spec (T - 1) (Z.min T (0 + Z.of_nat (Nat.min m (precedingRun previous chunk)))))
    as [H3|H3];
    destruct (Z.leb_spec (T - 1) (Z.of_nat (precedingRun previous chunk))) as [H4|H4];
    try reflexivity; unfold m in H3; lia.
Qed.

(** With a threshold below 1 the loop check throws on any window. *)
Lemma checkForLooping_nonpositive (state : QualityGuardState) (chunk : jsstring)
      (cfg : Cfg.t) (context : option Context.t) :
  (Cfg.loopThreshold cfg <= 0)%Z ->
  checkForLooping state chunk cfg context
  = Thrown (failover FailoverError.unknown context).
Proof.
  intros Ht. unfold checkForLooping.
  destruct (Z.ltb_spec (Z.of_nat (length (sliceFrom (chunks state)
                                            (- Cfg.loopThreshold cfg * 2))))
                       (Cfg.loopThreshold cfg)); [lia|].
  rewrite countRepeats_nonpositive by exact Ht.
  destruct (Z.leb_spec (Cfg.loopThreshold cfg - 1) 0); [reflexivity | lia].
Qed.

(** The state and outcome of an enabled ingest of a chunk that is long
    enough for the loop check. *)
Lemma checkStreamingChunk_checked state chunk config context now :
  Cfg.enabled (mergeConfig config) = true ->
  (Cfg.loopMinChunkLength (mergeConfig config) <= Z.of_nat (length chunk))%Z ->
  snd (checkStreamingChunk state chunk config context now)
  = checkForLooping
      (fst (checkStreamingChunk state chunk config context now))
      chunk (mergeConfig config) context.
Proof.
  intros He Hl. unfold checkStreamingChunk. rewrite He. cbn [negb].
  destruct (Z.leb_spec (Cfg.loopMinChunkLength (mergeConfig config))
                       (Z.of_nat (length chunk))); [reflexivity | lia].
Qed.

End LoopFacts.

(** C7.  When the guard is enabled and a chunk is at least as long as the
    configured minimum, the ingest counts the consecutive chunks immediately
    before it that equal it once trimmed and put in lower case, and throws a
    failover of reason [unknown] when this run and the chunk itself make up
    the configured repeat threshold.  On a shorter run it does not throw for
    looping: it returns, unless at least as many chunks as the threshold are
    recorded, they hold more than 500 characters and their repetition ratio
    exceeds 0.6.  Under the default configuration five identical chunks of
    60 characters fed to a fresh state make the third ingest throw, the
    first two having returned. *)
Theorem repeated_chunks_raise_loop_failover {SC : StringCase} :
  (forall state chunk config context now,
     QualityGuard.Cfg.enabled (QualityGuard.mergeConfig config) = true ->
     (QualityGuard.Cfg.loopMinChunkLength (QualityGuard.mergeConfig config)
      <= Z.of_nat (length chunk))%Z ->
     (QualityGuard.Cfg.loopThreshold (QualityGuard.mergeConfig config)
      <= Z.of_nat (Spec.precedingRun (QualityGuard.chunks state) chunk) + 1)%Z ->
     snd (QualityGuard.checkStreamingChunk state chunk config context now)
     = QualityGuard.Thrown
         (QualityGuard.failover FailoverError.unknown context))
  /\ (forall state chunk config context now,
        QualityGuard.Cfg.enabled (QualityGuard.mergeConfig config) = true ->
        (QualityGuard.Cfg.loopMinChunkLength (QualityGuard.mergeConfig config)
         <= Z.of_nat (length chunk))%Z ->
        let threshold :=
          QualityGuard.Cfg.loopThreshold (QualityGuard.mergeConfig config) in
        snd (QualityGuard.checkStreamingChunk state chunk config context now)
        = if (threshold
              <=? Z.of_nat (Spec.precedingRun (QualityGuard.chunks state) chunk)
                  + 1)%Z
          then QualityGuard.Thrown
                 (QualityGuard.failover FailoverError.unknown context)
          else if (Z.of_nat (length (QualityGuard.chunks state)) + 1
                   <? threshold)%Z
          then QualityGuard.Returned
          else if (500 <? QualityGuard.totalChars state
                          + Z.of_nat (length chunk))%Z
          then if gtb (QualityGuard.detectRepetitionRatio
                         (join (QualityGuard.chunks state ++ [chunk])))
                      (6 # 10)%Q
               then QualityGuard.Thrown
                      (QualityGuard.failover FailoverError.unknown context)
               else QualityGuard.Returned
          else QualityGuard.Returned)
  /\ (forall chunk start t1 t2 t3 t4 t5,
        length chunk = 60 ->
        Spec.firstThrow (QualityGuard.createQualityGuardState start)
                        [Spec.Ingest chunk None None t1;
                         Spec.Ingest chunk None None t2;
                         Spec.Ingest chunk None None t3;
                         Spec.Ingest chunk None None t4;
                         Spec.Ingest chunk None None t5] 1
        = Some (3, QualityGuard.failover FailoverError.unknown None)).
Proof.
  assert (Hmain : forall state chunk config context now,
     QualityGuard.Cfg.enabled (QualityGuard.mergeConfig config) = true ->
     (QualityGuard.Cfg.loopMinChunkLength (QualityGuard.mergeConfig config)
      <= Z.of_nat (length chunk))%Z ->
     (QualityGuard.Cfg.loopThreshold (QualityGuard.mergeConfig config)
      <= Z.of_nat (Spec.precedingRun (QualityGuard.chunks state) chunk) + 1)%Z ->
     snd (QualityGuard.checkStreamingChunk state chunk config context now)
     = QualityGuard.Thrown
         (QualityGuard.failover FailoverError.unknown context)).
  { intros state chunk config context now He Hl Hrun.
    rewrite checkStreamingChunk_checked by assumption.
    destruct (Z.le_gt_cases 1 (QualityGuard.Cfg.loopThreshold
                                 (QualityGuard.mergeConfig config))) as [Ht|Ht].
    - rewrite (checkForLooping_outcome _ (QualityGuard.chunks state) chunk _ _ Ht).
      2:{ destruct (checkStreamingChunk_chunks state chunk config context now)
            as (-> & _). now rewrite He. }
      pose proof (runLength_le (Spec.normalize chunk)
                               (rev (QualityGuard.chunks state))) as Hle.
      rewrite length_rev in Hle.
      fold (Spec.precedingRun (QualityGuard.chunks state) chunk) in Hle.
      destruct (Z.ltb_spec (Z.of_nat (length (QualityGuard.chunks state)) + 1)
                           (QualityGuard.Cfg.loopThreshold
                              (QualityGuard.mergeConfig config))); [lia|].
      destruct (Z.leb_spec (QualityGuard.Cfg.loopThreshold
                              (QualityGuard.mergeConfig config) - 1)
                           (Z.of_nat (Spec.precedingRun (QualityGuard.chunks state)
                                                        chunk)));
        [reflexivity | lia].
    - apply checkForLooping_nonpositive. lia. }
  split; [exact Hmain|]. split.
  { intros state chunk config context now He Hl threshold. subst threshold.
    destruct (checkStreamingChunk_chunks state chunk config context now)
      as (Hchunks & Htotal & _).
    rewrite He in Hchunks, Htotal.
    pose proof (runLength_le (Spec.normalize chunk)
                             (rev (QualityGuard.chunks state))) as Hle.
    rewrite length_rev in Hle.
    fold (Spec.precedingRun (QualityGuard.chunks state) chunk) in Hle.
    rewrite checkStreamingChunk_checked by assumption.
    destruct (Z.le_gt_cases 1 (QualityGuard.Cfg.loopThreshold
                                 (QualityGuard.mergeConfig config))) as [Ht|Ht].
    - rewrite (checkForLooping_outcome _ (QualityGuard.chunks state) chunk _ _ Ht)
        by exact Hchunks.
      rewrite Hchunks, Htotal.
      destruct (Z.leb_spec
                  (QualityGuard.Cfg.loopThreshold (QualityGuard.mergeConfig config))
                  (Z.of_nat (Spec.precedingRun (QualityGuard.chunks state) chunk)
                   + 1)) as [Hrun|Hrun].
      + destruct (Z.ltb_spec
                    (Z.of_nat (length (QualityGuard.chunks state)) + 1)
                    (QualityGuard.Cfg.loopThreshold
                       (QualityGuard.mergeConfig config))); [lia|].
        destruct (Z.leb_spec
                    (QualityGuard.Cfg.loopThreshold
                       (QualityGuard.mergeConfig config) - 1)
                    (Z.of_nat (Spec.precedingRun (QualityGuard.chunks state)
                                                 chunk)));
          [reflexivity | lia].
      + destruct (Z.ltb_spec
                    (Z.of_nat (length (QualityGuard.chunks state)) + 1)
                    (QualityGuard.Cfg.loopThreshold
                       (QualityGuard.mergeConfig config))); [reflexivity|].
        destruct (Z.leb_spec
                    (QualityGuard.Cfg.loopThreshold
                       (QualityGuard.mergeConfig config) - 1)
                    (Z.of_nat (Spec.precedingRun (QualityGuard.chunks state)
                                                 chunk)));
          [lia | reflexivity].
    - rewrite checkForLooping_nonpositive by lia.
      destruct (Z.leb_spec
                  (QualityGuard.Cfg.loopThreshold (QualityGuard.mergeConfig config))
                  (Z.of_nat (Spec.precedingRun (QualityGuard.chunks state) chunk)
                   + 1)); [reflexivity | lia]. }
  intros chunk start t1 t2 t3 t4 t5 Hlen.
  assert (Hself : JS.eqb (Spec.normalize chunk) (Spec.normalize chunk) = true).
  { generalize (Spec.normalize chunk). intros l.
    induction l as [|c l IH]; cbn [JS.eqb]; [reflexivity|].
    now rewrite N.eqb_refl. }
  cbn [Spec.firstThrow Spec.step].
  set (s0 := QualityGuard.createQualityGuardState start).
  assert (He : QualityGuard.Cfg.enabled (QualityGuard.mergeConfig None) = true)
    by reflexivity.
  assert (Hl : (QualityGuard.Cfg.loopMinChunkLength (QualityGuard.mergeConfig None)
                <= Z.of_nat (length chunk))%Z).
  { rewrite Hlen. cbn. lia. }
  assert (Hstep : forall s t previous,
            QualityGuard.chunks s = previous ->
            length previous < 2 ->
            QualityGuard.checkStreamingChunk s chunk None None t
            = (fst (QualityGuard.checkStreamingChunk s chunk None None t),
               QualityGuard.Returned)
            /\ QualityGuard.chunks
                 (fst (QualityGuard.checkStreamingChunk s chunk None None t))
               = previous ++ [chunk]).
  { intros s t previous Hc Hp.
    destruct (checkStreamingChunk_chunks s chunk None None t) as (Hch & _).
    rewrite He, Hc in Hch. split; [|exact Hch].
    rewrite (surjective_pairing (QualityGuard.checkStreamingChunk s chunk None None t))
      at 1.
    f_equal. rewrite checkStreamingChunk_checked by assumption.
    rewrite (checkForLooping_outcome _ previous chunk _ _) by (cbn; lia || exact Hch).
    destruct (Z.ltb_spec (Z.of_nat (length previous) + 1)
                         (QualityGuard.Cfg.loopThreshold (QualityGuard.mergeConfig None)));
      [reflexivity | cbn in *; lia]. }
  destruct (Hstep s0 t1 [] eq_refl) as [E1 C1]; [cbn; lia|].
  rewrite E1.
  destruct (Hstep _ t2 _ C1) as [E2 C2]; [cbn; lia|].
  rewrite E2.
  rewrite (surjective_pairing (QualityGuard.checkStreamingChunk _ chunk None None t3)).
  rewrite Hmain; [reflexivity | exact He | exact Hl |].
  rewrite C2. unfold Spec.precedingRun. cbn [app rev Spec.runLength].
  rewrite Hself. cbn. lia.
Qed.

(** ** The repetition ratio *)

Section RatioFacts.

Import Spec QualityGuard.

Lemma countOccurrences_skip (segment : jsstring) (w : nat) (text : jsstring) (k : nat) :
  countOccurrences segment w text k
  = countOccurrences segment w (skipn k text) 0.
Proof.
  revert k. induction text as [|c text IH]; intros k.
  - now rewrite skipn_nil.
  - destruct k as [|k]; [reflexivity|]. cbn [countOccurrences skipn]. apply IH.
Qed.

Lemma startsWith_nil (segment : jsstring) :
  segment <> [] -> startsWith segment [] = false.
Proof. destruct segment; [congruence | reflexivity]. Qed.

Lemma indexFrom_None (segment : jsstring) (w : nat) (s : jsstring) (i : nat) :
  indexFrom segment s i = None -> countOccurrences segment w s 0 = 0.
Proof.
  revert i. induction s as [|c s IH]; intros i; [reflexivity|].
  cbn [indexFrom countOccurrences].
  destruct (startsWith segment (c :: s)); [discriminate|]. apply IH.
Qed.

Lemma indexFrom_Some (segment : jsstring) (w : nat) (s : jsstring) (i p : nat) :
  segment <> [] -> 1 <= w ->
  indexFrom segment s i = Some p ->
  exists d, p = i + d /\ d < length s
            /\ countOccurrences segment w s 0
               = S (countOccurrences segment w (skipn (d + w) s) 0).
Proof.
  intros Hseg Hw. revert i. induction s as [|c s IH]; intros i.
  - cbn [indexFrom]. now rewrite (startsWith_nil _ Hseg).
  - cbn [indexFrom countOccurrences].
    destruct (startsWith segment (c :: s)) eqn:E.
    + intros [= <-]. exists 0. split; [lia|]. split; [simpl; lia|].
      rewrite countOccurrences_skip. f_equal.
      destruct w as [|w]; [lia|]. cbn [Nat.add skipn].
      now replace (S w - 1) with w by lia.
    + intros H. apply IH in H. destruct H as (d & -> & Hd & Hcount).
      exists (S d). split; [lia|]. split; [simpl; lia|].
      rewrite Hcount. reflexivity.
Qed.

(** The [while] loop counts the occurrences met from [pos] on, and its exit
    is reached within [length text - pos + 1] rounds. *)
Lemma occurrencesLoop_count (text segment : jsstring) (w : nat) :
  segment <> [] -> 1 <= w ->
  forall fuel pos occurrences,
    length text - pos < fuel ->
    occurrencesLoop fuel text segment w pos occurrences
    = Some (occurrences + countOccurrences segment w (skipn pos text) 0).
Proof.
  intros Hseg Hw. induction fuel as [|fuel IH]; intros pos occ Hfuel; [lia|].
  cbn [occurrencesLoop]. unfold indexOf.
  set (start := Nat.min pos (length text)).
  assert (Hskip : skipn start text = skipn pos text).
  { unfold start. destruct (Nat.le_gt_cases pos (length text)) as [H|H].
    - now rewrite Nat.min_l.
    - rewrite Nat.min_r by lia. now rewrite !skipn_all2 by lia. }
  rewrite Hskip.
  destruct (indexFrom segment (skipn pos text) start) as [found|] eqn:E.
  - destruct (indexFrom_Some segment w _ _ _ Hseg Hw E) as (d & -> & Hd & Hcount).
    rewrite length_skipn in Hd.
    assert (Hstart : start = pos) by (unfold start; lia).
    rewrite Hstart, IH by lia.
    rewrite Hcount, skipn_skipn. f_equal.
    replace (d + w + pos) with (pos + d + w) by lia. lia.
  - rewrite (indexFrom_None segment w _ _ E). f_equal. lia.
Qed.

(** [detectRepetitionRatio] leaves its loop: the rounds it allows suffice. *)
Lemma occurrencesLoop_total (text : jsstring) :
  100 <= length text ->
  let windowSize := Nat.min 100 (length text / 4) in
  occurrencesLoop (S (length text)) text (sliceTo text windowSize) windowSize 0 0
  = Some (countOccurrences (sliceTo text windowSize) windowSize text 0).
Proof.
  intros Hlen windowSize.
  assert (Hw : 25 <= windowSize).
  { unfold windowSize.
    assert (25 <= length text / 4) by (apply Nat.div_le_lower_bound; lia).
    lia. }
  rewrite occurrencesLoop_count; [reflexivity | | lia | lia].
  unfold sliceTo. destruct text as [|c text]; [simpl in Hlen; lia|].
  destruct windowSize; [lia | discriminate].
Qed.

(** The ratio of a text of more than 400 characters is that of its first
    100 characters. *)
Lemma detectRepetitionRatio_leading (text : jsstring) :
  400 <= length text ->
  detectRepetitionRatio text = leadingSegmentRatio text.
Proof.
  intros Hlen. unfold detectRepetitionRatio, leadingSegmentRatio.
  destruct (Nat.ltb_spec (length text) 100); [lia|].
  rewrite occurrencesLoop_total by lia.
  assert (Hw : Nat.min 100 (length text / 4) = 100).
  { assert (100 <= length text / 4) by (apply Nat.div_le_lower_bound; lia).
    lia. }
  rewrite Hw. reflexivity.
Qed.

Lemma sumLengths_join (l : list jsstring) :
  sumLengths l = Z.of_nat (length (join l)).
Proof.
  unfold join. induction l as [|c l IH]; [reflexivity|].
  cbn [sumLengths fold_right concat]. fold (sumLengths l).
  rewrite IH, length_app. lia.
Qed.

End RatioFacts.

(** C8 (as amended).  The repetition ratio is part of the loop detection of
    an ingest.  With the guard enabled, an ingest of a chunk shorter than
    the configured minimum returns without any repetition check.  An ingest
    of a chunk of at least that length, once the state holds at least
    [loopThreshold] chunks with it, throws a failover of reason [unknown]
    exactly when the consecutive-repeat check fires or the accumulated text
    exceeds 500 characters and its repetition ratio exceeds 0.6; the ratio
    is the share of the accumulated text covered by the occurrences of its
    first 100 characters, counted from left to right without overlap and
    the leading one included, and 0 when there is a single occurrence. *)
Theorem heavy_repetition_within_loop_detection {SC : StringCase} :
  forall state chunk config context now,
    QualityGuard.Cfg.enabled (QualityGuard.mergeConfig config) = true ->
    QualityGuard.totalChars state = Spec.sumLengths (QualityGuard.chunks state) ->
    let cfg := QualityGuard.mergeConfig config in
    let text := join (QualityGuard.chunks state ++ [chunk]) in
    let result := QualityGuard.checkStreamingChunk state chunk config context now in
    ((Z.of_nat (length chunk) < QualityGuard.Cfg.loopMinChunkLength cfg)%Z ->
       snd result = QualityGuard.Returned)
    /\ ((QualityGuard.Cfg.loopMinChunkLength cfg <= Z.of_nat (length chunk))%Z ->
        (1 <= QualityGuard.Cfg.loopThreshold cfg)%Z ->
        (QualityGuard.Cfg.loopThreshold cfg
         <= Z.of_nat (length (QualityGuard.chunks state)) + 1)%Z ->
        snd result
        = if (QualityGuard.Cfg.loopThreshold cfg
              <=? Z.of_nat (Spec.precedingRun (QualityGuard.chunks state) chunk) + 1)%Z
             || ((500 <? length text)
                 && gtb (Spec.leadingSegmentRatio text) (6 # 10))
          then QualityGuard.Thrown
                 (QualityGuard.failover FailoverError.unknown context)
          else QualityGuard.Returned).
Proof.
  intros state chunk config context now He Hinv. cbv zeta. split.
  - intros Hshort. unfold QualityGuard.checkStreamingChunk.
    rewrite He. cbn [negb].
    destruct (Z.leb_spec (QualityGuard.Cfg.loopMinChunkLength
                            (QualityGuard.mergeConfig config))
                         (Z.of_nat (length chunk))); [lia | reflexivity].
  - intros Hlong Ht Hcount.
    rewrite checkStreamingChunk_checked by assumption.
    destruct (checkStreamingChunk_chunks state chunk config context now)
      as (Hch & Htc & _).
    rewrite He in Hch, Htc.
    rewrite (checkForLooping_outcome _ (QualityGuard.chunks state) chunk _ _ Ht Hch).
    rewrite Htc, Hch.
    set (T := QualityGuard.Cfg.loopThreshold (QualityGuard.mergeConfig config)) in *.
    set (r := Spec.precedingRun (QualityGuard.chunks state) chunk).
    set (text := join (QualityGuard.chunks state ++ [chunk])).
    assert (Hlen : (QualityGuard.totalChars state + Z.of_nat (length chunk))%Z
                   = Z.of_nat (length text)).
    { unfold text. rewrite <- sumLengths_join, sumLengths_app, Hinv.
      cbn [Spec.sumLengths fold_right]. lia. }
    rewrite Hlen.
    destruct (Z.ltb_spec (Z.of_nat (length (QualityGuard.chunks state)) + 1) T);
      [lia|].
    replace (T - 1 <=? Z.of_nat r)%Z with (T <=? Z.of_nat r + 1)%Z.
    2:{ destruct (Z.leb_spec T (Z.of_nat r + 1));
        destruct (Z.leb_spec (T - 1) (Z.of_nat r)); lia || reflexivity. }
    destruct (T <=? Z.of_nat r + 1)%Z; [reflexivity|]. cbn [orb].
    destruct (Z.ltb_spec 500 (Z.of_nat (length text))) as [H5|H5];
      destruct (Nat.ltb_spec 500 (length text)) as [H5'|H5']; try lia;
      cbn [andb]; [|reflexivity].
    rewrite detectRepetitionRatio_leading by lia. reflexivity.
Qed.

(** ** The properties at concrete inputs *)

(** C3 at the candidates of the routing tests: a coding prompt puts codex,
    deepseek and the qwen coder first; a candidate that only its provider
    ties to a fragment is promoted; a configuration that switches routing
    off leaves the order; fragments listed by the configuration are used in
    lower case; and the default fragments, being in lower case, are matched
    as written. *)
Lemma applySmartRouting_order_witness :
  SmartRouting.applySmartRouting (SC := asciiCase) Examples.routingCandidates
                                 Examples.codingPrompt None
  = [Examples.codex; Examples.deepseek; Examples.qwen;
     Examples.gemini; Examples.llama; Examples.claude]
  /\ SmartRouting.applySmartRouting (SC := asciiCase)
       [Examples.gemini; Examples.deepseekChat] Examples.codingPrompt None
     = [Examples.deepseekChat; Examples.gemini]
  /\ SmartRouting.applySmartRouting (SC := asciiCase)
       [Examples.gemini; Examples.deepseekChat] Examples.codingPrompt
       Examples.routingOff
     = [Examples.gemini; Examples.deepseekChat]
  /\ SmartRouting.applySmartRouting (SC := asciiCase)
       [Examples.deepseekChat; Examples.gemini] Examples.codingPrompt
       Examples.geminiForCode
     = [Examples.gemini; Examples.deepseekChat]
  /\ SmartRouting.matchAffinity (SC := asciiCase) Examples.deepseekChat
       (SmartRouting.DEFAULT_ROUTING_RULES SmartRouting.code)
     = 1%Z
  /\ Spec.firstContained (SC := asciiCase)
       (SmartRouting.candidateKey (SC := asciiCase) Examples.qwen)
       (SmartRouting.DEFAULT_ROUTING_RULES SmartRouting.code)
     = Spec.firstContainedVerbatim
         (SmartRouting.candidateKey (SC := asciiCase) Examples.qwen)
         (SmartRouting.DEFAULT_ROUTING_RULES SmartRouting.code).
Proof.
  destruct (applySmartRouting_order (SC := asciiCase))
    as (Horder & Hindex & Hverbatim).
  refine (conj _ (conj _ (conj _ (conj _ (conj _ _))))).
  - rewrite Horder. vm_compute. reflexivity.
  - rewrite Horder. vm_compute. reflexivity.
  - rewrite Horder. vm_compute. reflexivity.
  - rewrite Horder. vm_compute. reflexivity.
  - rewrite Hindex. vm_compute. reflexivity.
  - apply Hverbatim. repeat constructor.
Defined.

(** C4 at a provider with a window at 30% and a window at 95%. *)
Lemma getProviderBudget_worst_window_witness :
  TokenBudget.BudgetStatus.isExhausted
    (TokenBudget.getProviderBudget (SC := asciiCase) (js "OpenAI")
                                   Examples.twoWindowUsage) = true
  /\ TokenBudget.BudgetStatus.usedPercent
       (TokenBudget.getProviderBudget (SC := asciiCase) (js "OpenAI")
                                      Examples.twoWindowUsage)
     = TokenBudget.UsageWindow.usedPercent Examples.monthlyWindow
  /\ TokenBudget.BudgetStatus.resetAt
       (TokenBudget.getProviderBudget (SC := asciiCase) (js "OpenAI")
                                      Examples.twoWindowUsage)
     = TokenBudget.UsageWindow.resetAt Examples.monthlyWindow.
Proof.
  destruct (getProviderBudget_worst_window (SC := asciiCase) (js "OpenAI")
                                           Examples.twoWindowUsage)
    as (_ & _ & _ & _ & H).
  apply (H Examples.dailyWindow Examples.monthlyWindow); reflexivity.
Defined.

(** C4 as first stated fails at a provider whose only window is at 0% and
    carries a reset time: the window is recorded and has the highest
    percentage, and the status does not carry its reset time. *)
Lemma getProviderBudget_zero_window_drops_reset :
  Spec.recordedWindows (SC := asciiCase) (js "anthropic") Examples.zeroUsage
  = [Examples.zeroWindow]
  /\ TokenBudget.BudgetStatus.usedPercent
       (TokenBudget.getProviderBudget (SC := asciiCase) (js "anthropic")
                                      Examples.zeroUsage)
     = TokenBudget.UsageWindow.usedPercent Examples.zeroWindow
  /\ TokenBudget.BudgetStatus.resetAt
       (TokenBudget.getProviderBudget (SC := asciiCase) (js "anthropic")
                                      Examples.zeroUsage)
     <> TokenBudget.UsageWindow.resetAt Examples.zeroWindow.
Proof.
  split; [reflexivity|]. split; [reflexivity|]. vm_compute. discriminate.
Qed.

(** C5 at a candidate of an exhausted provider followed by one of a fresh
    provider, and at the boundary 75 written as 150/2. *)
Lemma filterByBudget_tiers_in_order_witness :
  TokenBudget.filterByBudget (SC := asciiCase) Examples.budgetCandidates
                             Examples.budgetUsage
  = [Examples.gemini; Examples.anthropicOpus]
  /\ Spec.tier (150 # 2) = Spec.HighUsage.
Proof.
  destruct (filterByBudget_tiers_in_order (SC := asciiCase)) as (Htiers & H75 & _).
  split.
  - rewrite Htiers. vm_compute. reflexivity.
  - apply H75. reflexivity.
Defined.

(** C6 at a fresh state 35 seconds old: the stall check throws; and after
    the ingest of a chunk of 40 letters it returns. *)
Lemma stall_guards_first_nonempty_chunk_witness :
  snd (QualityGuard.checkForStall (QualityGuard.createQualityGuardState 0)
                                  None None 35000)
  = QualityGuard.Thrown (QualityGuard.failover FailoverError.timeout None)
  /\ snd (QualityGuard.checkForStall
            (Spec.run (SC := asciiCase)
               (fst (QualityGuard.checkStreamingChunk (SC := asciiCase)
                       (QualityGuard.createQualityGuardState 0)
                       (Examples.lettersA 40) None None 20000))
               [])
            None None 35000)
     = QualityGuard.Returned.
Proof.
  destruct (stall_guards_first_nonempty_chunk (SC := asciiCase)) as [Hstall Hafter].
  split.
  - destruct (Hstall (QualityGuard.createQualityGuardState 0) None None 35000%Z
                     eq_refl) as (_ & Hiff & _).
    apply Hiff. split; reflexivity.
  - assert (Hne : Examples.lettersA 40 <> []) by (vm_compute; discriminate).
    destruct (Hafter (QualityGuard.createQualityGuardState 0)
                     (Examples.lettersA 40) None None 20000%Z [] None None
                     35000%Z eq_refl Hne) as [_ Hret].
    exact Hret.
Defined.

(** C6 as first stated fails on a state that has ingested an empty chunk:
    the chunk is among the chunks of the state, and the stall check throws. *)
Lemma stall_fires_after_empty_chunk :
  QualityGuard.chunks Examples.afterEmptyChunk = [[]]
  /\ snd (QualityGuard.checkForStall Examples.afterEmptyChunk None None 31001)
     = QualityGuard.Thrown (QualityGuard.failover FailoverError.timeout None).
Proof. split; reflexivity. Qed.

(** C7 at five chunks of 60 letters fed to a fresh state, and at a state
    that has recorded 60 letters A and 60 letters B: 60 letters A follow no
    equal chunk and return, 60 letters B follow one and return, a third of
    a run would throw. *)
Lemma repeated_chunks_raise_loop_failover_witness :
  Spec.firstThrow (SC := asciiCase) (QualityGuard.createQualityGuardState 0)
                  [Spec.Ingest (Examples.lettersA 60) None None 1;
                   Spec.Ingest (Examples.lettersA 60) None None 2;
                   Spec.Ingest (Examples.lettersA 60) None None 3;
                   Spec.Ingest (Examples.lettersA 60) None None 4;
                   Spec.Ingest (Examples.lettersA 60) None None 5] 1
  = Some (3, QualityGuard.failover FailoverError.unknown None)
  /\ snd (QualityGuard.checkStreamingChunk (SC := asciiCase)
            Examples.afterLettersAB (Examples.lettersA 60) None None 3)
     = QualityGuard.Returned
  /\ snd (QualityGuard.checkStreamingChunk (SC := asciiCase)
            Examples.afterLettersAB (Examples.lettersB 60) None None 3)
     = QualityGuard.Returned
  /\ snd (QualityGuard.checkStreamingChunk (SC := asciiCase)
            Examples.afterLettersBB (Examples.lettersB 60) None None 3)
     = QualityGuard.Thrown (QualityGuard.failover FailoverError.unknown None).
Proof.
  destruct (repeated_chunks_raise_loop_failover (SC := asciiCase))
    as (Hthrows & Hexact & Hfive).
  refine (conj _ (conj _ (conj _ _))).
  - apply Hfive. reflexivity.
  - rewrite Hexact; [vm_compute; reflexivity | reflexivity
                     | vm_compute; discriminate].
  - rewrite Hexact; [vm_compute; reflexivity | reflexivity
                     | vm_compute; discriminate].
  - apply Hthrows; [reflexivity | vm_compute; discriminate
                    | vm_compute; discriminate].
Defined.

(** C8 at a state holding 200 letters A and 30 letters B that ingests 400
    letters A: no chunk is repeated, the text of 630 characters holds its
    first 100 characters six times, and the ingest throws. *)
Lemma heavy_repetition_within_loop_detection_witness :
  snd (QualityGuard.checkStreamingChunk (SC := asciiCase)
         Examples.afterMixedChunks (Examples.lettersA 400) None None 3)
  = QualityGuard.Thrown (QualityGuard.failover FailoverError.unknown None).
Proof.
  destruct (heavy_repetition_within_loop_detection (SC := asciiCase)
              Examples.afterMixedChunks (Examples.lettersA 400) None None 3%Z
              eq_refl eq_refl) as [_ H].
  rewrite H; [vm_compute; reflexivity | vm_compute; discriminate
              | vm_compute; discriminate | vm_compute; discriminate].
Defined.

(** C8 as first stated fails on a state holding 300 and 195 letters A that
    ingests 15 more: none of the three ingests throws, although the text
    then has 510 characters and a repetition ratio above 0.6. *)
Lemma short_chunk_skips_repetition_check :
  Spec.firstThrow (SC := asciiCase) (QualityGuard.createQualityGuardState 0)
                  [Spec.Ingest (Examples.lettersA 300) None None 1;
                   Spec.Ingest (Examples.lettersA 195) None None 2;
                   Spec.Ingest (Examples.lettersA 15) None None 3] 1
  = None
  /\ length (QualityGuard.chunks Examples.afterTwoChunks) = 2
  /\ length (join (QualityGuard.chunks Examples.afterTwoChunks
                   ++ [Examples.lettersA 15])) = 510
  /\ gtb (QualityGuard.detectRepetitionRatio
            (join (QualityGuard.chunks Examples.afterTwoChunks
                   ++ [Examples.lettersA 15]))) (6 # 10) = true
  /\ snd (QualityGuard.checkStreamingChunk (SC := asciiCase)
            Examples.afterTwoChunks (Examples.lettersA 15) None None 3)
     = QualityGuard.Returned.
Proof. repeat split; vm_compute; reflexivity. Qed.

(** C9 at a fresh state and a chunk of 40 letters. *)
Lemma disabled_guard_is_noop_witness :
  QualityGuard.checkStreamingChunk (SC := asciiCase)
    (QualityGuard.createQualityGuardState 0) (Examples.lettersA 40)
    (Some Examples.disabledConfig) None 60000
  = (QualityGuard.createQualityGuardState 0, QualityGuard.Returned)
  /\ QualityGuard.checkForStall (QualityGuard.createQualityGuardState 0)
       (Some Examples.disabledConfig) None 60000
     = (QualityGuard.createQualityGuardState 0, QualityGuard.Returned)
  /\ QualityGuard.checkFinalResponse (QualityGuard.createQualityGuardState 0)
       (Some Examples.disabledConfig) None
     = (QualityGuard.createQualityGuardState 0, QualityGuard.Returned).
Proof.
  apply (disabled_guard_is_noop (SC := asciiCase)). reflexivity.
Defined.

(** C2 at a prompt of spaces, a line feed and a tab, and at a coding prompt. *)
Lemma classifyTaskType_default_and_winner_witness :
  SmartRouting.classifyTaskType
    (Some [0x20; 0x20; 0x20; 0x0A; 0x09; 0x20; 0x20]%N)
  = SmartRouting.general
  /\ Spec.winner
       (Spec.matchCount (js "implement a function that sorts an array"))
       SmartRouting.code.
Proof.
  destruct classifyTaskType_default_and_winner
    as (_ & _ & Hspace & Hwinner & _).
  split.
  - apply Hspace. reflexivity.
  - assert (Hne : js "implement a function that sorts an array" <> [])
      by (vm_compute; discriminate).
    destruct (Hwinner (js "implement a function that sorts an array") Hne)
      as [_ Hw].
    assert (E : SmartRouting.classifyTaskType
                  (Some (js "implement a function that sorts an array"))
                = SmartRouting.code) by (vm_compute; reflexivity).
    exact (eq_ind _ (Spec.winner (Spec.matchCount
                       (js "implement a function that sorts an array")))
                  Hw _ E).
Defined.

(* ================================================================== *)
(** * Part IX.  Further properties of the three modules                *)
(* ================================================================== *)

(** ** Routing: fixed points, idempotence, filtering *)

Section RoutingOrderFacts.
Context {SC : StringCase}.

Import Spec SmartRouting.

Lemma sort_in_order (l : list Scored) :
  StronglySorted inOrder l -> sort compareScored l = l.
Proof.
  induction 1 as [|x l Hs IH Hx]; [reflexivity|].
  cbn [sort fold_right]. fold (sort compareScored l). rewrite IH.
  destruct l as [|y l]; [reflexivity|].
  cbn [insert]. inversion Hx as [|? ? Hxy _]; subst.
  unfold inOrder in Hxy. now rewrite Hxy.
Qed.

Lemma in_mapiFrom_inv (fragments : list jsstring) (cs : list ModelCandidate)
      (i : nat) (s : Scored) :
  In s (mapiFrom (score fragments) i cs) ->
  exists c j, s = score fragments c j /\ In c cs /\ i <= j.
Proof.
  revert i. induction cs as [|c cs IH]; intros i; cbn [mapiFrom].
  - intros [].
  - intros [<-|H].
    + exists c, i. repeat split; [now left | lia].
    + apply IH in H. destruct H as (c' & j & -> & Hc & Hj).
      exists c', j. repeat split; [now right | lia].
Qed.

Lemma srank_affinityRank (fragments : list jsstring) (c : ModelCandidate) (i : nat) :
  srank (length fragments) (score fragments c i) = affinityRank fragments c.
Proof. apply srank_score. Qed.

Lemma mapiFrom_in_order (fragments : list jsstring) (cs : list ModelCandidate)
      (i : nat) :
  inAffinityOrder fragments cs ->
  StronglySorted inOrder (mapiFrom (score fragments) i cs).
Proof.
  intros H. revert i. induction H as [|c cs Hs IH Hc]; intros i; cbn [mapiFrom].
  - constructor.
  - constructor; [apply IH|].
    apply Forall_forall. intros s Hin.
    apply in_mapiFrom_inv in Hin. destruct Hin as (c' & j & -> & Hc' & Hj).
    rewrite Forall_forall in Hc. specialize (Hc c' Hc').
    apply (inOrder_lex (length fragments)); try apply ranked_score.
    rewrite !srank_affinityRank. cbn [originalIndex score]. lia.
Qed.

(** Candidates already in affinity order are left as they are. *)
Lemma byAffinity_in_order (fragments : list jsstring) (cs : list ModelCandidate) :
  inAffinityOrder fragments cs -> byAffinity fragments cs = cs.
Proof.
  intros H. rewrite <- sorted_byAffinity. unfold mapi.
  rewrite sort_in_order by now apply mapiFrom_in_order.
  apply map_candidate_mapiFrom.
Qed.

Lemma byAffinity_perm (fragments : list jsstring) (cs : list ModelCandidate) :
  Permutation (byAffinity fragments cs) cs.
Proof.
  rewrite <- sorted_byAffinity.
  rewrite <- (map_candidate_mapiFrom fragments cs 0) at 2.
  apply Permutation_map, sort_perm.
Qed.

Lemma StronglySorted_map_in {A B} (R : A -> A -> Prop) (R' : B -> B -> Prop)
      (f : A -> B) (l : list A) :
  (forall a b, In a l -> In b l -> R a b -> R' (f a) (f b)) ->
  StronglySorted R l -> StronglySorted R' (map f l).
Proof.
  intros Hf H. induction H as [|x l Hs IH Hx]; cbn [map]; constructor.
  - apply IH. intros a b Ha Hb. apply Hf; now right.
  - rewrite Forall_forall in Hx. apply Forall_forall. intros y Hy.
    apply in_map_iff in Hy. destruct Hy as (a & <- & Ha).
    apply Hf; [now left | now right | now apply Hx].
Qed.

(** What [applySmartRouting] sorts comes out in affinity order. *)
Lemma byAffinity_sorted (fragments : list jsstring) (cs : list ModelCandidate) :
  inAffinityOrder fragments (byAffinity fragments cs).
Proof.
  rewrite <- sorted_byAffinity. unfold mapi.
  set (L := mapiFrom (score fragments) 0 cs).
  assert (HL : Forall (ranked (length fragments)) L).
  { apply Forall_forall. intros x Hx. now apply in_mapiFrom in Hx. }
  apply (StronglySorted_map_in inOrder); [|now apply (sort_sorted (length fragments))].
  intros a b Ha Hb Hab.
  assert (Ha' : In a L) by (eapply Permutation_in; [apply sort_perm | exact Ha]).
  assert (Hb' : In b L) by (eapply Permutation_in; [apply sort_perm | exact Hb]).
  rewrite Forall_forall in HL.
  apply (inOrder_lex _ a b (HL a Ha') (HL b Hb')) in Hab.
  apply in_mapiFrom_inv in Ha'. destruct Ha' as (ca & ja & -> & _ & _).
  apply in_mapiFrom_inv in Hb'. destruct Hb' as (cb & jb & -> & _ & _).
  rewrite !srank_affinityRank in Hab. cbn [candidate score]. lia.
Qed.

Lemma filter_comm {A} (p q : A -> bool) (l : list A) :
  filter p (filter q l) = filter q (filter p l).
Proof.
  induction l as [|x l IH]; [reflexivity|]. cbn [filter].
  destruct (p x) eqn:Ep, (q x) eqn:Eq; cbn [filter];
    rewrite ?Ep, ?Eq, IH; reflexivity.
Qed.

Lemma filter_flat_map {A B} (p : B -> bool) (f : A -> list B) (l : list A) :
  filter p (flat_map f l) = flat_map (fun x => filter p (f x)) l.
Proof.
  induction l as [|x l IH]; [reflexivity|].
  cbn [flat_map]. now rewrite filter_app, IH.
Qed.

(** Dropping candidates before or after the reordering is the same. *)
Lemma filter_byAffinity (p : ModelCandidate -> bool) (fragments : list jsstring)
      (cs : list ModelCandidate) :
  filter p (byAffinity fragments cs) = byAffinity fragments (filter p cs).
Proof.
  unfold byAffinity. rewrite filter_app, filter_flat_map. f_equal.
  - apply flat_map_ext. intros i. apply filter_comm.
  - apply filter_comm.
Qed.

Lemma short_inAffinityOrder (fragments : list jsstring) (cs : list ModelCandidate) :
  length cs <= 1 -> inAffinityOrder fragments cs.
Proof.
  destruct cs as [|c [|c' cs]]; cbn [length]; intros H; try lia.
  - constructor.
  - constructor; constructor.
Qed.

(** For a prompt and a configuration, [applySmartRouting] is either the
    identity on every list or the reordering by affinity on every list. *)
Lemma applySmartRouting_cases (prompt : option jsstring)
      (cfg : option SmartRoutingConfig) :
  (forall cs, applySmartRouting cs prompt cfg = cs)
  \/ (forall cs, applySmartRouting cs prompt cfg
                 = byAffinity (fragmentsFor cfg prompt) cs).
Proof.
  unfold applySmartRouting, fragmentsFor.
  destruct (isEmptyPrompt prompt); [now left|].
  set (fragments := resolveFragments (resolveSmartRoutingConfig cfg)
                                     (classifyTaskType prompt)).
  assert (Hactive :
            (forall cs : list ModelCandidate,
                (if TaskType_eqb (classifyTaskType prompt) general then cs
                 else if length fragments =? 0 then cs
                 else map candidate
                          (sort compareScored (mapi (score fragments) cs)))
                = cs)
            \/ (forall cs : list ModelCandidate,
                   (if TaskType_eqb (classifyTaskType prompt) general then cs
                    else if length fragments =? 0 then cs
                    else map candidate
                             (sort compareScored (mapi (score fragments) cs)))
                   = byAffinity fragments cs)).
  { destruct (TaskType_eqb (classifyTaskType prompt) general); [now left|].
    destruct (length fragments =? 0); [now left|].
    right. intros cs. apply sorted_byAffinity. }
  assert (Hshort : forall cs : list ModelCandidate,
             length cs <= 1 -> cs = byAffinity fragments cs).
  { intros cs H. symmetry.
    now apply byAffinity_in_order, short_inAffinityOrder. }
  destruct (enabled (resolveSmartRoutingConfig cfg)) as [[|]|];
    try (left; intros cs; now destruct (false || (length cs <=? 1)));
    (destruct Hactive as [Hid|Hsort];
     [ left; intros cs; destruct (false || (length cs <=? 1));
       [reflexivity | apply Hid]
     | right; intros cs; cbn [orb];
       destruct (Nat.leb_spec (length cs) 1) as [Hl|Hl];
       [now apply Hshort | apply Hsort] ]).
Qed.

End RoutingOrderFacts.

(** X1.  Candidates that are already in affinity order for the prompt
    (match indices never decreasing, unmatched candidates last) are returned
    by [applySmartRouting] as they are; so are candidates none of which
    matches a fragment. *)
Theorem applySmartRouting_keeps_ordered_input {SC : StringCase} :
  forall candidates prompt cfg,
    (Spec.inAffinityOrder (Spec.fragmentsFor cfg prompt) candidates ->
     SmartRouting.applySmartRouting candidates prompt cfg = candidates)
    /\ ((forall c, In c candidates ->
           SmartRouting.matchAffinity c (Spec.fragmentsFor cfg prompt) = (-1)%Z) ->
        SmartRouting.applySmartRouting candidates prompt cfg = candidates).
Proof.
  intros candidates prompt cfg.
  assert (H : Spec.inAffinityOrder (Spec.fragmentsFor cfg prompt) candidates ->
              SmartRouting.applySmartRouting candidates prompt cfg = candidates).
  { intros Hord. destruct (applySmartRouting_cases prompt cfg) as [Hid|Hsort].
    - apply Hid.
    - rewrite Hsort. now apply byAffinity_in_order. }
  split; [exact H|]. intros Hnone. apply H.
  unfold Spec.inAffinityOrder.
  assert (Hrank : forall c, In c candidates ->
            Spec.affinityRank (Spec.fragmentsFor cfg prompt) c
            = length (Spec.fragmentsFor cfg prompt)).
  { intros c Hc. specialize (Hnone c Hc).
    rewrite matchAffinity_matchIndex in Hnone. unfold Spec.affinityRank.
    destruct (Spec.matchIndex _ c); [lia | reflexivity]. }
  clear Hnone H. induction candidates as [|c cs IH]; constructor.
  - apply IH. intros x Hx. apply Hrank. now right.
  - apply Forall_forall. intros x Hx.
    rewrite (Hrank c (or_introl eq_refl)), (Hrank x (or_intror Hx)). lia.
Qed.

(** X2.  Routing a routed list again changes nothing. *)
Theorem applySmartRouting_idempotent {SC : StringCase} :
  forall candidates prompt cfg,
    SmartRouting.applySmartRouting
      (SmartRouting.applySmartRouting candidates prompt cfg) prompt cfg
    = SmartRouting.applySmartRouting candidates prompt cfg.
Proof.
  intros candidates prompt cfg.
  destruct (applySmartRouting_cases prompt cfg) as [Hid|Hsort].
  - now rewrite !Hid.
  - rewrite !Hsort. apply byAffinity_in_order, byAffinity_sorted.
Qed.

(** X3.  Removing candidates commutes with routing: the candidates that
    satisfy a test come out of [applySmartRouting] in the same order whether
    the others are removed before the call or after it. *)
Theorem applySmartRouting_commutes_with_filter {SC : StringCase} :
  forall (keep : ModelCandidate -> bool) candidates prompt cfg,
    filter keep (SmartRouting.applySmartRouting candidates prompt cfg)
    = SmartRouting.applySmartRouting (filter keep candidates) prompt cfg.
Proof.
  intros keep candidates prompt cfg.
  destruct (applySmartRouting_cases prompt cfg) as [Hid|Hsort].
  - now rewrite !Hid.
  - rewrite !Hsort. apply filter_byAffinity.
Qed.

(** X4.  The key of a candidate is its provider, a slash and its model, in
    lower case.  [matchAffinity] returns -1 exactly when no fragment, put in
    lower case, is contained in this key; otherwise it returns the index,
    below the number of fragments, of a fragment that is contained after
    fragments that are not. *)
Theorem matchAffinity_first_match {SC : StringCase} :
  forall candidate fragments,
    let key := toLowerCase (provider candidate ++ js "/" ++ model candidate) in
    let r := SmartRouting.matchAffinity candidate fragments in
    (-1 <= r < Z.of_nat (length fragments))%Z
    /\ (r = (-1)%Z <->
        forall f, In f fragments -> includes key (toLowerCase f) = false)
    /\ ((0 <= r)%Z ->
        exists f,
          nth_error fragments (Z.to_nat r) = Some f
          /\ includes key (toLowerCase f) = true
          /\ forall j g, j < Z.to_nat r -> nth_error fragments j = Some g ->
                         includes key (toLowerCase g) = false).
Proof.
  intros candidate fragments. cbv zeta.
  unfold SmartRouting.matchAffinity.
  rewrite matchAffinityFrom_firstContained.
  change (SmartRouting.candidateKey candidate)
    with (toLowerCase (provider candidate ++ js "/" ++ model candidate)).
  generalize (toLowerCase (provider candidate ++ js "/" ++ model candidate)).
  intros key.
  assert (H : match Spec.firstContained key fragments with
              | Some k =>
                k < length fragments
                /\ (exists f, nth_error fragments k = Some f
                              /\ includes key (toLowerCase f) = true)
                /\ (forall j g, j < k -> nth_error fragments j = Some g ->
                                includes key (toLowerCase g) = false)
              | None =>
                forall f, In f fragments -> includes key (toLowerCase f) = false
              end).
  { induction fragments as [|f rest IH]; cbn [Spec.firstContained].
    - intros f [].
    - destruct (includes key (toLowerCase f)) eqn:E.
      + split; [cbn; lia|]. split; [exists f; now split|]. intros j g Hj. lia.
      + destruct (Spec.firstContained key rest) as [k|]; cbn [option_map].
        * destruct IH as (Hk & (g & Hg & Hin) & Hbefore).
          split; [cbn; lia|]. split; [exists g; now split|].
          intros [|j] g' Hj; cbn [nth_error].
          -- now intros [= <-].
          -- apply Hbefore. lia.
        * intros g [<-|Hg]; [exact E | now apply IH]. }
  destruct (Spec.firstContained key fragments) as [k|].
  - destruct H as (Hk & (f & Hf & Hin) & Hbefore).
    cbn [Z.add]. split; [lia|]. split.
    + split; [lia|]. intros Hnone.
      apply nth_error_In in Hf. rewrite (Hnone f Hf) in Hin. discriminate.
    + intros _. rewrite Nat2Z.id. exists f. now repeat split.
  - split; [lia|]. split; [now split | lia].
Qed.

(** ** Budget filter: fixed points, idempotence, filtering, the pipeline *)

Section BudgetOrderFacts.
Context {SC : StringCase}.

Import Spec TokenBudget.

Lemma filter_none {A} (p : A -> bool) (l : list A) :
  (forall x, In x l -> p x = false) -> filter p l = [].
Proof.
  induction l as [|x l IH]; intros H; [reflexivity|]. cbn [filter].
  rewrite (H x (or_introl eq_refl)). apply IH. intros y Hy. apply H. now right.
Qed.

Lemma filter_all {A} (p : A -> bool) (l : list A) :
  (forall x, In x l -> p x = true) -> filter p l = l.
Proof.
  induction l as [|x l IH]; intros H; [reflexivity|]. cbn [filter].
  rewrite (H x (or_introl eq_refl)). f_equal. apply IH.
  intros y Hy. apply H. now right.
Qed.

Lemma inTier_rank (t : Tier) (usage : option UsageSummary) (c : ModelCandidate) :
  inTier t usage c = (tierRank (tierOf usage c) =? tierRank t).
Proof. unfold inTier. destruct (tierOf usage c), t; reflexivity. Qed.

(** Candidates already in tier order are left as they are. *)
Lemma tiers_in_order (usage : option UsageSummary) (cs : list ModelCandidate) :
  inTierOrder usage cs ->
  filter (inTier Fresh usage) cs ++ filter (inTier HighUsage usage) cs
  ++ filter (inTier Exhausted usage) cs = cs.
Proof.
  induction 1 as [|c cs Hs IH Hc]; [reflexivity|].
  rewrite Forall_forall in Hc. cbn [filter].
  rewrite !(inTier_rank _ usage c).
  assert (Hnone : forall t, tierRank t < tierRank (tierOf usage c) ->
                            filter (inTier t usage) cs = []).
  { intros t Ht. apply filter_none. intros x Hx. rewrite inTier_rank.
    specialize (Hc x Hx). apply Nat.eqb_neq. lia. }
  destruct (tierOf usage c) eqn:Et; cbn [tierRank Nat.eqb] in *.
  - cbn [app]. now rewrite IH.
  - rewrite (Hnone Fresh) in * by (cbn; lia).
    cbn [app] in *. now rewrite IH.
  - rewrite (Hnone Fresh), (Hnone HighUsage) in * by (cbn; lia).
    cbn [app] in *. now rewrite IH.
Qed.

Lemma StronglySorted_app {A} (R : A -> A -> Prop) (l1 l2 : list A) :
  StronglySorted R l1 -> StronglySorted R l2 ->
  (forall a b, In a l1 -> In b l2 -> R a b) ->
  StronglySorted R (l1 ++ l2).
Proof.
  intros H1 H2 H. induction H1 as [|x l1 Hs IH Hx]; [exact H2|].
  cbn [app]. constructor.
  - apply IH. intros a b Ha. apply H. now right.
  - apply Forall_app. split; [exact Hx|].
    apply Forall_forall. intros b Hb. apply H; [now left | exact Hb].
Qed.

Lemma filter_tier_sorted (t : Tier) (usage : option UsageSummary)
      (cs : list ModelCandidate) :
  inTierOrder usage (filter (inTier t usage) cs).
Proof.
  unfold inTierOrder.
  assert (H : forall x, In x (filter (inTier t usage) cs) ->
                        tierRank (tierOf usage x) = tierRank t).
  { intros x Hx. apply filter_In in Hx. destruct Hx as [_ Hx].
    rewrite inTier_rank in Hx. now apply Nat.eqb_eq in Hx. }
  induction (filter (inTier t usage) cs) as [|x l IH]; constructor.
  - apply IH. intros y Hy. apply H. now right.
  - apply Forall_forall. intros y Hy.
    rewrite (H x (or_introl eq_refl)), (H y (or_intror Hy)). lia.
Qed.

(** What [filterByBudget] concatenates is in tier order. *)
Lemma tiers_sorted (usage : option UsageSummary) (cs : list ModelCandidate) :
  inTierOrder usage
    (filter (inTier Fresh usage) cs ++ filter (inTier HighUsage usage) cs
     ++ filter (inTier Exhausted usage) cs).
Proof.
  assert (Hr : forall t x, In x (filter (inTier t usage) cs) ->
                           tierRank (tierOf usage x) = tierRank t).
  { intros t x Hx. apply filter_In in Hx. destruct Hx as [_ Hx].
    rewrite inTier_rank in Hx. now apply Nat.eqb_eq in Hx. }
  apply StronglySorted_app; [apply filter_tier_sorted | |].
  - apply StronglySorted_app; try apply filter_tier_sorted.
    intros a b Ha Hb. rewrite (Hr _ _ Ha), (Hr _ _ Hb). cbn. lia.
  - intros a b Ha Hb. rewrite (Hr _ _ Ha).
    apply in_app_or in Hb. destruct Hb as [Hb|Hb]; rewrite (Hr _ _ Hb); cbn; lia.
Qed.

Lemma short_inTierOrder (usage : option UsageSummary) (cs : list ModelCandidate) :
  length cs < 2 -> inTierOrder usage cs.
Proof.
  destruct cs as [|c [|c' cs]]; cbn [length]; intros H; try lia.
  - constructor.
  - constructor; constructor.
Qed.

(** [filterByBudget] on any list, the short ones included. *)
Lemma filterByBudget_some (cs : list ModelCandidate) (summary : UsageSummary) :
  filterByBudget cs (Some summary)
  = filter (inTier Fresh (Some summary)) cs
    ++ filter (inTier HighUsage (Some summary)) cs
    ++ filter (inTier Exhausted (Some summary)) cs.
Proof.
  rewrite filterByBudget_tiers.
  destruct (Nat.ltb_spec (length cs) 2) as [H|H]; [|reflexivity].
  symmetry. now apply tiers_in_order, short_inTierOrder.
Qed.

Lemma filter_filterByBudget (p : ModelCandidate -> bool) (cs : list ModelCandidate)
      (usage : option UsageSummary) :
  filter p (filterByBudget cs usage) = filterByBudget (filter p cs) usage.
Proof.
  destruct usage as [summary|]; [|reflexivity].
  rewrite !filterByBudget_some, !filter_app.
  now rewrite !(filter_comm p).
Qed.

End BudgetOrderFacts.

(** X5.  Candidates that are already in tier order (fresh, then high usage,
    then exhausted) are returned by [filterByBudget] as they are; in
    particular candidates that are all fresh keep their order. *)
Theorem filterByBudget_keeps_ordered_input {SC : StringCase} :
  forall candidates usageSummary,
    (Spec.inTierOrder usageSummary candidates ->
     TokenBudget.filterByBudget candidates usageSummary = candidates)
    /\ ((forall c, In c candidates ->
           Spec.tierOf usageSummary c = Spec.Fresh) ->
        TokenBudget.filterByBudget candidates usageSummary = candidates).
Proof.
  intros candidates usage.
  assert (H : Spec.inTierOrder usage candidates ->
              TokenBudget.filterByBudget candidates usage = candidates).
  { intros Hord. destruct usage as [summary|]; [|reflexivity].
    rewrite filterByBudget_some. now apply tiers_in_order. }
  split; [exact H|]. intros Hfresh. apply H. clear H. unfold Spec.inTierOrder.
  induction candidates as [|c cs IH]; constructor.
  - apply IH. intros x Hx. apply Hfresh. now right.
  - apply Forall_forall. intros x Hx.
    rewrite (Hfresh c (or_introl eq_refl)), (Hfresh x (or_intror Hx)). lia.
Qed.

(** X6.  Filtering a filtered list by the same usage summary changes
    nothing. *)
Theorem filterByBudget_idempotent {SC : StringCase} :
  forall candidates usageSummary,
    TokenBudget.filterByBudget
      (TokenBudget.filterByBudget candidates usageSummary) usageSummary
    = TokenBudget.filterByBudget candidates usageSummary.
Proof.
  intros candidates [summary|]; [|reflexivity].
  rewrite (filterByBudget_some candidates).
  rewrite filterByBudget_some. apply tiers_in_order, tiers_sorted.
Qed.

(** X7.  The pipeline of the two reorderings: with a usage summary, routing
    all candidates and then filtering by budget gives the fresh candidates
    routed among themselves, then the high-usage ones routed among
    themselves, then the exhausted ones routed among themselves.  The budget
    tier decides first, the task affinity within a tier. *)
Theorem budget_after_routing_routes_each_tier {SC : StringCase} :
  forall candidates prompt cfg summary,
    TokenBudget.filterByBudget
      (SmartRouting.applySmartRouting candidates prompt cfg) (Some summary)
    = SmartRouting.applySmartRouting
        (filter (Spec.inTier Spec.Fresh (Some summary)) candidates) prompt cfg
      ++ SmartRouting.applySmartRouting
           (filter (Spec.inTier Spec.HighUsage (Some summary)) candidates)
           prompt cfg
      ++ SmartRouting.applySmartRouting
           (filter (Spec.inTier Spec.Exhausted (Some summary)) candidates)
           prompt cfg.
Proof.
  intros candidates prompt cfg summary. rewrite filterByBudget_some.
  destruct (applySmartRouting_cases prompt cfg) as [Hid|Hsort].
  - now rewrite !Hid.
  - now rewrite !Hsort, !filter_byAffinity.
Qed.

(** X8.  [applyBudgetSteering] never blocks routing: when loading the usage
    data fails it returns the candidates as given, and in every case it
    returns a permutation of them. *)
Theorem applyBudgetSteering_never_drops {SC : StringCase} :
  forall candidates loaded,
    Permutation candidates (TokenBudget.applyBudgetSteering candidates loaded)
    /\ (loaded = TokenBudget.Rejected ->
        TokenBudget.applyBudgetSteering candidates loaded = candidates)
    /\ (loaded = TokenBudget.Resolved None ->
        TokenBudget.applyBudgetSteering candidates loaded = candidates).
Proof.
  intros candidates loaded. split; [|split; intros ->; reflexivity].
  destruct loaded as [[summary|]|]; cbn [TokenBudget.applyBudgetSteering];
    try apply Permutation_refl.
  rewrite filterByBudget_some. apply Permutation_sym, tiers_perm.
Qed.

(** ** Quality guard: final check, bounds, runs that never throw *)

Section GuardRunFacts.
Context {SC : StringCase}.

Import QualityGuard Spec.

Lemma startsWith_length (p s : jsstring) :
  startsWith p s = true -> length p <= length s.
Proof.
  revert s. induction p as [|x p IH]; intros [|y s] H; cbn [length]; try lia.
  - discriminate H.
  - cbn [startsWith] in H. destruct (x =? y)%N; [|discriminate H].
    specialize (IH s H). lia.
Qed.

(** The occurrences counted do not overlap: together they fit in the text. *)
Lemma countOccurrences_fit (segment : jsstring) (w : nat) :
  length segment = w -> 1 <= w ->
  forall text k, countOccurrences segment w text k * w <= length text - k.
Proof.
  intros Hlen Hw. induction text as [|c rest IH]; intros k; [cbn; lia|].
  cbn [countOccurrences]. destruct k as [|k].
  - destruct (startsWith segment (c :: rest)) eqn:E.
    + apply startsWith_length in E. cbn [length] in *.
      specialize (IH (w - 1)). lia.
    + specialize (IH 0). cbn [length]. lia.
  - specialize (IH k). cbn [length]. lia.
Qed.

Lemma detectRepetitionRatio_cases (text : jsstring) :
  detectRepetitionRatio text = 0%Q
  \/ exists occurrences windowSize,
       detectRepetitionRatio text
       = (inject_Z (Z.of_nat (occurrences * windowSize))
          / inject_Z (Z.of_nat (length text)))%Q
       /\ occurrences * windowSize <= length text /\ 100 <= length text.
Proof.
  unfold detectRepetitionRatio.
  destruct (Nat.ltb_spec (length text) 100) as [Hshort|Hlong]; [now left|].
  rewrite (occurrencesLoop_total text Hlong). cbn zeta.
  set (w := Nat.min 100 (length text / 4)).
  destruct (countOccurrences (sliceTo text w) w text 0 <=? 1); [now left|].
  right. exists (countOccurrences (sliceTo text w) w text 0), w.
  split; [reflexivity|]. split; [|exact Hlong].
  assert (Hw : 25 <= w <= length text).
  { subst w. pose proof (Nat.Div0.div_le_upper_bound (length text) 4 (length text)).
    assert (25 <= length text / 4) by (apply Nat.div_le_lower_bound; lia).
    assert (length text / 4 <= length text)
      by (apply Nat.Div0.div_le_upper_bound; lia).
    lia. }
  pose proof (countOccurrences_fit (sliceTo text w) w) as Hfit.
  specialize (Hfit ltac:(unfold sliceTo; rewrite length_firstn; lia) ltac:(lia) text 0).
  lia.
Qed.

Lemma step_startedAt (state : QualityGuardState) (op : Op) :
  startedAt (fst (step state op)) = startedAt state.
Proof.
  destruct op as [chunk config context now|config context now|config context];
    cbn [step].
  - apply checkStreamingChunk_chunks.
  - now rewrite checkForStall_outcome.
  - unfold checkFinalResponse.
    destruct (negb (Cfg.enabled (mergeConfig config))); [easy|].
    now destruct (totalChars state <? _)%Z.
Qed.

Lemma step_firstChunkAt_value (state : QualityGuardState) (op : Op) (t : Z) :
  firstChunkAt state = Some t -> t <> 0%Z ->
  firstChunkAt (fst (step state op)) = Some t.
Proof.
  intros Ht Hnz.
  destruct op as [chunk config context now|config context now|config context];
    cbn [step].
  - unfold checkStreamingChunk. rewrite Ht. cbn [noFirstChunk].
    apply Z.eqb_neq in Hnz. rewrite Hnz. cbn [andb].
    destruct (negb _); [exact Ht|].
    destruct (_ <=? _)%Z; cbn [fst firstChunkAt]; exact Ht.
  - now rewrite checkForStall_outcome.
  - unfold checkFinalResponse.
    destruct (negb (Cfg.enabled (mergeConfig config))); [easy|].
    now destruct (totalChars state <? _)%Z.
Qed.

Lemma run_firstChunkAt_value (ops : list Op) (state : QualityGuardState) (t : Z) :
  firstChunkAt state = Some t -> t <> 0%Z ->
  firstChunkAt (run state ops) = Some t.
Proof.
  revert state. induction ops as [|op ops IH]; intros state Ht Hnz; [exact Ht|].
  cbn [run fold_left]. apply IH; [|exact Hnz].
  now apply step_firstChunkAt_value.
Qed.

Lemma run_startedAt (ops : list Op) (state : QualityGuardState) :
  startedAt (run state ops) = startedAt state.
Proof.
  revert state. induction ops as [|op ops IH]; intros state; [reflexivity|].
  cbn [run fold_left]. fold (run (fst (step state op)) ops).
  rewrite IH. apply step_startedAt.
Qed.

End GuardRunFacts.

Section IngestFacts.
Context {SC : StringCase}.

Import QualityGuard Spec.

(** An ingest with the guard enabled: the loop check runs on the state that
    already holds the chunk, and only for chunks of the minimal length. *)
Lemma ingest_outcome state chunk config context now :
  Cfg.enabled (mergeConfig config) = true ->
  exists state',
    checkStreamingChunk state chunk config context now
    = (state',
       if (Cfg.loopMinChunkLength (mergeConfig config) <=? Z.of_nat (length chunk))%Z
       then checkForLooping state' chunk (mergeConfig config) context
       else Returned)
    /\ chunks state' = chunks state ++ [chunk]
    /\ totalChars state' = (totalChars state + Z.of_nat (length chunk))%Z.
Proof.
  intros Hen. unfold checkStreamingChunk. rewrite Hen. cbn [negb].
  set (state1 := if noFirstChunk (firstChunkAt state) && (0 <? length chunk)
                 then _ else state).
  assert (H1 : chunks state1 = chunks state /\ totalChars state1 = totalChars state).
  { subst state1. now destruct (_ && _). }
  destruct H1 as [Hc Ht]. eexists. split.
  - destruct (_ <=? _)%Z; reflexivity.
  - cbn [chunks totalChars]. now rewrite Hc, Ht.
Qed.

Lemma ingest_disabled state chunk config context now :
  Cfg.enabled (mergeConfig config) = false ->
  checkStreamingChunk state chunk config context now = (state, Returned).
Proof. intros Hen. unfold checkStreamingChunk. now rewrite Hen. Qed.

(** Before [loopThreshold] chunks have been ingested, no ingest throws. *)
Lemma ingest_early state chunk config context now :
  (Z.of_nat (length (chunks state)) + 1 < Cfg.loopThreshold (mergeConfig config))%Z ->
  snd (checkStreamingChunk state chunk config context now) = Returned.
Proof.
  intros Hfew. destruct (Cfg.enabled (mergeConfig config)) eqn:Hen.
  - destruct (ingest_outcome state chunk config context now Hen)
      as (state' & -> & Hc & _). cbn [snd].
    destruct (_ <=? _)%Z; [|reflexivity].
    rewrite (checkForLooping_outcome state' (chunks state) chunk _ context)
      by (lia || exact Hc).
    destruct (Z.ltb_spec (Z.of_nat (length (chunks state)) + 1)
                         (Cfg.loopThreshold (mergeConfig config))); [reflexivity|lia].
  - now rewrite ingest_disabled.
Qed.

Lemma ingest_length state chunk config context now :
  length (chunks (fst (checkStreamingChunk state chunk config context now)))
  <= S (length (chunks state)).
Proof.
  destruct (checkStreamingChunk_chunks state chunk config context now) as (-> & _).
  destruct (Cfg.enabled _); [rewrite length_app; cbn; lia | lia].
Qed.

Lemma ingest_firstChunkAt_fresh state chunk config context now :
  firstChunkAt state = None ->
  firstChunkAt (fst (checkStreamingChunk state chunk config context now))
  = if Cfg.enabled (mergeConfig config) then
      if 0 <? length chunk then Some now else None
    else None.
Proof.
  intros Hnone. unfold checkStreamingChunk. rewrite Hnone. cbn [noFirstChunk andb].
  destruct (Cfg.enabled (mergeConfig config)); cbn [negb]; [|exact Hnone].
  destruct (0 <? length chunk), (_ <=? _)%Z; cbn [fst firstChunkAt]; easy.
Qed.

End IngestFacts.

(** X9.  The final check after any sequence of operations on a fresh state:
    it leaves the state as it is, and with the guard enabled it throws a
    failover error of reason [unknown] exactly when the chunks ingested so
    far hold fewer than [minResponseChars] characters in total. *)
Theorem checkFinalResponse_counts_ingested_chars {SC : StringCase} :
  forall start ops config context,
    let state := Spec.run (QualityGuard.createQualityGuardState start) ops in
    let cfg := QualityGuard.mergeConfig config in
    QualityGuard.checkFinalResponse state config context
    = (state,
       if QualityGuard.Cfg.enabled cfg then
         if (Spec.sumLengths (Spec.ingested ops)
             <? QualityGuard.Cfg.minResponseChars cfg)%Z
         then QualityGuard.Thrown
                (QualityGuard.failover FailoverError.unknown context)
         else QualityGuard.Returned
       else QualityGuard.Returned).
Proof.
  intros start ops config context state cfg.
  assert (Ht : QualityGuard.totalChars state = Spec.sumLengths (Spec.ingested ops)).
  { subst state. rewrite run_invariant by reflexivity.
    now rewrite run_chunks. }
  unfold QualityGuard.checkFinalResponse. fold cfg. rewrite Ht.
  destruct (QualityGuard.Cfg.enabled cfg); cbn [negb]; [|reflexivity].
  now destruct (_ <? _)%Z.
Qed.

(** X10.  The repetition ratio is a share of the text: it lies between 0
    and 1 for every text. *)
Theorem detectRepetitionRatio_is_a_share :
  forall text,
    (0 <= QualityGuard.detectRepetitionRatio text)%Q
    /\ (QualityGuard.detectRepetitionRatio text <= 1)%Q.
Proof.
  intros text.
  destruct (detectRepetitionRatio_cases text)
    as [-> | (occ & w & -> & Hfit & Hlong)]; [split; discriminate|].
  assert (Hpos : (0 < inject_Z (Z.of_nat (length text)))%Q).
  { rewrite <- (Zlt_Qlt 0). lia. }
  split.
  - apply Qle_shift_div_l; [exact Hpos|]. rewrite Qmult_0_l.
    rewrite <- (Zle_Qle 0). lia.
  - apply Qle_shift_div_r; [exact Hpos|]. rewrite Qmult_1_l.
    rewrite <- Zle_Qle. lia.
Qed.

(** X11.  A stream too short to show a loop never trips the guard: ingests
    that bring the number of recorded chunks to less than [loopThreshold]
    all return, whatever the chunks hold. *)
Theorem short_stream_never_throws {SC : StringCase} :
  forall state config items n,
    (Z.of_nat (length (QualityGuard.chunks state) + length items)
     < QualityGuard.Cfg.loopThreshold (QualityGuard.mergeConfig config))%Z ->
    Spec.firstThrow state (Spec.ingests config items) n = None.
Proof.
  intros state config items. revert state.
  induction items as [|[[chunk context] now] items IH]; intros state n Hfew;
    [reflexivity|].
  cbn [Spec.ingests map fst snd Spec.firstThrow Spec.step].
  pose proof (ingest_early state chunk config context now) as Hret.
  pose proof (ingest_length state chunk config context now) as Hlen.
  destruct (QualityGuard.checkStreamingChunk state chunk config context now)
    as [state' out]. cbn [fst snd] in *.
  cbn [length] in Hfew. rewrite Hret by lia.
  apply IH. lia.
Qed.

(** X12.  No false alarm on fresh, short output: with fewer than
    [loopThreshold - 1] consecutive earlier chunks equal to the chunk and no
    more than 500 characters recorded in total, the ingest returns. *)
Theorem unrepeated_short_output_returns {SC : StringCase} :
  forall state chunk config context now,
    (Z.of_nat (Spec.precedingRun (QualityGuard.chunks state) chunk) + 1
     < QualityGuard.Cfg.loopThreshold (QualityGuard.mergeConfig config))%Z ->
    (QualityGuard.totalChars state + Z.of_nat (length chunk) <= 500)%Z ->
    snd (QualityGuard.checkStreamingChunk state chunk config context now)
    = QualityGuard.Returned.
Proof.
  intros state chunk config context now Hrun Hsize.
  destruct (QualityGuard.Cfg.enabled (QualityGuard.mergeConfig config)) eqn:Hen.
  - destruct (ingest_outcome state chunk config context now Hen)
      as (state' & -> & Hc & Ht). cbn [snd].
    destruct (_ <=? _)%Z; [|reflexivity].
    rewrite (checkForLooping_outcome state' (QualityGuard.chunks state) chunk
                                     _ context) by (lia || exact Hc).
    destruct (_ <? _)%Z; [reflexivity|].
    destruct (Z.leb_spec
                (QualityGuard.Cfg.loopThreshold (QualityGuard.mergeConfig config) - 1)
                (Z.of_nat (Spec.precedingRun (QualityGuard.chunks state) chunk)));
      [lia|].
    rewrite Ht. destruct (Z.ltb_spec 500 (QualityGuard.totalChars state
                                          + Z.of_nat (length chunk))); [lia|].
    reflexivity.
  - now rewrite ingest_disabled.
Qed.

(** X13.  The time of the first chunk is set once: after any sequence of
    operations on a fresh state, [firstChunkAt] is the time of the first
    ingest that recorded a non-empty chunk ([null] if there was none), and
    [startedAt] is the time of creation.  The clock must not read 0 at an
    ingest: a first chunk stamped 0 counts as "no chunk yet" and is
    overwritten. *)
Theorem firstChunkAt_is_first_output {SC : StringCase} :
  forall start ops,
    Forall Spec.clockStarted ops ->
    let state := Spec.run (QualityGuard.createQualityGuardState start) ops in
    QualityGuard.firstChunkAt state = Spec.firstOutputAt ops
    /\ QualityGuard.startedAt state = start.
Proof.
  intros start ops Hclock state. subst state. split; [|apply run_startedAt].
  assert (H : forall s, QualityGuard.firstChunkAt s = None ->
                        QualityGuard.firstChunkAt (Spec.run s ops)
                        = Spec.firstOutputAt ops).
  { induction Hclock as [|op ops Hop Hops IH]; intros s Hs; [exact Hs|].
    cbn [Spec.run fold_left]. fold (Spec.run (fst (Spec.step s op)) ops).
    destruct op as [chunk config context now|config context now|config context];
      cbn [Spec.step Spec.firstOutputAt Spec.clockStarted] in *.
    - pose proof (ingest_firstChunkAt_fresh s chunk config context now Hs) as Hf.
      destruct (QualityGuard.Cfg.enabled (QualityGuard.mergeConfig config));
        [|now apply IH].
      destruct (0 <? length chunk); [|now apply IH].
      now apply run_firstChunkAt_value.
    - apply IH. now rewrite checkForStall_outcome.
    - apply IH. unfold QualityGuard.checkFinalResponse.
      destruct (negb _); [exact Hs|]. now destruct (_ <? _)%Z. }
  now apply H.
Qed.


(** ** The properties above at concrete inputs *)

(** X1 at candidates that a coding prompt finds in affinity order. *)
Lemma applySmartRouting_keeps_ordered_input_witness :
  SmartRouting.applySmartRouting (SC := asciiCase)
    [Examples.codex; Examples.deepseek; Examples.qwen; Examples.gemini]
    Examples.codingPrompt None
  = [Examples.codex; Examples.deepseek; Examples.qwen; Examples.gemini].
Proof.
  apply (proj1 (applySmartRouting_keeps_ordered_input (SC := asciiCase) _ _ _)).
  unfold Spec.inAffinityOrder.
  repeat first [apply SSorted_nil | apply SSorted_cons
               | apply Forall_nil | apply Forall_cons];
    vm_compute; lia.
Defined.

(** X4 at a candidate that only its provider ties to a fragment: the
    default fragments for code are codex, deepseek, qwen and coder, and the
    key deepseek/chat contains the second and not the first. *)
Lemma matchAffinity_first_match_witness :
  SmartRouting.matchAffinity (SC := asciiCase) Examples.deepseekChat
    (SmartRouting.DEFAULT_ROUTING_RULES SmartRouting.code)
  = 1%Z.
Proof.
  destruct (matchAffinity_first_match
              (SC := asciiCase) Examples.deepseekChat
              (SmartRouting.DEFAULT_ROUTING_RULES SmartRouting.code))
    as (Hbounds & Hnone & Hsome).
  set (r := SmartRouting.matchAffinity (SC := asciiCase) Examples.deepseekChat
              (SmartRouting.DEFAULT_ROUTING_RULES SmartRouting.code)) in *.
  assert (Hlen : length (SmartRouting.DEFAULT_ROUTING_RULES SmartRouting.code) = 4)
    by reflexivity.
  rewrite Hlen in Hbounds.
  assert (Hmatched : (0 <= r)%Z).
  { destruct (Z.eq_dec r (-1)) as [E|E]; [|lia].
    assert (Hin : In (js "deepseek")
                     (SmartRouting.DEFAULT_ROUTING_RULES SmartRouting.code))
      by (right; left; reflexivity).
    pose proof (proj1 Hnone E (js "deepseek") Hin) as Hnot.
    vm_compute in Hnot. discriminate Hnot. }
  destruct (Hsome Hmatched) as (f & Hf & Hcontained & Hearlier).
  assert (Hcases : r = 0%Z \/ r = 1%Z \/ r = 2%Z \/ r = 3%Z) by lia.
  destruct Hcases as [E|[E|[E|E]]]; rewrite E in *; [|reflexivity| |].
  - injection Hf as <-. vm_compute in Hcontained. discriminate Hcontained.
  - specialize (Hearlier 1 (js "deepseek")).
    assert (H : includes
                  (@toLowerCase asciiCase
                     (provider Examples.deepseekChat ++ js "/"
                      ++ model Examples.deepseekChat))
                  (@toLowerCase asciiCase (js "deepseek")) = false)
      by (apply Hearlier; [cbn; lia | reflexivity]).
    vm_compute in H. discriminate H.
  - specialize (Hearlier 1 (js "deepseek")).
    assert (H : includes
                  (@toLowerCase asciiCase
                     (provider Examples.deepseekChat ++ js "/"
                      ++ model Examples.deepseekChat))
                  (@toLowerCase asciiCase (js "deepseek")) = false)
      by (apply Hearlier; [cbn; lia | reflexivity]).
    vm_compute in H. discriminate H.
Defined.

(** X5 at a fresh candidate followed by an exhausted one. *)
Lemma filterByBudget_keeps_ordered_input_witness :
  TokenBudget.filterByBudget (SC := asciiCase)
    [Examples.gemini; Examples.anthropicOpus] Examples.budgetUsage
  = [Examples.gemini; Examples.anthropicOpus].
Proof.
  apply (proj1 (filterByBudget_keeps_ordered_input (SC := asciiCase) _ _)).
  unfold Spec.inTierOrder.
  repeat first [apply SSorted_nil | apply SSorted_cons
               | apply Forall_nil | apply Forall_cons];
    vm_compute; lia.
Defined.

(** X11 at two equal chunks of 60 letters fed to a fresh state under the
    default threshold of 3. *)
Lemma short_stream_never_throws_witness :
  Spec.firstThrow (SC := asciiCase) (QualityGuard.createQualityGuardState 0)
    (Spec.ingests None [(Examples.lettersA 60, None, 1%Z);
                        (Examples.lettersA 60, None, 2%Z)]) 0
  = None.
Proof.
  apply (short_stream_never_throws (SC := asciiCase)).
  vm_compute. reflexivity.
Defined.

(** X12 at a state holding 200 letters A and 30 letters B that ingests the
    30 letters B a second time. *)
Lemma unrepeated_short_output_returns_witness :
  snd (QualityGuard.checkStreamingChunk (SC := asciiCase)
         Examples.afterMixedChunks (Examples.lettersB 30) None None 3)
  = QualityGuard.Returned.
Proof.
  apply (unrepeated_short_output_returns (SC := asciiCase));
    vm_compute; [reflexivity | discriminate].
Defined.

(** X13 at an empty chunk, a stall check and two chunks of letters. *)
Lemma firstChunkAt_is_first_output_witness :
  QualityGuard.firstChunkAt
    (Spec.run (SC := asciiCase) (QualityGuard.createQualityGuardState 1)
       [Spec.Ingest [] None None 5; Spec.StallCheck None None 6;
        Spec.Ingest (Examples.lettersA 3) None None 7;
        Spec.Ingest (Examples.lettersB 3) None None 9])
  = Some 7%Z.
Proof.
  refine (proj1 (firstChunkAt_is_first_output (SC := asciiCase) 1 _ _)).
  repeat constructor; cbn; discriminate.
Defined.


(* ================================================================== *)
(** * Part X.  Model discovery                                         *)
(* ================================================================== *)

Section DiscoveryFacts.
Context {SC : StringCase}.

Import ModelDiscovery.

Lemma jsstring_eqb_eq (a b : jsstring) : eqb a b = true <-> a = b.
Proof.
  revert b. induction a as [|x a IH]; intros [|y b]; cbn [eqb];
    try (split; [discriminate | discriminate]); [easy|].
  destruct (N.eqb_spec x y) as [->|Hne].
  - rewrite IH. split; [now intros -> | now intros [= ->]].
  - split; [discriminate | intros [= H _]; contradiction].
Qed.

Lemma has_In (s : list jsstring) (x : jsstring) : has s x = true <-> In x s.
Proof.
  unfold has. rewrite existsb_exists. split.
  - intros (y & Hy & E). apply jsstring_eqb_eq in E. now subst y.
  - intros H. exists x. split; [exact H | now apply jsstring_eqb_eq].
Qed.

Lemma has_app (s t : list jsstring) (x : jsstring) :
  has (s ++ t) x = has s x || has t x.
Proof. unfold has. apply existsb_app. Qed.

(** The loop of [discoverFreeOpenRouterModels] keeps, in scan order, the
    results that are new and report tool support. *)
Lemma keepNew_fold (file : File) (cfg : option OpenClawConfig.t) (now : Z)
      (results : list ScanResult.t) (acc : list DiscoveredModel.t) :
  fold_left (keepNew (map DiscoveredModel.id
                          (DiscoveryState.models (loadDiscoveryState file)))
                     (collectConfigIds cfg) now) results acc
  = acc ++ map (discovered now) (filter (Spec.isNewToolModel file cfg) results).
Proof.
  revert acc. induction results as [|r results IH]; intros acc;
    [now rewrite app_nil_r|].
  cbn [fold_left filter]. rewrite IH. unfold keepNew, Spec.isNewToolModel at 2.
  unfold Spec.knownIds. rewrite has_app.
  destruct (has _ (ScanResult.id r)); cbn [orb negb].
  - now destruct (ScanResult.supportsToolsMeta r).
  - destruct (has _ (ScanResult.id r)); cbn [negb].
    + now destruct (ScanResult.supportsToolsMeta r).
    + destruct (ScanResult.supportsToolsMeta r); cbn [negb map]; [|reflexivity].
      now rewrite <- app_assoc.
Qed.

Lemma discover_outcome (file : File) (cfg : option OpenClawConfig.t)
      (minParamB maxAgeDays : option Q)
      (scan : ScanRequest.t -> Settled (list ScanResult.t)) (now : Z) :
  discoverFreeOpenRouterModels file cfg minParamB maxAgeDays scan now
  = match scan (scanRequest minParamB maxAgeDays) with
    | Fulfilled results =>
      Fulfilled (map (discovered now)
                     (filter (Spec.isNewToolModel file cfg) results))
    | Rejected => Rejected
    end.
Proof.
  unfold discoverFreeOpenRouterModels.
  destruct (scan _); [|reflexivity]. now rewrite keepNew_fold.
Qed.

Variable pulls : jsstring -> bool.

(** One round of the loop of [installRecommendedOllamaModels]. *)
Lemma installOne_wanted (maxGb : Q) (categories : option (list jsstring))
      (names : list jsstring) (rec : Recommended.t)
      (pulled : list jsstring) (calls : list Call) :
  installOne pulls maxGb categories (map toLowerCase names) (pulled, calls) rec
  = if (if Spec.wanted maxGb categories names rec
        then pulls (Recommended.id rec) else false)
    then (pulled ++ [Recommended.id rec], calls ++ [OnInstalled (Recommended.id rec)])
    else (pulled, calls).
Proof.
  unfold installOne, Spec.wanted, gtb.
  destruct (has _ (toLowerCase (Recommended.id rec))); [reflexivity|].
  destruct (Qle_bool (Recommended.sizeGb rec) maxGb); cbn [negb]; [|reflexivity].
  destruct categories as [cs|]; [|reflexivity].
  now destruct (has cs (Recommended.category rec)).
Qed.

(** The loop pulls, in the order of the list, the wanted models, and
    reports those whose download succeeds. *)
Lemma installOne_fold (maxGb : Q) (categories : option (list jsstring))
      (names : list jsstring) (recs : list Recommended.t)
      (pulled : list jsstring) (calls : list Call) :
  fold_left (installOne pulls maxGb categories (map toLowerCase names)) recs
            (pulled, calls)
  = (pulled
     ++ map Recommended.id
            (filter (fun rec => if Spec.wanted maxGb categories names rec
                                then pulls (Recommended.id rec) else false) recs),
     calls
     ++ map OnInstalled
            (map Recommended.id
                 (filter (fun rec => if Spec.wanted maxGb categories names rec
                                     then pulls (Recommended.id rec) else false)
                         recs))).
Proof.
  revert pulled calls. induction recs as [|rec recs IH]; intros pulled calls;
    [cbn; now rewrite !app_nil_r|].
  cbn [fold_left filter]. rewrite installOne_wanted.
  destruct (if Spec.wanted maxGb categories names rec
            then pulls (Recommended.id rec) else false); rewrite IH;
    [|reflexivity].
  cbn [map]. now rewrite <- !app_assoc.
Qed.

Lemma install_outcome (maxSizeGb : option Q) (categories : option (list jsstring))
      (tags : TagsResponse) :
  let ids :=
    map Recommended.id
        (filter (fun rec =>
                   if Spec.wanted (orDefault maxSizeGb 8%Q) categories
                                  (listOllamaModels tags) rec
                   then pulls (Recommended.id rec) else false)
                RECOMMENDED_OLLAMA_MODELS) in
  installRecommendedOllamaModels pulls maxSizeGb categories tags
  = (ids, map OnInstalled ids).
Proof.
  cbn zeta. unfold installRecommendedOllamaModels.
  now rewrite (installOne_fold _ _ _ RECOMMENDED_OLLAMA_MODELS [] []).
Qed.

(** The file that a sync leaves behind and what it settles to. *)
Lemma sync_outcome (file : File) (cfg : option OpenClawConfig.t)
      (autoInstallOllama : option bool) (ollamaMaxSizeGb : option Q)
      (scan : ScanRequest.t -> Settled (list ScanResult.t))
      (tags : TagsResponse) (clock : Clock) :
  match syncFreeModels pulls file cfg autoInstallOllama ollamaMaxSizeGb
                       scan tags clock with
  | (file', _, Rejected) =>
    file' = file /\ scan (scanRequest None None) = Rejected
  | (file', _, Fulfilled result) =>
    exists results,
      scan (scanRequest None None) = Fulfilled results
      /\ openRouterNew result
         = map (discovered (atDiscovery clock))
               (filter (Spec.isNewToolModel file cfg) results)
      /\ ollamaPulled result
         = match autoInstallOllama with
           | Some false => []
           | _ => fst (installRecommendedOllamaModels
                         pulls (Some (orDefault ollamaMaxSizeGb 8%Q)) None tags)
           end
      /\ file'
         = Stored {| DiscoveryState.lastScanAt := atSave clock;
                     DiscoveryState.models :=
                       DiscoveryState.models (loadDiscoveryState file)
                       ++ openRouterNew result
                       ++ map (installed (atInstall clock))
                              (ollamaPulled result) |}
  end.
Proof.
  unfold syncFreeModels. rewrite discover_outcome.
  destruct (scan (scanRequest None None)) as [results|]; [|now split].
  destruct autoInstallOllama as [[|]|];
    try destruct (installRecommendedOllamaModels _ _ _ _) as [pulled calls];
    cbn [fst openRouterNew ollamaPulled saveDiscoveryState];
    exists results; repeat split; try now rewrite <- app_assoc.
  now rewrite app_nil_r.
Qed.

End DiscoveryFacts.

(** X15.  [discoverFreeOpenRouterModels] returns only genuinely new models
    that support tool calls: when the scan succeeds, the models returned are,
    in scan order, those of the scan results that report tool support and
    whose id is neither in the discovery file nor in the configuration; each
    is an OpenRouter model stamped with the time of the discovery. *)
Theorem discover_returns_new_tool_models :
  forall file cfg minParamB maxAgeDays scan now results,
    scan (ModelDiscovery.scanRequest minParamB maxAgeDays)
    = ModelDiscovery.Fulfilled results ->
    exists newModels,
      ModelDiscovery.discoverFreeOpenRouterModels
        file cfg minParamB maxAgeDays scan now
      = ModelDiscovery.Fulfilled newModels
      /\ map ModelDiscovery.DiscoveredModel.id newModels
         = map ModelDiscovery.ScanResult.id
               (filter (Spec.isNewToolModel file cfg) results)
      /\ Forall (fun m =>
                   ModelDiscovery.DiscoveredModel.provider m
                   = ModelDiscovery.openrouter
                   /\ ModelDiscovery.DiscoveredModel.supportsTools m = true
                   /\ ModelDiscovery.DiscoveredModel.discoveredAt m = now
                   /\ ~ In (ModelDiscovery.DiscoveredModel.id m)
                           (Spec.knownIds file cfg))
                newModels.
Proof.
  intros file cfg minParamB maxAgeDays scan now results Hscan.
  rewrite discover_outcome, Hscan. eexists. split; [reflexivity|]. split.
  - rewrite map_map. reflexivity.
  - apply Forall_forall. intros m Hm. apply in_map_iff in Hm.
    destruct Hm as (r & <- & Hr). apply filter_In in Hr. destruct Hr as [_ Hr].
    unfold Spec.isNewToolModel in Hr.
    destruct (ModelDiscovery.ScanResult.supportsToolsMeta r) eqn:Htools;
      [|discriminate Hr].
    cbn [ModelDiscovery.discovered ModelDiscovery.DiscoveredModel.provider
         ModelDiscovery.DiscoveredModel.supportsTools
         ModelDiscovery.DiscoveredModel.discoveredAt
         ModelDiscovery.DiscoveredModel.id].
    repeat split; try assumption.
    intros Hin. apply has_In in Hin. rewrite Hin in Hr. discriminate Hr.
Qed.

(** X16.  A sync leaves nothing to discover: after [syncFreeModels] has
    succeeded, a discovery over the same catalogue and configuration returns
    no model. *)
Theorem discovery_after_sync_finds_nothing {SC : StringCase} :
  forall pulls file cfg autoInstallOllama ollamaMaxSizeGb scan tags clock
         file' calls result now,
    ModelDiscovery.syncFreeModels pulls file cfg autoInstallOllama
                                  ollamaMaxSizeGb scan tags clock
    = (file', calls, ModelDiscovery.Fulfilled result) ->
    ModelDiscovery.discoverFreeOpenRouterModels file' cfg None None scan now
    = ModelDiscovery.Fulfilled [].
Proof.
  intros pulls file cfg auto maxGb scan tags clock file' calls result now Hsync.
  pose proof (sync_outcome pulls file cfg auto maxGb scan tags clock) as H.
  rewrite Hsync in H. destruct H as (results & Hscan & Hnew & _ & Hfile).
  rewrite discover_outcome, Hscan. f_equal.
  replace (filter (Spec.isNewToolModel file' cfg) results) with
    (@nil ModelDiscovery.ScanResult.t); [reflexivity|].
  symmetry. apply filter_none. intros r Hr.
  unfold Spec.isNewToolModel.
  destruct (ModelDiscovery.ScanResult.supportsToolsMeta r) eqn:Htools;
    [|reflexivity].
  apply negb_false_iff, has_In.
  unfold Spec.knownIds. subst file'.
  cbn [ModelDiscovery.loadDiscoveryState ModelDiscovery.DiscoveryState.models].
  rewrite !map_app, Hnew.
  destruct (Spec.isNewToolModel file cfg r) eqn:Hnewr.
  - apply in_or_app. left. apply in_or_app. right. apply in_or_app. left.
    rewrite map_map. apply in_map_iff. exists r. split; [reflexivity|].
    apply filter_In. now split.
  - unfold Spec.isNewToolModel in Hnewr. rewrite Htools in Hnewr.
    apply negb_false_iff, has_In in Hnewr. unfold Spec.knownIds in Hnewr.
    apply in_app_or in Hnewr. apply in_or_app.
    destruct Hnewr as [Hold|Hcfg]; [left | now right].
    apply in_or_app. now left.
Qed.

(** X17.  [syncFreeModels] only appends to the discovery file.  It asks for
    a scan of the catalogue without probing, for models of at least 7
    billion parameters at most 90 days old.  If this scan fails, the sync
    fails, having announced the scan, and the file is left as it was.  If
    the scan succeeds, the sync succeeds: it returns the new models of the
    scan that support tools and the Ollama models pulled, and the file then
    holds the models it held, followed by the models discovered, followed by
    one entry per Ollama model pulled, with the time of the save as the time
    of the last scan.  Nothing is pulled or announced for Ollama when
    [autoInstallOllama] is [false]; otherwise the recommended models are
    installed under the size limit given, 8 GB by default, and each model
    pulled is announced. *)
Theorem syncFreeModels_appends_to_file {SC : StringCase} :
  forall pulls file cfg autoInstallOllama ollamaMaxSizeGb scan tags clock,
    match scan Spec.catalogueRequest with
    | ModelDiscovery.Rejected =>
      ModelDiscovery.syncFreeModels pulls file cfg autoInstallOllama
                                    ollamaMaxSizeGb scan tags clock
      = (file, [Spec.scanning], ModelDiscovery.Rejected)
    | ModelDiscovery.Fulfilled results =>
      let found :=
        map (Spec.openRouterEntry (ModelDiscovery.atDiscovery clock))
            (filter (Spec.isNewToolModel file cfg) results) in
      let pulled :=
        match autoInstallOllama with
        | Some false => []
        | Some true | None =>
          fst (ModelDiscovery.installRecommendedOllamaModels
                 pulls
                 (Some (match ollamaMaxSizeGb with
                        | Some limit => limit
                        | None => 8%Q
                        end))
                 None tags)
        end in
      ModelDiscovery.syncFreeModels pulls file cfg autoInstallOllama
                                    ollamaMaxSizeGb scan tags clock
      = (ModelDiscovery.Stored
           {| ModelDiscovery.DiscoveryState.lastScanAt :=
                ModelDiscovery.atSave clock;
              ModelDiscovery.DiscoveryState.models :=
                Spec.recordedModels file ++ found
                ++ map (Spec.ollamaEntry (ModelDiscovery.atInstall clock))
                       pulled |},
         Spec.scanning
         :: match autoInstallOllama with
            | Some false => []
            | Some true | None =>
              Spec.checking :: map Spec.installedNotice pulled
            end,
         ModelDiscovery.Fulfilled
           {| ModelDiscovery.openRouterNew := found;
              ModelDiscovery.ollamaPulled := pulled |})
    end.
Proof.
  intros pulls file cfg auto maxGb scan tags clock.
  unfold ModelDiscovery.syncFreeModels. rewrite discover_outcome.
  change (ModelDiscovery.scanRequest None None) with Spec.catalogueRequest.
  destruct (scan Spec.catalogueRequest) as [results|]; [|reflexivity].
  cbv zeta.
  assert (Hrecorded : ModelDiscovery.DiscoveryState.models
                        (ModelDiscovery.loadDiscoveryState file)
                      = Spec.recordedModels file) by now destruct file.
  rewrite Hrecorded.
  change (ModelDiscovery.discovered (ModelDiscovery.atDiscovery clock))
    with (Spec.openRouterEntry (ModelDiscovery.atDiscovery clock)).
  change (ModelDiscovery.installed (ModelDiscovery.atInstall clock))
    with (Spec.ollamaEntry (ModelDiscovery.atInstall clock)).
  destruct auto as [[|]|].
  - change (ModelDiscovery.orDefault maxGb 8%Q)
      with (match maxGb with Some limit => limit | None => 8%Q end).
    rewrite install_outcome. cbn [fst].
    unfold ModelDiscovery.saveDiscoveryState.
    rewrite !map_map, <- app_assoc. reflexivity.
  - unfold ModelDiscovery.saveDiscoveryState.
    cbn [map]. now rewrite app_nil_r.
  - change (ModelDiscovery.orDefault maxGb 8%Q)
      with (match maxGb with Some limit => limit | None => 8%Q end).
    rewrite install_outcome. cbn [fst].
    unfold ModelDiscovery.saveDiscoveryState.
    rewrite !map_map, <- app_assoc. reflexivity.
Qed.

(** X18.  [installRecommendedOllamaModels] pulls only what is wanted: a
    model is returned exactly when it is a recommended model that is not
    installed (names compared in lower case), is within the size limit,
    belongs to a category asked for, and whose download succeeded;
    [onInstalled] is called for the models returned, in order; and under the
    default limit of 8 GB no model other than the four small ones is ever
    returned. *)
Theorem install_pulls_only_wanted_models {SC : StringCase} :
  forall pulls maxSizeGb categories tags,
    let result :=
      ModelDiscovery.installRecommendedOllamaModels pulls maxSizeGb categories
                                                    tags in
    (forall i,
       In i (fst result)
       <-> exists rec,
           In rec ModelDiscovery.RECOMMENDED_OLLAMA_MODELS
           /\ ModelDiscovery.Recommended.id rec = i
           /\ Spec.wanted (ModelDiscovery.orDefault maxSizeGb 8%Q) categories
                          (ModelDiscovery.listOllamaModels tags) rec = true
           /\ pulls i = true)
    /\ snd result = map ModelDiscovery.OnInstalled (fst result)
    /\ (maxSizeGb = None ->
        forall i, In i (fst result) ->
                  In i [js "qwen2.5-coder:7b"; js "deepseek-r1:8b";
                        js "llama3.3:8b"; js "mistral:7b"]).
Proof.
  intros pulls maxSizeGb categories tags result. subst result.
  rewrite install_outcome. cbn [fst snd].
  assert (Hin : forall i,
             In i (map ModelDiscovery.Recommended.id
                       (filter (fun rec =>
                                  if Spec.wanted
                                       (ModelDiscovery.orDefault maxSizeGb 8%Q)
                                       categories
                                       (ModelDiscovery.listOllamaModels tags) rec
                                  then pulls (ModelDiscovery.Recommended.id rec)
                                  else false)
                               ModelDiscovery.RECOMMENDED_OLLAMA_MODELS))
             <-> exists rec,
               In rec ModelDiscovery.RECOMMENDED_OLLAMA_MODELS
               /\ ModelDiscovery.Recommended.id rec = i
               /\ Spec.wanted (ModelDiscovery.orDefault maxSizeGb 8%Q) categories
                              (ModelDiscovery.listOllamaModels tags) rec = true
               /\ pulls i = true).
  { intros i. rewrite in_map_iff. split.
    - intros (rec & <- & Hrec). apply filter_In in Hrec.
      destruct Hrec as [Hrec Hw]. exists rec.
      destruct (Spec.wanted _ _ _ rec); [now repeat split | discriminate Hw].
    - intros (rec & Hrec & <- & Hw & Hp). exists rec. split; [reflexivity|].
      apply filter_In. split; [exact Hrec|]. now rewrite Hw. }
  split; [exact Hin|]. split; [reflexivity|].
  intros -> i Hi. apply Hin in Hi. destruct Hi as (rec & Hrec & <- & Hw & _).
  unfold Spec.wanted in Hw.
  destruct (ModelDiscovery.has _ _); [discriminate Hw|].
  cbn [ModelDiscovery.orDefault] in Hw.
  cbn [ModelDiscovery.RECOMMENDED_OLLAMA_MODELS In] in Hrec.
  repeat (destruct Hrec as [<-|Hrec];
          [first [ discriminate Hw
                 | cbn [ModelDiscovery.Recommended.id In]; tauto ] |]).
  contradiction.
Qed.

(** ** Whole numbers in binary64 *)

Section Binary64Facts.

Lemma digits2_size (p : positive) : SpecFloat.digits2_pos p = Pos.size p.
Proof. induction p; cbn; now rewrite ?IHp. Qed.

Lemma size_shiftl (p : positive) (d : positive) :
  Pos.size (Pos.iter xO p d) = (Pos.size p + d)%positive.
Proof.
  revert p. induction d using Pos.peano_ind; intros p.
  - cbn. lia.
  - rewrite Pos.iter_succ. cbn [Pos.size]. rewrite IHd. lia.
Qed.

Lemma iter_xO_mul (p d : positive) :
  Zpos (Pos.iter xO p d) = (Zpos p * 2 ^ Zpos d)%Z.
Proof.
  revert p. induction d using Pos.peano_ind; intros p.
  - cbn. lia.
  - rewrite Pos.iter_succ. rewrite Pos2Z.inj_xO, IHd.
    rewrite Pos2Z.inj_succ, Z.pow_succ_r by lia. lia.
Qed.

Lemma size_gt_Z (p : positive) : (Zpos p < 2 ^ Zpos (Pos.size p))%Z.
Proof.
  pose proof (Pos.size_gt p) as H. apply Pos2Z.pos_lt_pos in H.
  now rewrite Pos2Z.inj_pow in H.
Qed.

Lemma size_le_Z (p : positive) : (2 ^ Zpos (Pos.size p) <= 2 * Zpos p)%Z.
Proof.
  pose proof (Pos.size_le p) as H. apply Pos2Z.pos_le_pos in H.
  now rewrite Pos2Z.inj_pow in H.
Qed.

Lemma size_bound (p : positive) :
  (Zpos p < 2 ^ 53)%Z -> (Zpos (Pos.size p) <= 53)%Z.
Proof.
  intros H. destruct (Z.le_gt_cases (Zpos (Pos.size p)) 53) as [|Hgt]; [assumption|].
  exfalso. pose proof (size_le_Z p) as Hle.
  assert (Hpow : (2 ^ 54 <= 2 ^ Zpos (Pos.size p))%Z)
    by (apply Z.pow_le_mono_r; lia).
  change (2 ^ 54)%Z with (2 * 2 ^ 53)%Z in Hpow. lia.
Qed.

Lemma size_lt (p q : positive) :
  (Zpos (Pos.size p) < Zpos (Pos.size q))%Z -> (Zpos p < Zpos q)%Z.
Proof.
  intros H. pose proof (size_gt_Z p) as Hp. pose proof (size_le_Z q) as Hq.
  assert (Hpow : (2 ^ (Zpos (Pos.size p) + 1) <= 2 ^ Zpos (Pos.size q))%Z)
    by (apply Z.pow_le_mono_r; lia).
  rewrite Z.pow_add_r in Hpow by lia. lia.
Qed.

Lemma fexp_53 (e : Z) :
  (-1074 <= e)%Z ->
  SpecFloat.fexp Binary64.prec Binary64.emax (53 + e) = e.
Proof.
  intros H. unfold SpecFloat.fexp, SpecFloat.emin, Binary64.prec, Binary64.emax.
  lia.
Qed.

(** Rounding leaves a mantissa of 53 digits as it is. *)
Lemma binary_round_aux_canonical (s : bool) (m : positive) (e : Z) :
  Zpos (Pos.size m) = 53%Z -> (-1074 <= e <= 971)%Z ->
  SpecFloat.binary_round_aux Binary64.prec Binary64.emax s (Zpos m) e
                             SpecFloat.loc_Exact
  = SpecFloat.S754_finite s m e.
Proof.
  intros Hm He.
  unfold SpecFloat.binary_round_aux, SpecFloat.shr_fexp.
  cbn [SpecFloat.Zdigits2]. rewrite digits2_size, Hm, fexp_53, Z.sub_diag by lia.
  cbn [SpecFloat.shr_record_of_loc SpecFloat.shr
       SpecFloat.shr_m SpecFloat.loc_of_shr_record
       SpecFloat.round_nearest_even SpecFloat.Zdigits2].
  rewrite digits2_size, Hm, fexp_53, Z.sub_diag by lia.
  cbn [SpecFloat.shr_record_of_loc SpecFloat.shr SpecFloat.shr_m].
  unfold Binary64.emax, Binary64.prec.
  destruct (Z.leb_spec e (1024 - 53)); [reflexivity | lia].
Qed.

(** The number of a whole number below 2^53 in magnitude holds its digits,
    moved up to 53. *)
Lemma binary_round_small (s : bool) (p : positive) :
  (Zpos p < 2 ^ 53)%Z ->
  exists m,
    SpecFloat.binary_round Binary64.prec Binary64.emax s p 0
    = SpecFloat.S754_finite s m (Zpos (Pos.size p) - 53)
    /\ Zpos m = (Zpos p * 2 ^ (53 - Zpos (Pos.size p)))%Z.
Proof.
  intros Hp. pose proof (size_bound p Hp) as Hd.
  unfold SpecFloat.binary_round.
  rewrite digits2_size, Z.add_0_r.
  assert (Hfexp : SpecFloat.fexp Binary64.prec Binary64.emax (Zpos (Pos.size p))
                  = (Zpos (Pos.size p) - 53)%Z).
  { unfold SpecFloat.fexp, SpecFloat.emin, Binary64.prec, Binary64.emax. lia. }
  rewrite Hfexp. unfold SpecFloat.shl_align. rewrite Z.sub_0_r.
  remember (Zpos (Pos.size p) - 53)%Z as e eqn:Ee.
  destruct e as [|k|k]; [|lia|].
  - exists p. split.
    + apply binary_round_aux_canonical; lia.
    + replace (53 - Zpos (Pos.size p))%Z with 0%Z by lia. lia.
  - exists (Pos.iter xO p k). split.
    + apply binary_round_aux_canonical; [rewrite size_shiftl|]; lia.
    + rewrite iter_xO_mul. f_equal. f_equal. lia.
Qed.

(** Whole numbers below 2^53 in magnitude compare as numbers of the
    platform the way they compare as whole numbers. *)
Lemma geb_ofZ (a b : Z) :
  (Z.abs a < 2 ^ 53)%Z -> (Z.abs b < 2 ^ 53)%Z ->
  Binary64.geb (Binary64.ofZ a) (Binary64.ofZ b) = (b <=? a)%Z.
Proof.
  intros Ha Hb. unfold Binary64.geb, Binary64.ofZ, SpecFloat.binary_normalize.
  destruct a as [|p|p], b as [|q|q];
    try destruct (binary_round_small false p) as (m & -> & Hm); try lia;
    try destruct (binary_round_small true p) as (m & -> & Hm); try lia;
    try destruct (binary_round_small false q) as (n & -> & Hn); try lia;
    try destruct (binary_round_small true q) as (n & -> & Hn); try lia;
    try reflexivity.
  - unfold SpecFloat.SFleb, SpecFloat.SFcompare.
    change (Pos.compare_cont Eq n m) with (Pos.compare n m).
    destruct (Z.compare_spec (Zpos (Pos.size q) - 53) (Zpos (Pos.size p) - 53))
      as [E|E|E].
    + assert (Es : Pos.size q = Pos.size p) by lia. rewrite Es in Hn.
      destruct (Pos.compare_spec n m) as [C|C|C];
        destruct (Z.leb_spec (Zpos q) (Zpos p)); try reflexivity; exfalso; nia.
    + assert (Zpos q < Zpos p)%Z by (apply size_lt; lia).
      destruct (Z.leb_spec (Zpos q) (Zpos p)); [reflexivity | lia].
    + assert (Zpos p < Zpos q)%Z by (apply size_lt; lia).
      destruct (Z.leb_spec (Zpos q) (Zpos p)); [lia | reflexivity].
  - unfold SpecFloat.SFleb, SpecFloat.SFcompare.
    change (Pos.compare_cont Eq n m) with (Pos.compare n m).
    destruct (Z.compare_spec (Zpos (Pos.size q) - 53) (Zpos (Pos.size p) - 53))
      as [E|E|E].
    + assert (Es : Pos.size q = Pos.size p) by lia. rewrite Es in Hn.
      destruct (Pos.compare_spec n m) as [C|C|C]; cbn [CompOpp];
        destruct (Z.leb_spec (Zneg q) (Zneg p)); try reflexivity; exfalso; nia.
    + assert (Zpos q < Zpos p)%Z by (apply size_lt; lia).
      destruct (Z.leb_spec (Zneg q) (Zneg p)); [lia | reflexivity].
    + assert (Zpos p < Zpos q)%Z by (apply size_lt; lia).
      destruct (Z.leb_spec (Zneg q) (Zneg p)); [reflexivity | lia].
Qed.

End Binary64Facts.

Section CronFacts.
Context {SC : StringCase}.

Import ModelDiscovery DiscoveryCron.

(** The check of the interval on a file that records a scan. *)
Lemma isDiscoveryScanDue_stored (state : DiscoveryState.t) (hours : Binary64.t)
      (now : Z) :
  DiscoveryState.lastScanAt state <> 0%Z ->
  isDiscoveryScanDue (Stored state) hours now
  = Binary64.geb (Binary64.ofZ (now - DiscoveryState.lastScanAt state))
                 (Binary64.mul
                    (Binary64.mul (Binary64.mul hours (Binary64.ofZ 60))
                                  (Binary64.ofZ 60))
                    (Binary64.ofZ 1000)).
Proof.
  intros Hnz. unfold isDiscoveryScanDue. cbn [loadDiscoveryState].
  apply Z.eqb_neq in Hnz. now rewrite Hnz.
Qed.

Lemma isDiscoveryScanDue_never_scanned (file : File) (hours : Binary64.t)
      (now : Z) :
  DiscoveryState.lastScanAt (loadDiscoveryState file) = 0%Z ->
  isDiscoveryScanDue file hours now = true.
Proof. intros H. unfold isDiscoveryScanDue. now rewrite H. Qed.

(** 24 hours are 86400000 milliseconds, without rounding. *)
Lemma day_in_ms :
  Binary64.mul
    (Binary64.mul (Binary64.mul (Binary64.ofZ 24) (Binary64.ofZ 60))
                  (Binary64.ofZ 60))
    (Binary64.ofZ 1000)
  = Binary64.ofZ 86400000.
Proof. vm_compute. reflexivity. Qed.

(** The reports of a sync that succeeded hold no failure. *)
Lemma no_failure_reported (calls : list Call) (tail : list Report) :
  ~ In ScanFailed tail -> ~ In ScanFailed (map Progress calls ++ tail).
Proof.
  intros Htail Hin. apply in_app_or in Hin. destruct Hin as [Hin|Hin];
    [|now apply Htail].
  apply in_map_iff in Hin. destruct Hin as (c & Hc & _). discriminate Hc.
Qed.

End CronFacts.

(** X19.  When a scan is due.  While no scan is recorded (the file is
    missing, unreadable, or records the time 0) a scan is due for every
    interval.  After a sync that saved at a time [t] other than 0, a scan is
    due at time [now] exactly when [now - t] is at least the interval in
    milliseconds as the platform computes it, the hours times 60, times 60,
    times 1000, each product rounded to binary64.  When these products come
    to a whole number of milliseconds below 2^53, as they do for the 24
    hours of the default, which are 86400000 ms, this is the comparison of
    whole numbers. *)
Theorem scan_due_after_sync {SC : StringCase} :
  (forall hours now,
     DiscoveryCron.isDiscoveryScanDue ModelDiscovery.Missing hours now = true
     /\ DiscoveryCron.isDiscoveryScanDue ModelDiscovery.Unreadable hours now
        = true
     /\ (forall state,
           ModelDiscovery.DiscoveryState.lastScanAt state = 0%Z ->
           DiscoveryCron.isDiscoveryScanDue (ModelDiscovery.Stored state)
                                            hours now
           = true))
  /\ (forall pulls file cfg autoInstallOllama ollamaMaxSizeGb scan tags clock
             file' calls result hours now,
        ModelDiscovery.syncFreeModels pulls file cfg autoInstallOllama
                                      ollamaMaxSizeGb scan tags clock
        = (file', calls, ModelDiscovery.Fulfilled result) ->
        ModelDiscovery.atSave clock <> 0%Z ->
        DiscoveryCron.isDiscoveryScanDue file' hours now
        = Binary64.geb
            (Binary64.ofZ (now - ModelDiscovery.atSave clock))
            (Binary64.mul
               (Binary64.mul (Binary64.mul hours (Binary64.ofZ 60))
                             (Binary64.ofZ 60))
               (Binary64.ofZ 1000))
        /\ (forall ms,
              Binary64.mul
                (Binary64.mul (Binary64.mul hours (Binary64.ofZ 60))
                              (Binary64.ofZ 60))
                (Binary64.ofZ 1000)
              = Binary64.ofZ ms ->
              (Z.abs ms < 2 ^ 53)%Z ->
              (Z.abs (now - ModelDiscovery.atSave clock) < 2 ^ 53)%Z ->
              (DiscoveryCron.isDiscoveryScanDue file' hours now = true
               <-> (ms <= now - ModelDiscovery.atSave clock)%Z)))
  /\ Binary64.mul
       (Binary64.mul (Binary64.mul (Binary64.ofZ 24) (Binary64.ofZ 60))
                     (Binary64.ofZ 60))
       (Binary64.ofZ 1000)
     = Binary64.ofZ 86400000.
Proof.
  split.
  { intros hours now. split; [reflexivity|]. split; [reflexivity|].
    intros state Hnever. now apply isDiscoveryScanDue_never_scanned. }
  split; [|exact day_in_ms].
  intros pulls file cfg auto maxGb scan tags clock file' calls result hours now
         Hsync Hnz.
  pose proof (sync_outcome pulls file cfg auto maxGb scan tags clock) as H.
  rewrite Hsync in H. destruct H as (results & _ & _ & _ & ->).
  rewrite isDiscoveryScanDue_stored by exact Hnz.
  cbn [ModelDiscovery.DiscoveryState.lastScanAt].
  split; [reflexivity|].
  intros ms Hms Hsmall Helapsed. rewrite Hms, geb_ofZ by assumption.
  apply Z.leb_le.
Qed.

(** X20.  After a cycle that synced, the cycles that follow within the
    interval do nothing: if a scan was due, the catalogue could be scanned
    and the save was stamped with a time other than 0, the cycle lowers its
    flag and reports no failure, and every later cycle for which the
    interval, as the platform computes it in milliseconds, has not elapsed
    since the save leaves the file as it is and reports nothing; under the
    default interval these are the cycles that start less than 86400000 ms
    after the save. *)
Theorem cycle_idle_within_interval {SC : StringCase} :
  forall pulls options file scan tags now clock results,
    DiscoveryCron.isDiscoveryScanDue
      file
      (ModelDiscovery.orDefault (DiscoveryCron.intervalHours options)
                                (Binary64.ofZ 24))
      now = true ->
    scan Spec.catalogueRequest
    = ModelDiscovery.Fulfilled results ->
    ModelDiscovery.atSave clock <> 0%Z ->
    match DiscoveryCron.runDiscoveryCycle pulls false file options scan tags
                                          now clock with
    | (isRunning', file', reports) =>
      isRunning' = false
      /\ ~ In DiscoveryCron.ScanFailed reports
      /\ (forall pulls2 scan2 tags2 now2 clock2,
            Binary64.geb
              (Binary64.ofZ (now2 - ModelDiscovery.atSave clock))
              (Binary64.mul
                 (Binary64.mul
                    (Binary64.mul
                       (ModelDiscovery.orDefault
                          (DiscoveryCron.intervalHours options)
                          (Binary64.ofZ 24))
                       (Binary64.ofZ 60))
                    (Binary64.ofZ 60))
                 (Binary64.ofZ 1000))
            = false ->
            DiscoveryCron.runDiscoveryCycle pulls2 false file' options scan2
                                            tags2 now2 clock2
            = (false, file', []))
      /\ (forall pulls2 scan2 tags2 now2 clock2,
            DiscoveryCron.intervalHours options = None ->
            (Z.abs (now2 - ModelDiscovery.atSave clock) < 2 ^ 53)%Z ->
            (now2 - ModelDiscovery.atSave clock < 86400000)%Z ->
            DiscoveryCron.runDiscoveryCycle pulls2 false file' options scan2
                                            tags2 now2 clock2
            = (false, file', []))
    end.
Proof.
  intros pulls options file scan tags now clock results Hdue Hscan Hnz.
  unfold DiscoveryCron.runDiscoveryCycle at 1. rewrite Hdue. cbn [negb].
  pose proof (sync_outcome pulls file (DiscoveryCron.cfg options)
                (Some (ModelDiscovery.orDefault
                         (DiscoveryCron.autoInstallOllama options) false))
                (Some (ModelDiscovery.orDefault
                         (DiscoveryCron.ollamaMaxSizeGb options) 8%Q))
                scan tags clock) as H.
  destruct (ModelDiscovery.syncFreeModels _ _ _ _ _ _ _ _)
    as [[file' calls] [result|]].
  - destruct H as (results' & _ & _ & _ & ->).
    assert (Hidle : forall pulls2 scan2 tags2 now2 clock2,
              Binary64.geb
                (Binary64.ofZ (now2 - ModelDiscovery.atSave clock))
                (Binary64.mul
                   (Binary64.mul
                      (Binary64.mul
                         (ModelDiscovery.orDefault
                            (DiscoveryCron.intervalHours options)
                            (Binary64.ofZ 24))
                         (Binary64.ofZ 60))
                      (Binary64.ofZ 60))
                   (Binary64.ofZ 1000))
              = false ->
              DiscoveryCron.runDiscoveryCycle
                pulls2 false
                (ModelDiscovery.Stored
                   {| ModelDiscovery.DiscoveryState.lastScanAt :=
                        ModelDiscovery.atSave clock;
                      ModelDiscovery.DiscoveryState.models :=
                        ModelDiscovery.DiscoveryState.models
                          (ModelDiscovery.loadDiscoveryState file)
                        ++ ModelDiscovery.openRouterNew result
                        ++ map (ModelDiscovery.installed
                                  (ModelDiscovery.atInstall clock))
                               (ModelDiscovery.ollamaPulled result) |})
                options scan2 tags2 now2 clock2
              = (false,
                 ModelDiscovery.Stored
                   {| ModelDiscovery.DiscoveryState.lastScanAt :=
                        ModelDiscovery.atSave clock;
                      ModelDiscovery.DiscoveryState.models :=
                        ModelDiscovery.DiscoveryState.models
                          (ModelDiscovery.loadDiscoveryState file)
                        ++ ModelDiscovery.openRouterNew result
                        ++ map (ModelDiscovery.installed
                                  (ModelDiscovery.atInstall clock))
                               (ModelDiscovery.ollamaPulled result) |},
                 [])).
    { intros pulls2 scan2 tags2 now2 clock2 Hsoon.
      unfold DiscoveryCron.runDiscoveryCycle.
      rewrite isDiscoveryScanDue_stored by exact Hnz.
      cbn [ModelDiscovery.DiscoveryState.lastScanAt].
      now rewrite Hsoon. }
    split; [reflexivity|]. split.
    + apply no_failure_reported. destruct (_ || _); [|easy].
      intros [Hin|[]]. discriminate Hin.
    + split; [exact Hidle|].
      intros pulls2 scan2 tags2 now2 clock2 Hdefault Hsmall Hsoon.
      apply Hidle. rewrite Hdefault. cbn [ModelDiscovery.orDefault].
      rewrite day_in_ms, geb_ofZ by (assumption || (cbn; lia)).
      apply Z.leb_gt. exact Hsoon.
  - destruct H as [_ H].
    change (ModelDiscovery.scanRequest None None) with Spec.catalogueRequest
      in H.
    rewrite Hscan in H. discriminate H.
Qed.

(** X21.  What a cycle does, case by case.  Entered while another cycle is
    running, it changes nothing and reports nothing.  When no scan is due,
    it changes nothing and reports nothing.  When a scan is due and the scan
    of the catalogue fails, it leaves the discovery file as it was and
    reports the start of the scan and then the failure, instead of
    throwing.  When a scan is due and the catalogue can be scanned, the sync
    succeeds, the file is the one that the sync saved, the calls of the sync
    are passed on, no failure is reported, and the new models are reported,
    by their numbers, exactly when there is at least one.  In each case but
    the first the flag is down at the end. *)
Theorem cycle_fails_safe {SC : StringCase} :
  forall pulls file options scan tags now clock,
    let interval :=
      ModelDiscovery.orDefault (DiscoveryCron.intervalHours options)
                               (Binary64.ofZ 24) in
    DiscoveryCron.runDiscoveryCycle pulls true file options scan tags now clock
    = (true, file, [])
    /\ (DiscoveryCron.isDiscoveryScanDue file interval now = false ->
        DiscoveryCron.runDiscoveryCycle pulls false file options scan tags
                                        now clock
        = (false, file, []))
    /\ (DiscoveryCron.isDiscoveryScanDue file interval now = true ->
        scan Spec.catalogueRequest = ModelDiscovery.Rejected ->
        DiscoveryCron.runDiscoveryCycle pulls false file options scan tags
                                        now clock
        = (false, file,
           [DiscoveryCron.Progress Spec.scanning; DiscoveryCron.ScanFailed]))
    /\ (forall results,
          DiscoveryCron.isDiscoveryScanDue file interval now = true ->
          scan Spec.catalogueRequest
          = ModelDiscovery.Fulfilled results ->
          exists file' calls result,
            ModelDiscovery.syncFreeModels
              pulls file (DiscoveryCron.cfg options)
              (Some (ModelDiscovery.orDefault
                       (DiscoveryCron.autoInstallOllama options) false))
              (Some (ModelDiscovery.orDefault
                       (DiscoveryCron.ollamaMaxSizeGb options) 8%Q))
              scan tags clock
            = (file', calls, ModelDiscovery.Fulfilled result)
            /\ DiscoveryCron.runDiscoveryCycle pulls false file options scan
                                               tags now clock
               = (false, file',
                  map DiscoveryCron.Progress calls
                  ++ match length (ModelDiscovery.openRouterNew result),
                           length (ModelDiscovery.ollamaPulled result) with
                     | O, O => []
                     | found, pulled => [DiscoveryCron.NewModels found pulled]
                     end)).
Proof.
  intros pulls file options scan tags now clock interval.
  split; [reflexivity|]. split; [|split].
  - intros Hdue. unfold DiscoveryCron.runDiscoveryCycle. fold interval.
    now rewrite Hdue.
  - intros Hdue Hscan. unfold DiscoveryCron.runDiscoveryCycle. fold interval.
    rewrite Hdue. cbn [negb].
    unfold ModelDiscovery.syncFreeModels. rewrite discover_outcome.
    change (ModelDiscovery.scanRequest None None) with Spec.catalogueRequest.
    now rewrite Hscan.
  - intros results Hdue Hscan.
    unfold DiscoveryCron.runDiscoveryCycle. fold interval.
    rewrite Hdue. cbn [negb].
    pose proof (sync_outcome pulls file (DiscoveryCron.cfg options)
                  (Some (ModelDiscovery.orDefault
                           (DiscoveryCron.autoInstallOllama options) false))
                  (Some (ModelDiscovery.orDefault
                           (DiscoveryCron.ollamaMaxSizeGb options) 8%Q))
                  scan tags clock) as H.
    destruct (ModelDiscovery.syncFreeModels _ _ _ _ _ _ _ _)
      as [[file' calls] [result|]].
    + exists file', calls, result. split; [reflexivity|].
      f_equal. f_equal.
      destruct (length (ModelDiscovery.openRouterNew result)) as [|found],
               (length (ModelDiscovery.ollamaPulled result)) as [|pulled];
        reflexivity.
    + destruct H as [_ H].
      change (ModelDiscovery.scanRequest None None) with Spec.catalogueRequest
        in H.
      rewrite Hscan in H. discriminate H.
Qed.

(** ** The properties of the discovery at concrete inputs *)

(** X15 at a catalogue of five models of which one is in the discovery
    file, one in the configuration and one without tool support. *)
Lemma discover_returns_new_tool_models_witness :
  exists newModels,
    ModelDiscovery.discoverFreeOpenRouterModels
      Examples.knownFile Examples.configured None None Examples.scanCatalogue 5000
    = ModelDiscovery.Fulfilled newModels
    /\ map ModelDiscovery.DiscoveredModel.id newModels
       = [js "mistral/small:free"; js "google/gemma:free"].
Proof.
  destruct (discover_returns_new_tool_models
              Examples.knownFile Examples.configured None None
              Examples.scanCatalogue 5000 Examples.catalogue eq_refl)
    as (newModels & Hdiscover & Hids & _).
  exists newModels. split; [exact Hdiscover|].
  rewrite Hids. vm_compute. reflexivity.
Defined.

(** X16 at the same catalogue, after a sync that also pulled Ollama
    models. *)
Lemma discovery_after_sync_finds_nothing_witness :
  ModelDiscovery.discoverFreeOpenRouterModels
    (fst (fst (ModelDiscovery.syncFreeModels
                 (SC := asciiCase) Examples.pullsAllButLlama Examples.knownFile
                 Examples.configured None None Examples.scanCatalogue
                 Examples.tags Examples.clock)))
    Examples.configured None None Examples.scanCatalogue 9000
  = ModelDiscovery.Fulfilled [].
Proof.
  eapply (discovery_after_sync_finds_nothing
            (SC := asciiCase) Examples.pullsAllButLlama Examples.knownFile
            Examples.configured None None Examples.scanCatalogue
            Examples.tags Examples.clock).
  vm_compute. reflexivity.
Defined.

(** X19 at the file left by that sync, saved at 7000: under an interval of
    24 hours a scan is due 86400000 ms later; under an interval of 8.3
    hours, which the platform takes for a little more than 29880000 ms, a
    scan is not due 29880000 ms later and is due one millisecond after. *)
Lemma scan_due_after_sync_witness :
  DiscoveryCron.isDiscoveryScanDue
    (fst (fst (ModelDiscovery.syncFreeModels
                 (SC := asciiCase) Examples.pullsAllButLlama Examples.knownFile
                 Examples.configured None None Examples.scanCatalogue
                 Examples.tags Examples.clock)))
    (Binary64.ofZ 24) 86407000
  = true
  /\ DiscoveryCron.isDiscoveryScanDue
       (fst (fst (ModelDiscovery.syncFreeModels
                    (SC := asciiCase) Examples.pullsAllButLlama
                    Examples.knownFile Examples.configured None None
                    Examples.scanCatalogue Examples.tags Examples.clock)))
       (Binary64.div (Binary64.ofZ 83) (Binary64.ofZ 10)) 29887000
     = false
  /\ DiscoveryCron.isDiscoveryScanDue
       (fst (fst (ModelDiscovery.syncFreeModels
                    (SC := asciiCase) Examples.pullsAllButLlama
                    Examples.knownFile Examples.configured None None
                    Examples.scanCatalogue Examples.tags Examples.clock)))
       (Binary64.div (Binary64.ofZ 83) (Binary64.ofZ 10)) 29887001
     = true.
Proof.
  destruct (scan_due_after_sync (SC := asciiCase)) as (_ & Hdue & Hday).
  assert (Hsync :
            ModelDiscovery.syncFreeModels
              (SC := asciiCase) Examples.pullsAllButLlama Examples.knownFile
              Examples.configured None None Examples.scanCatalogue
              Examples.tags Examples.clock
            = (fst (fst (ModelDiscovery.syncFreeModels
                           (SC := asciiCase) Examples.pullsAllButLlama
                           Examples.knownFile Examples.configured None None
                           Examples.scanCatalogue Examples.tags Examples.clock)),
               snd (fst (ModelDiscovery.syncFreeModels
                           (SC := asciiCase) Examples.pullsAllButLlama
                           Examples.knownFile Examples.configured None None
                           Examples.scanCatalogue Examples.tags Examples.clock)),
               ModelDiscovery.Fulfilled
                 {| ModelDiscovery.openRouterNew :=
                      [ModelDiscovery.discovered 5000
                         (Examples.scanResult "mistral/small:free" true);
                       ModelDiscovery.discovered 5000
                         (Examples.scanResult "google/gemma:free" true)];
                    ModelDiscovery.ollamaPulled :=
                      [js "qwen2.5-coder:7b"; js "deepseek-r1:8b"] |}))
    by (vm_compute; reflexivity).
  assert (Hnz : ModelDiscovery.atSave Examples.clock <> 0%Z) by discriminate.
  refine (conj _ (conj _ _)).
  - apply (proj2 (Hdue _ _ _ _ _ _ _ _ _ _ _ (Binary64.ofZ 24) 86407000%Z
                       Hsync Hnz) 86400000%Z Hday);
      vm_compute; (reflexivity || discriminate).
  - rewrite (proj1 (Hdue _ _ _ _ _ _ _ _ _ _ _ _ _ Hsync Hnz)).
    vm_compute. reflexivity.
  - rewrite (proj1 (Hdue _ _ _ _ _ _ _ _ _ _ _ _ _ Hsync Hnz)).
    vm_compute. reflexivity.
Defined.

(** X20 at a first cycle on a missing file, saved at 7000, and a second
    cycle at 8000 whose scan would fail. *)
Lemma cycle_idle_within_interval_witness :
  DiscoveryCron.runDiscoveryCycle
    (SC := asciiCase) Examples.pullsAllButLlama false
    (snd (fst (DiscoveryCron.runDiscoveryCycle
                 (SC := asciiCase) Examples.pullsAllButLlama false
                 ModelDiscovery.Missing Examples.cronOptions
                 Examples.scanCatalogue Examples.tags 5000 Examples.clock)))
    Examples.cronOptions Examples.scanFails ModelDiscovery.TagsFailed 8000
    Examples.clock
  = (false,
     snd (fst (DiscoveryCron.runDiscoveryCycle
                 (SC := asciiCase) Examples.pullsAllButLlama false
                 ModelDiscovery.Missing Examples.cronOptions
                 Examples.scanCatalogue Examples.tags 5000 Examples.clock)),
     []).
Proof.
  pose proof (cycle_idle_within_interval
                (SC := asciiCase) Examples.pullsAllButLlama Examples.cronOptions
                ModelDiscovery.Missing Examples.scanCatalogue Examples.tags 5000
                Examples.clock Examples.catalogue eq_refl eq_refl) as H.
  destruct (DiscoveryCron.runDiscoveryCycle
              (SC := asciiCase) Examples.pullsAllButLlama false
              ModelDiscovery.Missing Examples.cronOptions
              Examples.scanCatalogue Examples.tags 5000 Examples.clock)
    as [[isRunning' file'] reports].
  destruct H as (_ & _ & _ & H); [discriminate|].
  cbn [fst snd]. apply H; [reflexivity | vm_compute; reflexivity
                           | vm_compute; reflexivity].
Defined.

(** X21 at a cycle on a missing file whose scan fails: the file stays
    missing and the failure is reported. *)
Lemma cycle_fails_safe_witness :
  DiscoveryCron.runDiscoveryCycle
    (SC := asciiCase) Examples.pullsAllButLlama false ModelDiscovery.Missing
    Examples.cronOptions Examples.scanFails Examples.tags 5000 Examples.clock
  = (false, ModelDiscovery.Missing,
     [DiscoveryCron.Progress
        (ModelDiscovery.OnProgress (js "openrouter")
                                   (js "Scanning for free models..."));
      DiscoveryCron.ScanFailed]).
Proof.
  apply (cycle_fails_safe (SC := asciiCase) Examples.pullsAllButLlama
                          ModelDiscovery.Missing Examples.cronOptions
                          Examples.scanFails Examples.tags 5000 Examples.clock);
    reflexivity.
Defined.

(** ** Reading the stream of a pull *)

Section PullFacts.

Import ModelDiscovery.

Lemma splitLines_nonempty (s : jsstring) : splitLines s <> [].
Proof.
  destruct s as [|c s]; cbn [splitLines]; [discriminate|].
  destruct (c =? 0x0A)%N; [discriminate|].
  destruct (splitLines s); discriminate.
Qed.

Lemma removelast_cons {A} (x : A) (l : list A) :
  l <> [] -> removelast (x :: l) = x :: removelast l.
Proof. destruct l; [now intros H; contradiction H | reflexivity]. Qed.

Lemma last_cons {A} (x d : A) (l : list A) :
  l <> [] -> last (x :: l) d = last l d.
Proof. destruct l; [now intros H; contradiction H | reflexivity]. Qed.

Lemma last_app_nonempty {A} (l l' : list A) (d : A) :
  l' <> [] -> last (l ++ l') d = last l' d.
Proof.
  intros Hne. induction l as [|x l IH]; [reflexivity|].
  cbn [app]. rewrite last_cons; [exact IH|].
  destruct l; [exact Hne | discriminate].
Qed.

(** Splitting a text in two pieces splits its lines at the piece: the lines
    completed by the first piece, then the lines of what it left open
    followed by the second piece. *)
Lemma splitLines_app (a b : jsstring) :
  splitLines (a ++ b)
  = removelast (splitLines a) ++ splitLines (last (splitLines a) [] ++ b).
Proof.
  induction a as [|c a IH]; [reflexivity|].
  cbn [app splitLines]. destruct (c =? 0x0A)%N eqn:Ec.
  - rewrite removelast_cons, last_cons by apply splitLines_nonempty.
    cbn [app]. now rewrite IH.
  - rewrite IH. pose proof (splitLines_nonempty a) as Hne.
    destruct (splitLines a) as [|l1 [|l2 ls]]; [now contradiction Hne| |].
    + cbn [removelast last app splitLines]. now rewrite Ec.
    + rewrite removelast_cons by discriminate.
      rewrite (removelast_cons (c :: l1)) by discriminate.
      rewrite !last_cons by discriminate. reflexivity.
Qed.

(** The loop that reads the stream keeps the open line in [buffer] and has
    handed over the complete lines that are not blank. *)
Lemma readChunk_fold (chunks : list jsstring) (text : jsstring) :
  fold_left readChunk chunks
            (last (splitLines text) [],
             filter Spec.notBlank (removelast (splitLines text)))
  = (last (splitLines (text ++ concat chunks)) [],
     filter Spec.notBlank (removelast (splitLines (text ++ concat chunks)))).
Proof.
  revert text. induction chunks as [|value chunks IH]; intros text.
  - cbn [fold_left concat]. now rewrite app_nil_r.
  - cbn [fold_left concat]. rewrite app_assoc, <- IH. f_equal.
    unfold readChunk. rewrite (splitLines_app text value).
    set (open := last (splitLines text) []).
    pose proof (splitLines_nonempty (open ++ value)) as Hne.
    rewrite last_app_nonempty by exact Hne.
    f_equal. rewrite removelast_app by exact Hne.
    rewrite filter_app. f_equal.
    apply filter_ext. intros line. unfold Spec.notBlank.
    now destruct (trim line).
Qed.

End PullFacts.

(** X27.  The lines of a pull do not depend on how the stream is cut into
    chunks: [pullOllamaModel] hands to [JSON.parse], in order, exactly the
    lines of the whole text received that are terminated by a line feed and
    hold more than white space, so two streams with the same text give the
    same lines and a last line without a line feed is never handed over; the
    model counts as pulled exactly when no read failed. *)
Theorem pull_lines_do_not_depend_on_chunks :
  forall chunks readFails,
    ModelDiscovery.pullOllamaModel (ModelDiscovery.PullStream chunks readFails)
    = (negb readFails,
       filter Spec.notBlank
              (removelast (ModelDiscovery.splitLines (concat chunks)))).
Proof.
  intros chunks readFails. unfold ModelDiscovery.pullOllamaModel. f_equal.
  pose proof (readChunk_fold chunks []) as H. cbn [app] in H.
  change (last (ModelDiscovery.splitLines []) [],
          filter Spec.notBlank (removelast (ModelDiscovery.splitLines [])))
    with (@nil codeunit, @nil jsstring) in H.
  now rewrite H.
Qed.

(* ================================================================== *)
(** * Part XI.  Reply audit                                            *)
(* ================================================================== *)

Section TrimFacts.

Import Spec.

Lemma trimStart_headKept (s : jsstring) : headKept (trimStart s) = true.
Proof.
  induction s as [|c s IH]; [reflexivity|]. cbn [trimStart].
  destruct (isWhiteSpace c) eqn:E; [exact IH|]. cbn [headKept]. now rewrite E.
Qed.

Lemma headKept_trimStart (s : jsstring) : headKept s = true -> trimStart s = s.
Proof.
  destruct s as [|c s]; [reflexivity|]. cbn [headKept trimStart].
  now destruct (isWhiteSpace c).
Qed.

Lemma trimStart_snoc (s : jsstring) (c : codeunit) :
  isWhiteSpace c = false -> trimStart (s ++ [c]) = trimStart s ++ [c].
Proof.
  intros Hc. induction s as [|x s IH]; cbn [app trimStart].
  - now rewrite Hc.
  - now destruct (isWhiteSpace x).
Qed.

Lemma trimEnd_headKept (s : jsstring) :
  headKept s = true -> headKept (trimEnd s) = true.
Proof.
  destruct s as [|c s]; [reflexivity|]. cbn [headKept]. intros Hc.
  apply negb_true_iff in Hc. unfold trimEnd. cbn [rev].
  rewrite trimStart_snoc by exact Hc. rewrite rev_app_distr. cbn [rev app headKept].
  now rewrite Hc.
Qed.

Lemma trimEnd_fixed (s : jsstring) : trimEnd (trimEnd s) = trimEnd s.
Proof.
  unfold trimEnd. rewrite rev_involutive.
  now rewrite (headKept_trimStart _ (trimStart_headKept (rev s))).
Qed.

Lemma trim_fixed (s : jsstring) : trim (trim s) = trim s.
Proof.
  unfold trim at 1.
  rewrite (headKept_trimStart (trim s)).
  - unfold trim. apply trimEnd_fixed.
  - unfold trim. apply trimEnd_headKept, trimStart_headKept.
Qed.

Lemma trimStart_whiteSpaceOnly (s : jsstring) :
  forallb isWhiteSpace s = true -> trimStart s = [].
Proof.
  induction s as [|c s IH]; [reflexivity|]. cbn [forallb trimStart].
  destruct (isWhiteSpace c); [exact IH | discriminate].
Qed.

Lemma trim_whiteSpaceOnly (s : jsstring) :
  forallb isWhiteSpace s = true -> trim s = [].
Proof.
  intros H. unfold trim. now rewrite (trimStart_whiteSpaceOnly s H).
Qed.

Lemma trimStart_In (c : codeunit) (s : jsstring) :
  isWhiteSpace c = false -> In c s -> In c (trimStart s).
Proof.
  intros Hc. induction s as [|x s IH]; [easy|]. cbn [trimStart].
  destruct (isWhiteSpace x) eqn:E; [|easy].
  intros [->|H]; [congruence | now apply IH].
Qed.

Lemma trim_In (c : codeunit) (s : jsstring) :
  isWhiteSpace c = false -> In c s -> In c (trim s).
Proof.
  intros Hc H. unfold trim, trimEnd. apply in_rev.
  rewrite rev_involutive. apply trimStart_In; [exact Hc|].
  apply in_rev. rewrite rev_involutive. now apply trimStart_In.
Qed.

Lemma includes_In (c : codeunit) (s : jsstring) :
  In c s -> includes s [c] = true.
Proof.
  induction s as [|x s IH]; [easy|]. intros H. cbn [includes startsWith].
  destruct (N.eqb_spec c x) as [_|Hne]; [reflexivity|].
  destruct H as [->|H]; [contradiction | now apply IH].
Qed.

End TrimFacts.

Section ConsumedFacts.

Import Spec.

Lemma forallb_weaken {A} (p q : A -> bool) (l : list A) :
  (forall x, p x = true -> q x = true) ->
  forallb p l = true -> forallb q l = true.
Proof.
  intros Hpq. rewrite !forallb_forall. intros H x Hx. now apply Hpq, H.
Qed.

(** What [starLoop] passes over before the continuation accepts. *)
Lemma starLoop_consumed (step : option codeunit -> jsstring -> cont -> bool)
      (P : codeunit -> bool) :
  (forall prev s k, step prev s k = true ->
     exists pre rest p', s = pre ++ rest /\ forallb P pre = true
                         /\ k p' rest = true) ->
  forall n prev s k, starLoop step n prev s k = true ->
     exists pre rest p', s = pre ++ rest /\ forallb P pre = true
                         /\ k p' rest = true.
Proof.
  intros Hstep. induction n as [|n IH]; intros prev s k; cbn [starLoop].
  - destruct (k prev s) eqn:E; [|discriminate].
    intros _. now exists [], s, prev.
  - destruct (k prev s) eqn:E; [intros _; now exists [], s, prev|].
    intros H. apply Hstep in H. destruct H as (pre1 & s1 & p1 & -> & H1 & H).
    destruct (length s1 <? length (pre1 ++ s1))%nat; [|discriminate].
    apply IH in H. destruct H as (pre2 & s2 & p2 & -> & H2 & H).
    exists (pre1 ++ pre2), s2, p2. rewrite app_assoc. split; [reflexivity|].
    split; [|exact H]. rewrite forallb_app. now rewrite H1, H2.
Qed.

(** Every code unit that a match passes over is admitted by a class of the
    pattern. *)
Lemma matchAt_consumed (r : regex) :
  forall prev s k, matchAt r prev s k = true ->
    exists pre rest p', s = pre ++ rest /\ forallb (admits r) pre = true
                        /\ k p' rest = true.
Proof.
  induction r as [|f|a IHa b IHb|a IHa b IHb|a IHa|]; intros prev s k;
    cbn [matchAt].
  - intros H. now exists [], s, prev.
  - destruct s as [|c s']; [discriminate|].
    destruct (f c) eqn:E; [|discriminate].
    intros H. exists [c], s', (Some c). cbn [app forallb admits].
    now rewrite E.
  - intros H. apply IHa in H. destruct H as (pre1 & s1 & p1 & -> & H1 & H).
    apply IHb in H. destruct H as (pre2 & s2 & p2 & -> & H2 & H).
    exists (pre1 ++ pre2), s2, p2. rewrite app_assoc. split; [reflexivity|].
    split; [|exact H]. rewrite forallb_app.
    rewrite (forallb_weaken (admits a) (admits (Cat a b)) pre1), 
            (forallb_weaken (admits b) (admits (Cat a b)) pre2); try assumption;
      try reflexivity.
    + intros x Hx. cbn [admits]. rewrite Hx. now destruct (admits a x).
    + intros x Hx. cbn [admits]. now rewrite Hx.
  - intros H.
    assert (H' : matchAt a prev s k = true \/ matchAt b prev s k = true).
    { destruct (matchAt a prev s k); [now left | now right]. }
    destruct H' as [H'|H'].
    + apply IHa in H'. destruct H' as (pre & rest & p' & -> & Hp & Hk).
      exists pre, rest, p'. split; [reflexivity|]. split; [|exact Hk].
      apply (forallb_weaken (admits a)); [|exact Hp].
      intros x Hx. cbn [admits]. now rewrite Hx.
    + apply IHb in H'. destruct H' as (pre & rest & p' & -> & Hp & Hk).
      exists pre, rest, p'. split; [reflexivity|]. split; [|exact Hk].
      apply (forallb_weaken (admits b)); [|exact Hp].
      intros x Hx. cbn [admits]. rewrite Hx. now destruct (admits a x).
  - apply (starLoop_consumed (matchAt a) (admits (Star a))). exact IHa.
  - destruct (xorb _ _); [|discriminate].
    intros H. now exists [], s, prev.
Qed.

(** A text that holds a code unit which no class of the pattern admits does
    not match the pattern as a whole. *)
Lemma testWhole_admits (r : regex) (c : codeunit) (s : jsstring) :
  In c s -> admits r c = false -> ReplyAudit.testWhole r s = false.
Proof.
  intros Hin Hc. unfold ReplyAudit.testWhole.
  destruct (matchAt r None s ReplyAudit.atEnd) eqn:E; [|reflexivity].
  apply matchAt_consumed in E. destruct E as (pre & rest & p' & -> & Hpre & Hk).
  destruct rest; [|discriminate Hk]. rewrite app_nil_r in Hin.
  rewrite forallb_forall in Hpre. rewrite (Hpre c Hin) in Hc. discriminate Hc.
Qed.

Lemma codePoints_pair (hi lo : codeunit) (rest : jsstring) :
  ReplyAudit.codePoints (hi :: lo :: rest)
  = if ReplyAudit.isHighSurrogate hi then
      if ReplyAudit.isLowSurrogate lo
      then (0x10000 + (hi - 0xD800) * 0x400 + (lo - 0xDC00))%N
           :: ReplyAudit.codePoints rest
      else hi :: ReplyAudit.codePoints (lo :: rest)
    else hi :: ReplyAudit.codePoints (lo :: rest).
Proof. reflexivity. Qed.

(** A code unit that is no surrogate is a code point of the text. *)
Lemma codePoints_In (c : codeunit) :
  ReplyAudit.isHighSurrogate c = false ->
  ReplyAudit.isLowSurrogate c = false ->
  forall n s, length s <= n -> In c s -> In c (ReplyAudit.codePoints s).
Proof.
  intros Hc Hc'. induction n as [|n IH]; intros s Hn Hin.
  - destruct s; [easy | cbn in Hn; lia].
  - destruct s as [|hi [|lo rest]]; [easy | exact Hin |].
    rewrite codePoints_pair. cbn [length] in Hn.
    destruct (ReplyAudit.isHighSurrogate hi) eqn:Ehi.
    + destruct (ReplyAudit.isLowSurrogate lo) eqn:Elo.
      * right. apply IH; [lia|].
        destruct Hin as [->|[->|Hin]]; [congruence | congruence | exact Hin].
      * destruct Hin as [->|Hin]; [now left | right].
        apply IH; [cbn [length]; lia | exact Hin].
    + destruct Hin as [->|Hin]; [now left | right].
      apply IH; [cbn [length]; lia | exact Hin].
Qed.

Lemma testRun_In (class : N -> bool) (min max : nat) (p : N) (s : jsstring) :
  In p (ReplyAudit.codePoints s) -> class p = false ->
  ReplyAudit.testRun class min max s = false.
Proof.
  intros Hin Hp. unfold ReplyAudit.testRun.
  destruct (_ <=? _)%nat; [|reflexivity].
  destruct (_ <=? _)%nat; [|reflexivity].
  destruct (forallb class (ReplyAudit.codePoints s)) eqn:E; [|reflexivity].
  rewrite forallb_forall in E. rewrite (E p Hin) in Hp. discriminate Hp.
Qed.

End ConsumedFacts.

Section IntentFacts.
Context {ET : ReplyAudit.EmojiTables}.

Import ReplyAudit Spec.

(** The classification of a text whose trimmed form is not empty. *)
Lemma classifyReplyIntent_trimmed (text : jsstring) :
  trim text <> [] ->
  classifyReplyIntent (Some text)
  = let trimmed := trim text in
    if existsb (fun pattern => pattern trimmed) INFORMATIONAL_PATTERNS
    then informational
    else if includes trimmed (js "?") then expects_reply
    else if QUESTION_START_RE trimmed then expects_reply
    else if PLEASE_START_RE trimmed then expects_reply
    else if COMMAND_START_RE trimmed then expects_reply
    else if GREETING_RE trimmed then expects_reply
    else if CODE_HINT_RE trimmed then expects_reply
    else if (80 <? length trimmed)%nat then expects_reply
    else if SENTENCE_BREAK_RE trimmed then expects_reply
    else ambiguous.
Proof.
  intros Hne. unfold classifyReplyIntent.
  destruct text as [|c text]; [now contradiction Hne|]. cbn [isEmpty].
  destruct (trim (c :: text)) eqn:E; [now contradiction Hne|]. reflexivity.
Qed.

Lemma classifyReplyIntent_blank (text : jsstring) :
  trim text = [] -> classifyReplyIntent (Some text) = ambiguous.
Proof.
  intros E. unfold classifyReplyIntent.
  destruct (isEmpty text); [reflexivity|]. now rewrite E.
Qed.

(** No informational pattern matches a text that holds a question mark. *)
Lemma question_not_informational (trimmed : jsstring) :
  questionMarkIsNoEmoji -> In 0x3F%N trimmed ->
  existsb (fun pattern => pattern trimmed) INFORMATIONAL_PATTERNS = false.
Proof.
  intros [Hp Hx] Hin.
  assert (Hcp : In 0x3F%N (codePoints trimmed)).
  { apply (codePoints_In 0x3F%N eq_refl eq_refl (length trimmed));
      [apply Nat.le_refl | exact Hin]. }
  unfold INFORMATIONAL_PATTERNS. cbn [existsb].
  rewrite !(testWhole_admits _ 0x3F%N trimmed Hin) by (vm_compute; reflexivity).
  rewrite (testRun_In isEmojiOrSpace 1 12 0x3F%N trimmed Hcp).
  - rewrite (testRun_In _ 1 5 0x3F%N trimmed Hcp); reflexivity.
  - unfold isEmojiOrSpace. now rewrite Hp, Hx.
Qed.

(** The state of a handler after a sequence of marks. *)
Lemma marks_state (start : Z) (ms : list Mark) :
  let h := marks (createReplyAuditHandler start) ms in
  Handler.startedAt h = start
  /\ Handler.received h
     = match lastReceived ms with Some _ => true | None => false end
  /\ Handler.intent h
     = match lastReceived ms with
       | Some text => classifyReplyIntent text
       | None => ambiguous
       end
  /\ (Handler.attempted h = true <-> In Attempted ms)
  /\ (Handler.delivered h = true <-> In Delivered ms)
  /\ Handler.skipReason h = option_map fst (lastSkipped ms)
  /\ Handler.skippedIntentionally h
     = match lastSkipped ms with
       | Some (_, Some true) => true
       | _ => false
       end.
Proof.
  cbn zeta.
  assert (Hrec : forall m l, lastReceived (l ++ [m])
                             = match m with
                               | Received text => Some text
                               | _ => lastReceived l
                               end).
  { intros m l. induction l as [|x l IH]; cbn [app lastReceived].
    - now destruct m.
    - rewrite IH. now destruct m. }
  assert (Hskip : forall m l, lastSkipped (l ++ [m])
                              = match m with
                                | Skipped reason intentional =>
                                  Some (reason, intentional)
                                | _ => lastSkipped l
                                end).
  { intros m l. induction l as [|x l IH]; cbn [app lastSkipped].
    - now destruct m.
    - rewrite IH. now destruct m. }
  induction ms as [|m ms IH] using rev_ind.
  - cbn. repeat split; intros H; (discriminate H || contradiction H).
  - destruct IH as (Hs & Hr & Hi & Ha & Hd & Hk & Hn).
    unfold marks in *. rewrite fold_left_app. cbn [fold_left].
    rewrite Hrec, Hskip.
    destruct m as [text| | |reason intentional]; cbn [mark];
      unfold markReceived, markReplyAttempted, markReplyDelivered, markSkipped;
      cbn [Handler.startedAt Handler.received Handler.intent Handler.attempted
           Handler.delivered Handler.skipReason Handler.skippedIntentionally];
      rewrite ?in_app_iff; cbn [In option_map fst];
      repeat split; try assumption; try tauto;
      try (intros H; try (apply Ha in H); try (apply Hd in H); tauto);
      try (intros [H|[H|[]]]; try discriminate H;
           try (now apply Ha); try (now apply Hd)).
Qed.

End IntentFacts.

(** X22.  White space around a text does not count: the intent of a text is
    the intent of the text trimmed, and an absent text or one that holds
    white space only is [ambiguous]. *)
Theorem classifyReplyIntent_ignores_outer_white_space
        {ET : ReplyAudit.EmojiTables} :
  forall text,
    ReplyAudit.classifyReplyIntent (Some text)
    = ReplyAudit.classifyReplyIntent (Some (trim text))
    /\ (forallb isWhiteSpace text = true ->
        ReplyAudit.classifyReplyIntent (Some text) = ReplyAudit.ambiguous)
    /\ ReplyAudit.classifyReplyIntent None = ReplyAudit.ambiguous.
Proof.
  intros text. split; [|split; [|reflexivity]].
  - destruct (trim text) as [|c trimmed] eqn:E.
    + now rewrite classifyReplyIntent_blank.
    + rewrite <- E.
      rewrite (classifyReplyIntent_trimmed text),
              (classifyReplyIntent_trimmed (trim text));
        rewrite ?trim_fixed; try reflexivity; rewrite E; discriminate.
  - intros Hws. apply classifyReplyIntent_blank. now apply trim_whiteSpaceOnly.
Qed.

(** X23.  A question expects a reply: given that the question mark is no
    emoji in the tables of the platform, every text that holds a question
    mark is classified [expects_reply]; no informational pattern takes
    precedence. *)
Theorem question_expects_reply {ET : ReplyAudit.EmojiTables} :
  forall text,
    Spec.questionMarkIsNoEmoji ->
    In 0x3F%N text ->
    ReplyAudit.classifyReplyIntent (Some text) = ReplyAudit.expects_reply.
Proof.
  intros text Htables Hin.
  assert (Htrim : In 0x3F%N (trim text)) by now apply trim_In.
  rewrite classifyReplyIntent_trimmed
    by (intros E; rewrite E in Htrim; contradiction Htrim).
  cbn zeta. rewrite (question_not_informational _ Htables Htrim).
  replace (includes (trim text) (js "?")) with true; [reflexivity|].
  symmetry. exact (includes_In _ _ Htrim).
Qed.

(** X24.  When the audit warns: after any sequence of marks on a new
    handler, [finalize] logs [reply_audit:no_reply] exactly when a message
    was received, the last text received is not informational, no reply was
    ever marked delivered, and the last skip, if any, was not intentional. *)
Theorem audit_warns_exactly_when_reply_is_owed {ET : ReplyAudit.EmojiTables} :
  forall start ms context now,
    snd (ReplyAudit.finalize
           (Spec.marks (ReplyAudit.createReplyAuditHandler start) ms)
           context now) <> None
    <-> (exists text,
            Spec.lastReceived ms = Some text
            /\ ReplyAudit.classifyReplyIntent text <> ReplyAudit.informational)
        /\ ~ In Spec.Delivered ms
        /\ (forall reason, Spec.lastSkipped ms <> Some (reason, Some true)).
Proof.
  intros start ms context now.
  destruct (marks_state start ms) as (_ & Hr & Hi & _ & Hd & _ & Hn).
  unfold ReplyAudit.finalize. rewrite Hr, Hi, Hn.
  destruct (ReplyAudit.Handler.delivered _) eqn:Ed.
  - assert (HD : In Spec.Delivered ms) by now apply Hd.
    split.
    + intros H. exfalso. apply H.
      destruct (Spec.lastReceived ms) as [text|]; [|reflexivity].
      now destruct (ReplyAudit.classifyReplyIntent text).
    + intros (_ & H & _). contradiction.
  - assert (HD : ~ In Spec.Delivered ms).
    { intros H. apply Hd in H. discriminate H. }
    destruct (Spec.lastReceived ms) as [text|].
    + destruct (Spec.lastSkipped ms) as [[reason [[|]|]]|];
        destruct (ReplyAudit.classifyReplyIntent text) eqn:Ec; cbn [negb snd];
        split;
        try (intros H; now contradiction H);
        try (intros ((t & [= <-] & Ht) & _ & Hs);
             first [ now contradiction Ht
                   | now contradiction (Hs reason)
                   | congruence ]);
        try (intros _; split; [exists text; split; [reflexivity|congruence]|];
             split; [exact HD | intros r; discriminate]);
        try discriminate.
    + split; [intros H; now contradiction H|].
      intros ((t & Ht & _) & _). discriminate Ht.
Qed.

(** X25.  What [finalize] reports after any sequence of marks on a new
    handler: a flag once raised stays raised, so the reply counts as
    attempted or delivered exactly when it was ever marked so and the inbound
    as received exactly when some text was; the intent is that of the last
    text received ([ambiguous] without one); of several skips the last one
    counts; and the time elapsed is counted from the creation. *)
Theorem finalize_reports_the_marks {ET : ReplyAudit.EmojiTables} :
  forall start ms context now,
    let result :=
      fst (ReplyAudit.finalize
             (Spec.marks (ReplyAudit.createReplyAuditHandler start) ms)
             context now) in
    (ReplyAudit.inboundReceived result = true
     <-> exists text, In (Spec.Received text) ms)
    /\ (ReplyAudit.replyAttempted result = true <-> In Spec.Attempted ms)
    /\ (ReplyAudit.replyDelivered result = true <-> In Spec.Delivered ms)
    /\ ReplyAudit.intent result
       = match Spec.lastReceived ms with
         | Some text => ReplyAudit.classifyReplyIntent text
         | None => ReplyAudit.ambiguous
         end
    /\ ReplyAudit.skipReason result = option_map fst (Spec.lastSkipped ms)
    /\ (ReplyAudit.skippedIntentionally result = true
        <-> exists reason, Spec.lastSkipped ms = Some (reason, Some true))
    /\ ReplyAudit.elapsedMs result = (now - start)%Z.
Proof.
  intros start ms context now result.
  destruct (marks_state start ms) as (Hs & Hr & Hi & Ha & Hd & Hk & Hn).
  assert (Hres : result
                 = {| ReplyAudit.inboundReceived :=
                        ReplyAudit.Handler.received
                          (Spec.marks (ReplyAudit.createReplyAuditHandler start) ms);
                      ReplyAudit.intent :=
                        ReplyAudit.Handler.intent
                          (Spec.marks (ReplyAudit.createReplyAuditHandler start) ms);
                      ReplyAudit.replyAttempted :=
                        ReplyAudit.Handler.attempted
                          (Spec.marks (ReplyAudit.createReplyAuditHandler start) ms);
                      ReplyAudit.replyDelivered :=
                        ReplyAudit.Handler.delivered
                          (Spec.marks (ReplyAudit.createReplyAuditHandler start) ms);
                      ReplyAudit.skipReason :=
                        ReplyAudit.Handler.skipReason
                          (Spec.marks (ReplyAudit.createReplyAuditHandler start) ms);
                      ReplyAudit.skippedIntentionally :=
                        ReplyAudit.Handler.skippedIntentionally
                          (Spec.marks (ReplyAudit.createReplyAuditHandler start) ms);
                      ReplyAudit.elapsedMs := (now - start)%Z |}).
  { subst result. unfold ReplyAudit.finalize. rewrite Hs.
    clear. generalize (Spec.marks (ReplyAudit.createReplyAuditHandler start) ms).
    intros h.
    destruct (ReplyAudit.Handler.received h), (ReplyAudit.Handler.intent h),
             (ReplyAudit.Handler.delivered h),
             (ReplyAudit.Handler.skippedIntentionally h); reflexivity. }
  rewrite Hres.
  cbn [ReplyAudit.inboundReceived ReplyAudit.intent ReplyAudit.replyAttempted
       ReplyAudit.replyDelivered ReplyAudit.skipReason
       ReplyAudit.skippedIntentionally ReplyAudit.elapsedMs].
  assert (Hlast : (exists text, In (Spec.Received text) ms)
                  <-> Spec.lastReceived ms <> None).
  { clear. induction ms as [|m ms IH]; cbn [Spec.lastReceived In].
    - split; [intros [? []] | intros H; now contradiction H].
    - destruct (Spec.lastReceived ms) as [t|].
      + split; [discriminate|]. intros _.
        destruct (proj2 IH) as [text Htext]; [discriminate|].
        exists text. now right.
      + destruct m as [text| | |reason intentional].
        * split; [discriminate|]. intros _. exists text. now left.
        * split; [|intros H; now contradiction H].
          intros [text [H|H]]; [discriminate H|].
          apply (proj1 IH). now exists text.
        * split; [|intros H; now contradiction H].
          intros [text [H|H]]; [discriminate H|].
          apply (proj1 IH). now exists text.
        * split; [|intros H; now contradiction H].
          intros [text [H|H]]; [discriminate H|].
          apply (proj1 IH). now exists text. }
  repeat split; try assumption; try (now apply Ha); try (now apply Hd).
  - intros H. apply Hlast. rewrite Hr in H.
    destruct (Spec.lastReceived ms); [discriminate | discriminate H].
  - intros H. apply Hlast in H. rewrite Hr.
    destruct (Spec.lastReceived ms); [reflexivity | now contradiction H].
  - rewrite Hn. destruct (Spec.lastSkipped ms) as [[reason [[|]|]]|];
      try discriminate. intros _. now exists reason.
  - rewrite Hn. intros [reason ->]. reflexivity.
Qed.

(** X26.  An unanswered question is logged: if the last text received holds
    a question mark, no reply was marked delivered and the last skip was not
    intentional, then [finalize] logs a message, which carries the intent
    [expects_reply], whether a reply was attempted, the reason of the last
    skip ([none] without one), the time since the creation of the handler,
    and the session and channel of the context with [?] for an absent
    one. *)
Theorem unanswered_question_is_logged {ET : ReplyAudit.EmojiTables} :
  forall start ms text context now,
    Spec.questionMarkIsNoEmoji ->
    Spec.lastReceived ms = Some (Some text) ->
    In 0x3F%N text ->
    ~ In Spec.Delivered ms ->
    (forall reason, Spec.lastSkipped ms <> Some (reason, Some true)) ->
    exists log,
      snd (ReplyAudit.finalize
             (Spec.marks (ReplyAudit.createReplyAuditHandler start) ms)
             context now) = Some log
      /\ ReplyAudit.logIntent log = ReplyAudit.expects_reply
      /\ (ReplyAudit.logAttempted log = true <-> In Spec.Attempted ms)
      /\ ReplyAudit.logSkip log
         = match Spec.lastSkipped ms with
           | Some (reason, _) => reason
           | None => js "none"
           end
      /\ ReplyAudit.logElapsedMs log = (now - start)%Z
      /\ ReplyAudit.detail log
         = match context with
           | Some c =>
             Some (match ReplyAudit.Context.sessionKey c with
                   | Some k => k | None => js "?" end,
                   match ReplyAudit.Context.channel c with
                   | Some k => k | None => js "?" end)
           | None => None
           end.
Proof.
  intros start ms text context now Htables Hlast Hin Hundelivered Hskip.
  destruct (marks_state start ms) as (Hs & Hr & Hi & Ha & Hd & Hk & Hn).
  rewrite Hlast in Hr, Hi.
  assert (Hintent : ReplyAudit.classifyReplyIntent (Some text)
                    = ReplyAudit.expects_reply).
  { assert (Htrim : In 0x3F%N (trim text)) by now apply trim_In.
    rewrite classifyReplyIntent_trimmed
      by (intros E; rewrite E in Htrim; contradiction Htrim).
    cbn zeta. rewrite (question_not_informational _ Htables Htrim).
    replace (includes (trim text) (js "?")) with true; [reflexivity|].
    symmetry. exact (includes_In _ _ Htrim). }
  rewrite Hintent in Hi.
  assert (Hdel : ReplyAudit.Handler.delivered
                   (Spec.marks (ReplyAudit.createReplyAuditHandler start) ms)
                 = false).
  { destruct (ReplyAudit.Handler.delivered _); [|reflexivity].
    contradiction Hundelivered. now apply Hd. }
  assert (Hint : ReplyAudit.Handler.skippedIntentionally
                   (Spec.marks (ReplyAudit.createReplyAuditHandler start) ms)
                 = false).
  { rewrite Hn. destruct (Spec.lastSkipped ms) as [[reason [[|]|]]|];
      try reflexivity. now contradiction (Hskip reason). }
  unfold ReplyAudit.finalize. rewrite Hr, Hi, Hdel, Hint. cbn [negb snd].
  eexists. split; [reflexivity|].
  cbn [ReplyAudit.logIntent ReplyAudit.logAttempted ReplyAudit.logSkip
       ReplyAudit.logElapsedMs ReplyAudit.detail ReplyAudit.elapsedMs].
  split; [reflexivity|]. split; [exact Ha|]. split.
  - rewrite Hk. now destruct (Spec.lastSkipped ms) as [[reason i]|].
  - split; [now rewrite Hs|]. now destruct context as [[[k|] [c|]]|].
Qed.

(** ** The properties of the reply audit at concrete inputs *)

(** X23 at a text that would be informational without its question mark. *)
Lemma question_expects_reply_witness :
  ReplyAudit.classifyReplyIntent (ET := Examples.emoticonTables) (Some (js "ok?"))
  = ReplyAudit.expects_reply
  /\ ReplyAudit.classifyReplyIntent (ET := Examples.emoticonTables) (Some (js "ok"))
     = ReplyAudit.informational.
Proof.
  split; [|vm_compute; reflexivity].
  apply (question_expects_reply (ET := Examples.emoticonTables)).
  - split; reflexivity.
  - vm_compute. tauto.
Defined.

(** X26 at a question that was attempted and then skipped silently. *)
Lemma unanswered_question_is_logged_witness :
  exists log,
    snd (ReplyAudit.finalize
           (Spec.marks (ET := Examples.emoticonTables)
              (ReplyAudit.createReplyAuditHandler 100)
              [Spec.Received (Some (js "how do I fix this?")); Spec.Attempted;
               Spec.Skipped (js "dispatcher:silent") None])
           None 250) = Some log
    /\ ReplyAudit.logSkip log = js "dispatcher:silent"
    /\ ReplyAudit.logElapsedMs log = 150%Z.
Proof.
  destruct (unanswered_question_is_logged
              (ET := Examples.emoticonTables) 100
              [Spec.Received (Some (js "how do I fix this?")); Spec.Attempted;
               Spec.Skipped (js "dispatcher:silent") None]
              (js "how do I fix this?") None 250)
    as (log & Hlog & _ & _ & Hskip & Helapsed & _).
  - split; reflexivity.
  - reflexivity.
  - vm_compute. tauto.
  - cbn [In]. intros [H|[H|[H|[]]]]; discriminate H.
  - intros reason. cbn [Spec.lastSkipped]. discriminate.
  - exists log. split; [exact Hlog|]. split; [exact Hskip | exact Helapsed].
Defined.
